(** * conx/konx.py: layers, networks and dataset bookkeeping

    A shallow embedding of [src/conx/konx.py].

    The module is written for Python 2 with [print_function] and [division]
    imported from [__future__]: [reduce] is the builtin left fold, [/] is true
    division.  Python [int] objects are modelled by [Z] ([bool], a subclass of
    [int], by the integers 0 and 1), Python [float] objects by IEEE binary64
    ([PrimFloat.float]).

    Layer objects live in a heap and are referred to by location, because
    [connect] mutates the two layers it links and a layer may occur in several
    connection lists.  A method of [Network] is a function from the state
    before the call to an outcome (a value or a raised exception) and the
    state after the call, so that what a failed call leaves behind can be
    stated.  The recursion of [chain] is bounded by an explicit depth.

    numpy's element types and arithmetic are a parameter ([np.Kernel]), and
    so is Keras ([keras.Backend]), every call of which may raise; the file
    system is a map from paths to archives, and the permutation drawn by
    [reshuffle_dataset] is an argument of the method.  Text written to
    standard output by [print] is not part of the state and is left out, and
    with it the [show] methods, which only print. *)

From Stdlib Require Import ZArith String Floats Lia.
From Stdlib Require Uint63.
From stdpp Require Import base option list gmap strings.

Local Open Scope string_scope.
Local Open Scope list_scope.
Local Open Scope nat_scope.

#[local] Set Warnings "-clear-no-such-hyp".

(** ** Python values that reach the constructor and the dataset methods *)

#[warnings="-register-all"]
Inductive pyval :=
| PyNone
| PyInt (z : Z)
| PyFloat (x : float)
| PyStr (s : string)
| PyTuple (items : list pyval)
| PyCallable (id : nat)   (* a function or any other callable object *)
| PyObject (id : nat).    (* any object of another type *)

(** A number held by an attribute once it has been validated. *)
Inductive number :=
| NInt (z : Z)
| NFloat (x : float).

(** Every [raise] of the module raises the class [Exception] with a message;
    one constructor per message, with the value formatted into it.  The last
    group are the exceptions raised by the interpreter and by numpy. *)
Inductive exn :=
| BadLayerName (name : pyval)          (* 'bad layer name: %s' *)
| BadShape (shape : pyval)             (* 'bad shape: %s' *)
| BadVshape (vs : pyval)               (* 'bad vshape: %s' *)
| VshapeIncompatible (size : Z)        (* 'vshape incompatible with layer of size %d' *)
| UnknownActivation (act : pyval)      (* 'unknown activation function: %s' *)
| BadDropout (dropout : pyval)         (* 'bad dropout rate: %s' *)
| UnknownLayer (name : string)         (* 'unknown layer: %s' *)
| FilenameNotNpz                       (* 'filename must end in .npz' *)
| DifferentNumbers                     (* 'Dataset contains different numbers ...' *)
| DatasetEmpty                         (* 'Dataset is empty' *)
| CouldNotLoad (filename : string)     (* "couldn't load .npz dataset %s" *)
| OldRangeWrong                        (* 'old_range values are wrong' *)
| NewRangeWrong                        (* 'new_range values are wrong' *)
| NoDatasetLoaded                      (* 'no dataset loaded' *)
| SplitNotInUnit (split : float)       (* 'split is not in the range 0-1: %s' *)
| SplitOutOfRange (split : Z)          (* 'split out of range: %d' *)
| InvalidSplit (split : pyval)         (* 'invalid split: %s' *)
| AttributeError (attr : string)
| TypeError
| ValueError
| OverflowError
| IOError (filename : string)
| KeyError (key : string).

Definition loc := nat.

(** Sequencing of a computation that may raise. *)
Definition bind_exn {A B} (m : exn + A) (k : A → exn + B) : exn + B :=
  match m with
  | inl e => inl e
  | inr a => k a
  end.

Notation "'let?' x := m 'in' k" := (bind_exn m (λ x, k))
  (at level 10, x name, m at level 100, k at level 200).

(** ** Builtins *)

(** [reduce(function, sequence)] without initial value: a left fold that
    starts from the first item and raises [TypeError] on an empty sequence. *)
Definition reduce {A} (f : A → A → A) (l : list A) : option A :=
  match l with
  | [] => None
  | x :: xs => Some (foldl f x xs)
  end.

(** [all([...])] over a list comprehension. *)
Definition all {A} (p : A → bool) (l : list A) : bool := forallb p l.

(** [isinstance(n, int) and n > 0] *)
Definition is_positive_int (n : pyval) : bool :=
  match n with
  | PyInt z => (0 <? z)%Z
  | _ => false
  end.

(** The integers of a tuple; on a tuple accepted by [valid_shape] these are
    all its items (lemma [valid_shape_items]). *)
Definition int_items (items : list pyval) : list Z :=
  omap (λ v, match v with PyInt z => Some z | _ => None end) items.

(** ** Utility functions *)

Definition valid_shape (x : pyval) : bool :=
  match x with
  | PyInt z => (0 <? z)%Z
  | PyTuple items => (1 <? length items)%nat && all is_positive_int items
  | _ => false
  end.

(** vshape must be a single int or a 2-dimensional tuple *)
Definition valid_vshape (x : pyval) : bool :=
  valid_shape x &&
  match x with
  | PyInt _ => true
  | PyTuple items => (length items =? 2)%nat
  | _ => false
  end.

(** ** Keras layers, as the descriptors handed to the framework *)

Inductive activation_fn :=
| ActName (s : string)
| ActCallable (id : nat).

Inductive keras_layer :=
| Dense (units : Z) (activation : activation_fn)
| Dropout (rate : number).

(** The display shape is the validated [vshape] argument itself (an int or a
    pair) or a tuple built by the constructor. *)
Inductive vshape_val :=
| VInt (n : Z)
| VTuple (dims : list Z).

Module Layer.

Definition ACTIVATION_FUNCTIONS : list string :=
  ["relu"; "sigmoid"; "linear"; "softmax"].

Record t := mk {
  name : string;
  params : gmap string pyval;
  shape : list Z;
  size : Z;
  vshape : vshape_val;
  activation : activation_fn;
  dropout : number;
  incoming_connections : list loc;
  outgoing_connections : list loc
}.

(** Lines 194-207: the visual shape. *)
Definition init_vshape (params : gmap string pyval) (shape : list Z) (size : Z)
  : exn + vshape_val :=
  match params !! "vshape" with
  | Some vs =>
      if negb (valid_vshape vs) then inl (BadVshape vs)
      else
        match vs with
        | PyInt n =>
            if negb (n =? size)%Z then inl (VshapeIncompatible size)
            else inr (VInt n)
        | PyTuple items =>
            match int_items items with
            | v0 :: v1 :: _ =>
                if negb (v0 * v1 =? size)%Z then inl (VshapeIncompatible size)
                else inr (VTuple (int_items items))
            | _ => inl TypeError
            end
        | _ => inl TypeError
        end
  | None =>
      if (2 <? length shape)%nat then inr (VTuple [size])
      else inr (VTuple shape)
  end.

(** Lines 209-216: the activation function. *)
Definition init_activation (params : gmap string pyval) : exn + activation_fn :=
  match params !! "activation" with
  | Some act =>
      let act := match act with PyNone => PyStr "linear" | _ => act end in
      match act with
      | PyCallable id => inr (ActCallable id)
      | PyStr s =>
          if bool_decide (s ∈ ACTIVATION_FUNCTIONS) then inr (ActName s)
          else inl (UnknownActivation act)
      | _ => inl (UnknownActivation act)
      end
  | None => inr (ActName "linear")
  end.

(** Lines 218-225: the dropout rate. *)
Definition init_dropout (params : gmap string pyval) : exn + number :=
  match params !! "dropout" with
  | Some dropout =>
      let dropout := match dropout with PyNone => PyInt 0 | _ => dropout end in
      match dropout with
      | PyInt z =>
          if (0 <=? z)%Z && (z <=? 1)%Z then inr (NInt z)
          else inl (BadDropout dropout)
      | PyFloat x =>
          if PrimFloat.leb 0 x && PrimFloat.leb x 1 then inr (NFloat x)
          else inl (BadDropout dropout)
      | _ => inl (BadDropout dropout)
      end
  | None => inr (NInt 0)
  end.

(** Lines 184-192: set layer topology (shape) and number of units (size). *)
Definition init_shape (shape : pyval) : exn + (list Z * Z) :=
  match shape with
  | PyInt n => inr ([n], n)                  (* linear layer *)
  | PyTuple items =>                         (* multi-dimensional layer *)
      match reduce Z.mul (int_items items) with
      | Some p => inr (int_items items, p)
      | None => inl TypeError
      end
  | _ => inl TypeError
  end.

(** [Layer(name, shape, **params)] *)
Definition __init__ (name : pyval) (shape : pyval) (params : gmap string pyval)
  : exn + t :=
  match name with
  | PyStr name' =>
      if negb (0 <? String.length name')%nat then inl (BadLayerName name)
      else if negb (valid_shape shape) then inl (BadShape shape)
      else
        let? sh := init_shape shape in
        let? vs := init_vshape params sh.1 sh.2 in
        let? act := init_activation params in
        let? dr := init_dropout params in
        inr (mk name' params sh.1 sh.2 vs act dr [] [])
  | _ => inl (BadLayerName name)
  end.

Definition kind (self : t) : string :=
  if (length (incoming_connections self) =? 0)%nat
     && (length (outgoing_connections self) =? 0)%nat then "unconnected"
  else if (0 <? length (incoming_connections self))%nat
          && (0 <? length (outgoing_connections self))%nat then "hidden"
  else if (0 <? length (incoming_connections self))%nat then "output"
  else "input".

(** [self.dropout > 0] *)
Definition positive (x : number) : bool :=
  match x with
  | NInt z => (0 <? z)%Z
  | NFloat x => PrimFloat.ltb 0 x
  end.

Definition make_keras_layers (self : t) : list keras_layer :=
  let klayer :=
    if String.eqb (kind self) "input" then []
    else [Dense (size self) (activation self)] in
  if positive (dropout self) then klayer ++ [Dropout (dropout self)]
  else klayer.

(** [chain] recurses through the heap along [outgoing_connections[0]].  The
    recursion depth is bounded by [fuel]; [None] means that no list is
    returned within that depth. *)
Fixpoint chain (fuel : nat) (h : gmap loc t) (self : loc) : option (list loc) :=
  match fuel with
  | O => None
  | S fuel =>
      ly ← h !! self;
      match outgoing_connections ly with
      | [] => Some [self]
      | next :: _ => (self ::.) <$> chain fuel h next
      end
  end.

End Layer.

(** ** numpy

    The numeric kernel of numpy (element types, conversions, comparisons and
    arithmetic between an array element and a Python number) is a parameter of
    the development: the methods of [Network] only move arrays around and call
    these operations.  An array is the list of its entries along the first
    axis, each entry flattened, together with its element type.  No method
    writes into an existing array ([astype], arithmetic and fancy indexing
    build new arrays), so arrays are values. *)

Inductive binop := Add | Sub | Mul | TrueDiv.

Module np.

Class Kernel := {
  scalar : Type;      (* array elements, numpy scalars, the numbers of a range *)
  dtype : Type;
  (* one element converted by [astype] from the first type to the second *)
  cast : dtype → dtype → scalar → scalar;
  minimum : scalar → scalar → scalar;
  maximum : scalar → scalar → scalar;
  less : scalar → scalar → bool;            (* x < y *)
  less_equal : scalar → scalar → bool;      (* x <= y *)
  (* [x op y] where one operand is an element of an array of the given
     type and the other a Python number, and the type of the result array *)
  arith : binop → dtype → scalar → scalar → scalar;
  result_type : binop → dtype → scalar → dtype;
  (* subtraction of two Python numbers *)
  py_sub : scalar → scalar → scalar
}.

Section arrays.
Context `{Kernel}.

Record ndarray := array {
  dtype_of : dtype;
  rows : list (list scalar)
}.

(** [len(a)], also [a.shape[0]] *)
Definition len (a : ndarray) : nat := length (rows a).

(** [np.min(a)] and [np.max(a)] reduce over all elements and raise
    [ValueError] on an array without elements. *)
Definition min (a : ndarray) : exn + scalar :=
  match reduce minimum (concat (rows a)) with
  | Some m => inr m
  | None => inl ValueError
  end.

Definition max (a : ndarray) : exn + scalar :=
  match reduce maximum (concat (rows a)) with
  | Some m => inr m
  | None => inl ValueError
  end.

Definition astype (d : dtype) (a : ndarray) : ndarray :=
  array d (map (map (cast (dtype_of a) d)) (rows a)).

(** The bound [k] of a slice on a sequence of length [n]: negative bounds
    count from the end, and bounds are clipped to the sequence. *)
Definition slice_bound (n : nat) (k : Z) : nat :=
  if (k <? 0)%Z then Z.to_nat (Z.of_nat n + k) else Nat.min (Z.to_nat k) n.

(** [a[:k]] and [a[k:]] *)
Definition slice_to (a : ndarray) (k : Z) : ndarray :=
  array (dtype_of a) (take (slice_bound (len a) k) (rows a)).

Definition slice_from (a : ndarray) (k : Z) : ndarray :=
  array (dtype_of a) (drop (slice_bound (len a) k) (rows a)).

(** [np.concatenate((a, b))] for two arrays of one element type; no method
    calls it, the round trip of [split_dataset] is stated with it. *)
Definition concatenate (a b : ndarray) : ndarray :=
  array (dtype_of a) (rows a ++ rows b).

(** [a op y] and [y op a] for an array [a] and a Python number [y] *)
Definition array_op (op : binop) (a : ndarray) (y : scalar) : ndarray :=
  array (result_type op (dtype_of a) y)
        (map (map (λ x, arith op (dtype_of a) x y)) (rows a)).

Definition op_array (op : binop) (y : scalar) (a : ndarray) : ndarray :=
  array (result_type op (dtype_of a) y)
        (map (map (λ x, arith op (dtype_of a) y x)) (rows a)).

(** [a[indices]] for an array of indices that are not negative: the entries
    at these positions, in the order of [indices]; [None] stands for the
    [IndexError] that an index beyond the first axis raises. *)
Definition getitem_indices (a : ndarray) (indices : list nat) : option ndarray :=
  rows' ← mapM (λ i, rows a !! i) indices;
  Some (array (dtype_of a) rows').

End arrays.

End np.

Section rescale.
Context `{np.Kernel}.

Definition rescale_numpy_array (a : np.ndarray)
    (old_range new_range : np.scalar * np.scalar) : np.ndarray :=
  let '(old_min, old_max) := old_range in
  let '(new_min, new_max) := new_range in
  let old_delta := np.py_sub old_max old_min in
  let new_delta := np.py_sub new_max new_min in
  np.op_array Add new_min
    (np.array_op TrueDiv
       (np.array_op Mul (np.array_op Sub a old_min) new_delta) old_delta).

End rescale.

(** ** Python floats *)

(** [float(z)] for an int: the nearest binary64, [OverflowError] beyond its
    range. *)
Definition float_of_int (z : Z) : exn + float :=
  let x := SF2Prim (binary_normalize prec emax z 0 false) in
  if PrimFloat.is_finite x then inr x else inl OverflowError.

(** [int(x)] for a float: truncation towards zero. *)
Definition int_of_float (x : float) : exn + Z :=
  match Prim2SF x with
  | S754_zero _ => inr 0%Z
  | S754_finite s m e =>
      let a := Z.shiftl (Z.pos m) e in
      inr (if s then (- a)%Z else a)
  | S754_infinity _ => inl OverflowError
  | S754_nan => inl ValueError
  end.

(** ** Keras

    Like numpy, Keras is a parameter of the development.  Its calls act on
    objects of its own (the graph of tensors, the weights of its layers), any
    of them may raise, and the development fixes none of this: the methods of
    [Network] are followed through the calls they make. *)

(** The argument [inputs] or [outputs] of [Model]: one tensor or a list. *)
Inductive tensors (T : Type) :=
  | One (x : T)
  | Many (xs : list T).
Arguments One {T} x.
Arguments Many {T} xs.

Module keras.

Class Backend := {
  state : Type;        (* the objects of Keras *)
  layer : Type;        (* a [Dense] or [Dropout] object *)
  tensor : Type;
  model : Type;
  error : Type;        (* what a call of Keras raises *)
  kwargs : Type;       (* the keyword arguments of [Model.compile] *)
  sample : Type;       (* the argument [input] of [propagate] *)
  prediction : Type;   (* [list(model.predict(np.array([input]))[0])] *)
  Input : list Z → state → (error + tensor) * state;
  (* [Dense(units, activation=...)] and [Dropout(rate)] *)
  make : keras_layer → state → (error + layer) * state;
  (* [k(f)] *)
  call : layer → tensor → state → (error + tensor) * state;
  Model : tensors tensor → tensors tensor → state → (error + model) * state;
  compile : model → kwargs → state → (error + unit) * state;
  predict : model → sample → state → (error + prediction) * state
}.

End keras.

(** ** Network *)

Module Network.
Section with_numpy.
Context `{np.Kernel}.

(** The attributes of a [Network] object; the dataset attributes are absent
    until a method assigns them. *)
Record t := mk {
  layers : list loc;
  layer_dict : gmap string loc;
  inputs : option np.ndarray;
  labels : option np.ndarray;
  dataset_size : option Z;
  inputs_range : option (np.scalar * np.scalar);
  split : option Z;
  train_inputs : option np.ndarray;
  test_inputs : option np.ndarray;
  train_labels : option np.ndarray;
  test_labels : option np.ndarray
}.

Definition set_inputs v (n : t) : t :=
  mk (layers n) (layer_dict n) (Some v) (labels n) (dataset_size n)
     (inputs_range n) (split n)
     (train_inputs n) (test_inputs n) (train_labels n) (test_labels n).
Definition set_labels v (n : t) : t :=
  mk (layers n) (layer_dict n) (inputs n) (Some v) (dataset_size n)
     (inputs_range n) (split n)
     (train_inputs n) (test_inputs n) (train_labels n) (test_labels n).
Definition set_dataset_size v (n : t) : t :=
  mk (layers n) (layer_dict n) (inputs n) (labels n) (Some v)
     (inputs_range n) (split n)
     (train_inputs n) (test_inputs n) (train_labels n) (test_labels n).
Definition set_inputs_range v (n : t) : t :=
  mk (layers n) (layer_dict n) (inputs n) (labels n) (dataset_size n)
     (Some v) (split n)
     (train_inputs n) (test_inputs n) (train_labels n) (test_labels n).
Definition set_split v (n : t) : t :=
  mk (layers n) (layer_dict n) (inputs n) (labels n) (dataset_size n)
     (inputs_range n) (Some v)
     (train_inputs n) (test_inputs n) (train_labels n) (test_labels n).
Definition set_train_inputs v (n : t) : t :=
  mk (layers n) (layer_dict n) (inputs n) (labels n) (dataset_size n)
     (inputs_range n) (split n)
     (Some v) (test_inputs n) (train_labels n) (test_labels n).
Definition set_test_inputs v (n : t) : t :=
  mk (layers n) (layer_dict n) (inputs n) (labels n) (dataset_size n)
     (inputs_range n) (split n)
     (train_inputs n) (Some v) (train_labels n) (test_labels n).
Definition set_train_labels v (n : t) : t :=
  mk (layers n) (layer_dict n) (inputs n) (labels n) (dataset_size n)
     (inputs_range n) (split n)
     (train_inputs n) (test_inputs n) (Some v) (test_labels n).
Definition set_test_labels v (n : t) : t :=
  mk (layers n) (layer_dict n) (inputs n) (labels n) (dataset_size n)
     (inputs_range n) (split n)
     (train_inputs n) (test_inputs n) (train_labels n) (Some v).

(** What a method can read and write: the layer objects, the network
    object itself, and the [.npz] archives of the file system (an archive
    maps each key to an array). *)
Record world := mk_world {
  heap : gmap loc Layer.t;
  self : t;
  disk : gmap string (gmap string np.ndarray)
}.

(** A method call takes the state before the call to its outcome, a
    returned value or a raised exception, and the state after it. *)
Definition M (A : Type) : Type := world → (exn + A) * world.

Definition ret {A} (a : A) : M A := λ w, (inr a, w).
Definition raise {A} (e : exn) : M A := λ w, (inl e, w).
Definition bind {A B} (m : M A) (k : A → M B) : M B :=
  λ w, match m w with
       | (inl e, w') => (inl e, w')
       | (inr a, w') => k a w'
       end.
(** [try: m  except: handler] *)
Definition try_except {A} (m : M A) (handler : M A) : M A :=
  λ w, match m w with
       | (inl _, w') => handler w'
       | (inr a, w') => (inr a, w')
       end.
Definition lift {A} (r : exn + A) : M A := λ w, (r, w).

(** [self.attr], which raises [AttributeError] while the attribute is absent *)
Definition getattr {A} (attr : string) (field : t → option A) : M A :=
  λ w, match field (self w) with
       | Some a => (inr a, w)
       | None => (inl (AttributeError attr), w)
       end.
(** [self.attr = v] *)
Definition setattr {A} (set : A → t → t) (v : A) : M unit :=
  λ w, (inr tt, mk_world (heap w) (set v (self w)) (disk w)).

Definition append_outgoing (l : loc) (target : loc) : M unit :=
  λ w, (inr tt,
        mk_world
          (alter (λ ly, Layer.mk (Layer.name ly) (Layer.params ly)
                          (Layer.shape ly) (Layer.size ly) (Layer.vshape ly)
                          (Layer.activation ly) (Layer.dropout ly)
                          (Layer.incoming_connections ly)
                          (Layer.outgoing_connections ly ++ [target]))
                 l (heap w))
          (self w) (disk w)).

Definition append_incoming (l : loc) (source : loc) : M unit :=
  λ w, (inr tt,
        mk_world
          (alter (λ ly, Layer.mk (Layer.name ly) (Layer.params ly)
                          (Layer.shape ly) (Layer.size ly) (Layer.vshape ly)
                          (Layer.activation ly) (Layer.dropout ly)
                          (Layer.incoming_connections ly ++ [source])
                          (Layer.outgoing_connections ly))
                 l (heap w))
          (self w) (disk w)).

Notation "x ← m ; k" := (bind m (λ x, k))
  (at level 20, m at level 100, k at level 200, only parsing).
Notation "m ;; k" := (bind m (λ _, k))
  (at level 100, k at level 200, right associativity, only parsing).

(** The constructor [Network], applied to its layers: the dict comprehension
    keeps, for a name borne by several layers, the last of them. *)
Definition __init__ (h : gmap loc Layer.t) (layers : list loc) : t :=
  mk layers
     (foldl (λ d l, match h !! l with
                    | Some ly => <[Layer.name ly := l]> d
                    | None => d
                    end) ∅ layers)
     None None None None None None None None None.

(** [net[layer_name]]; the result [None] is Python's [None]. *)
Definition __getitem__ (layer_name : string) : M (option loc) :=
  λ w, match layer_dict (self w) !! layer_name with
       | None => ret None w
       | Some l => ret (Some l) w
       end.

Definition connect (from_layer_name to_layer_name : string) : M unit :=
  λ w,
    match layer_dict (self w) !! from_layer_name with
    | None => raise (UnknownLayer from_layer_name) w
    | Some from_layer =>
        match layer_dict (self w) !! to_layer_name with
        | None => raise (UnknownLayer to_layer_name) w
        | Some to_layer =>
            (append_outgoing from_layer to_layer ;;
             append_incoming to_layer from_layer) w
        end
    end.

(** [int(self.dataset_size * split)] for a float [split] *)
Definition scaled (dataset_size : Z) (split : float) : exn + Z :=
  let? n := float_of_int dataset_size in
  int_of_float (PrimFloat.mul n split).

Definition split_dataset (split' : pyval) (verbose : bool) : M unit :=
  size ← getattr "dataset_size" dataset_size;
  if (size =? 0)%Z then raise NoDatasetLoaded
  else
    match split' with
    | PyFloat x =>
        if negb (PrimFloat.leb 0 x && PrimFloat.leb x 1)
        then raise (SplitNotInUnit x)
        else (size ← getattr "dataset_size" dataset_size;
              k ← lift (scaled size x);
              setattr set_split k)
    | PyInt z =>
        size ← getattr "dataset_size" dataset_size;
        if negb ((0 <=? z)%Z && (z <=? size)%Z)
        then raise (SplitOutOfRange z)
        else setattr set_split z
    | _ => raise (InvalidSplit split')
    end ;;
    a ← getattr "inputs" inputs;
    k ← getattr "split" split;
    setattr set_train_inputs (np.slice_to a k) ;;
    a ← getattr "inputs" inputs;
    k ← getattr "split" split;
    setattr set_test_inputs (np.slice_from a k) ;;
    a ← getattr "labels" labels;
    k ← getattr "split" split;
    setattr set_train_labels (np.slice_to a k) ;;
    a ← getattr "labels" labels;
    k ← getattr "split" split;
    setattr set_test_labels (np.slice_from a k).

(** [filename[-4:]]: the last four characters, or the whole string when it
    is shorter. *)
Definition suffix4 (filename : string) : string :=
  String.substring (String.length filename - 4) 4 filename.

(** [np.load(filename)] and [f[key]] *)
Definition np_load (filename : string) : M (gmap string np.ndarray) :=
  λ w, match disk w !! filename with
       | Some f => (inr f, w)
       | None => (inl (IOError filename), w)
       end.
Definition item (f : gmap string np.ndarray) (key : string) : M np.ndarray :=
  match f !! key with
  | Some a => ret a
  | None => raise (KeyError key)
  end.

(** loads a dataset from an .npz file and returns data, labels *)
Definition load_dataset (filename : string) (verbose : bool) : M unit :=
  if negb (String.eqb (suffix4 filename) ".npz") then raise FilenameNotNpz
  else
    try_except
      (f ← np_load filename;
       a ← item f "data";
       setattr set_inputs a ;;
       a ← item f "labels";
       setattr set_labels a ;;
       a ← getattr "inputs" inputs;
       b ← getattr "labels" labels;
       if negb (np.len a =? np.len b)%nat then raise DifferentNumbers
       else
         a ← getattr "inputs" inputs;
         if (np.len a =? 0)%nat then raise DatasetEmpty
         else
           a ← getattr "inputs" inputs;
           setattr set_dataset_size (Z.of_nat (np.len a)) ;;
           a ← getattr "inputs" inputs;
           lo ← lift (np.min a);
           a ← getattr "inputs" inputs;
           hi ← lift (np.max a);
           setattr set_inputs_range (lo, hi) ;;
           size ← getattr "dataset_size" dataset_size;
           split_dataset (PyInt size) false)
      (raise (CouldNotLoad filename)).

Definition rescale_inputs (old_range new_range : np.scalar * np.scalar)
    (new_dtype : option np.dtype) : M unit :=
  match new_dtype with
  | Some d =>
      a ← getattr "inputs" inputs;
      setattr set_inputs (np.astype d a)
  | None => ret tt
  end ;;
  let '(old_min, old_max) := old_range in
  let '(new_min, new_max) := new_range in
  a ← getattr "inputs" inputs;
  lo ← lift (np.min a);
  out_of_range ←
    (if np.less lo old_min then ret true
     else (a ← getattr "inputs" inputs;
           hi ← lift (np.max a);
           ret (np.less old_max hi)));
  if (out_of_range : bool) then raise OldRangeWrong
  else if np.less_equal new_max new_min then raise NewRangeWrong
  else
    a ← getattr "inputs" inputs;
    setattr set_inputs (rescale_numpy_array a old_range new_range) ;;
    a ← getattr "inputs" inputs;
    lo ← lift (np.min a);
    a ← getattr "inputs" inputs;
    hi ← lift (np.max a);
    setattr set_inputs_range (lo, hi).

(** [a[indices]], which raises [IndexError]; no other method can raise it,
    and [reshuffle_dataset] reports it beside the exceptions of the other
    methods. *)
Inductive raised :=
  | Raised (e : exn)
  | IndexError.

Definition index (a : np.ndarray) (indices : list nat)
  : world → (raised + np.ndarray) * world :=
  λ w, match np.getitem_indices a indices with
       | Some a' => (inr a', w)
       | None => (inl IndexError, w)
       end.

(** A method call inside [reshuffle_dataset]. *)
Definition call {A} (m : M A) : world → (raised + A) * world :=
  λ w, match m w with
       | (inl e, w') => (inl (Raised e), w')
       | (inr a, w') => (inr a, w')
       end.

Definition bind_raised {A B} (m : world → (raised + A) * world)
    (k : A → world → (raised + B) * world) : world → (raised + B) * world :=
  λ w, match m w with
       | (inl e, w') => (inl e, w')
       | (inr a, w') => k a w'
       end.

(** [indices] is the value that [np.random.permutation(self.dataset_size)]
    returns in this call, a permutation of [range(self.dataset_size)]. *)
Definition reshuffle_dataset (indices : list nat) (verbose : bool)
  : world → (raised + unit) * world :=
  bind_raised (call (getattr "dataset_size" dataset_size)) (λ size,
  if (size =? 0)%Z then call (raise NoDatasetLoaded)
  else
    bind_raised (call (getattr "dataset_size" dataset_size)) (λ _,
    bind_raised (call (getattr "inputs" inputs)) (λ a,
    bind_raised (index a indices) (λ a',
    bind_raised (call (setattr set_inputs a')) (λ _,
    bind_raised (call (getattr "labels" labels)) (λ b,
    bind_raised (index b indices) (λ b',
    bind_raised (call (setattr set_labels b')) (λ _,
    bind_raised (call (getattr "split" split)) (λ k,
    call (split_dataset (PyInt k) false)))))))))).

(** *** Models

    [compile] gives layers and the network an attribute [model]; a session
    holds these attributes and the objects of Keras beside the state of the
    other methods. *)

Context `{keras.Backend}.

Record session := mk_session {
  objects : world;
  backend : keras.state;
  layer_model : gmap loc keras.model;    (* [layer.model], where assigned *)
  network_model : option keras.model     (* [self.model], once assigned *)
}.

Inductive failure :=
  | Konx (e : exn)
  | Keras (e : keras.error).

(** A call returns or raises and leaves a session, or it has no outcome:
    [chain] exceeds the recursion depth. *)
Definition K (A : Type) : Type := session → option ((failure + A) * session).

Definition kret {A} (a : A) : K A := λ s, Some (inr a, s).
Definition kraise {A} (e : exn) : K A := λ s, Some (inl (Konx e), s).
Definition kbind {A B} (m : K A) (k : A → K B) : K B :=
  λ s, match m s with
       | Some (inl e, s') => Some (inl e, s')
       | Some (inr a, s') => k a s'
       | None => None
       end.

(** a call of Keras *)
Definition keras_call {A} (op : keras.state → (keras.error + A) * keras.state)
  : K A :=
  λ s, let '(r, st) := op (backend s) in
       Some (match r with
             | inl e => inl (Keras e)
             | inr a => inr a
             end,
             mk_session (objects s) st (layer_model s) (network_model s)).

(** a call of one of the methods above *)
Definition method {A} (m : M A) : K A :=
  λ s, let '(r, w) := m (objects s) in
       Some (match r with
             | inl e => inl (Konx e)
             | inr a => inr a
             end,
             mk_session w (backend s) (layer_model s) (network_model s)).

(** the layer object at [l] *)
Definition deref (l : loc) : K Layer.t :=
  λ s, match heap (objects s) !! l with
       | Some ly => Some (inr ly, s)
       | None => None
       end.

(** [layer.chain()], to the recursion depth [fuel] *)
Definition chain_of (fuel : nat) (l : loc) : K (list loc) :=
  λ s, match Layer.chain fuel (heap (objects s)) l with
       | Some p => Some (inr p, s)
       | None => None
       end.

(** [c.model = m] and [self.model = m] *)
Definition set_layer_model (c : loc) (m : keras.model) : K unit :=
  λ s, Some (inr tt,
             mk_session (objects s) (backend s) (<[c := m]> (layer_model s))
               (network_model s)).
Definition set_network_model (m : keras.model) : K unit :=
  λ s, Some (inr tt,
             mk_session (objects s) (backend s) (layer_model s) (Some m)).

(** [c.make_keras_layers()]: the Keras layers are constructed in order *)
Fixpoint make_layers (ks : list keras_layer) : K (list keras.layer) :=
  match ks with
  | [] => kret []
  | k :: ks =>
      kbind (keras_call (keras.make k)) (λ k',
      kbind (make_layers ks) (λ ks',
      kret (k' :: ks')))
  end.

(** [for k in ...: f = k(f)] *)
Fixpoint apply_layers (ks : list keras.layer) (f : keras.tensor)
  : K keras.tensor :=
  match ks with
  | [] => kret f
  | k :: ks => kbind (keras_call (keras.call k f)) (apply_layers ks)
  end.

(** The body of [for c in layer.chain()], over the layers [p] of the chain
    that are still to come; [input] is [input_layers[-1]]. *)
Fixpoint along_chain (input : keras.tensor) (p : list loc) (f : keras.tensor)
  : K keras.tensor :=
  match p with
  | [] => kret f
  | c :: p =>
      kbind (deref c) (λ ly,
      kbind (make_layers (Layer.make_keras_layers ly)) (λ ks,
      kbind (apply_layers ks f) (λ f,
      kbind (keras_call (keras.Model (One input) (One f))) (λ m,
      kbind (set_layer_model c m) (λ _,
      along_chain input p f)))))
  end.

(** The loop [for layer in self.layers] of [compile], over the layers that
    are still to come. *)
Fixpoint compile_layers (fuel : nat) (layers : list loc)
    (input_layers output_layers : list keras.tensor)
  : K (list keras.tensor * list keras.tensor) :=
  match layers with
  | [] => kret (input_layers, output_layers)
  | l :: layers =>
      kbind (deref l) (λ ly,
      if String.eqb (Layer.kind ly) "input" then
        kbind (keras_call (keras.Input (Layer.shape ly))) (λ f,
        let input_layers := input_layers ++ [f] in
        kbind (chain_of fuel l) (λ p,
        kbind (along_chain f p f) (λ f,
        compile_layers fuel layers input_layers (output_layers ++ [f]))))
      else compile_layers fuel layers input_layers output_layers)
  end.

(** [if len(xs) == 1: xs = xs[0]] *)
Definition unwrap_single (xs : list keras.tensor) : tensors keras.tensor :=
  match xs with
  | [x] => One x
  | _ => Many xs
  end.

Definition compile (fuel : nat) (kwargs : keras.kwargs) : K unit :=
  λ s,
    kbind (compile_layers fuel (layers (self (objects s))) [] []) (λ io,
    kbind (keras_call
             (keras.Model (unwrap_single io.1) (unwrap_single io.2))) (λ m,
    kbind (set_network_model m) (λ _,
    keras_call (keras.compile m kwargs)))) s.

(** [Layer._output], on the layer at [self'] *)
Definition _output (self' : loc) (input : keras.sample) : K keras.prediction :=
  λ s, match layer_model s !! self' with
       | Some m => keras_call (keras.predict m input) s
       | None => kraise (AttributeError "model") s
       end.

Definition propagate (input : keras.sample) : K keras.prediction :=
  λ s, match network_model s with
       | Some m => keras_call (keras.predict m input) s
       | None => kraise (AttributeError "model") s
       end.

Definition propagate_to (layer_name : string) (input : keras.sample)
  : K keras.prediction :=
  λ s, match layer_dict (self (objects s)) !! layer_name with
       | None => kraise (UnknownLayer layer_name) s
       | Some _ =>
           kbind (method (__getitem__ layer_name)) (λ layer,
           match layer with
           | Some l => _output l input
           | None => kraise (AttributeError "_output")
           end) s
       end.

End with_numpy.
End Network.

(** ** Paths in the connection graph *)

(** [outgoing_connections[0]] of the layer at [l], when there is one *)
Definition first_outgoing (h : gmap loc Layer.t) (l : loc) : option loc :=
  ly ← h !! l; head (Layer.outgoing_connections ly).

(** The layer reached from [l] after [n] steps along first outgoing
    connections. *)
Fixpoint follow (h : gmap loc Layer.t) (l : loc) (n : nat) : option loc :=
  match n with
  | O => Some l
  | S n => next ← first_outgoing h l; follow h next n
  end.

(** Every reference held by a layer of the heap points into the heap. *)
Definition closed (h : gmap loc Layer.t) : Prop :=
  map_Forall
    (λ _ ly, Forall (λ x, is_Some (h !! x))
               (Layer.incoming_connections ly ++ Layer.outgoing_connections ly))
    h.

#[global] Instance closed_dec h : Decision (closed h).
Proof. unfold closed. apply _. Defined.

(** The first-branch path from [l] never comes back to a layer. *)
Definition never_revisits (h : gmap loc Layer.t) (l : loc) : Prop :=
  ∀ i j x, i < j → follow h l i = Some x → follow h l j ≠ Some x.

(** ** Quantities the properties speak of *)

(** The product of the dimensions of a shape. *)
Definition product (dims : list Z) : Z := foldr Z.mul 1%Z dims.

Definition vshape_product (v : vshape_val) : Z :=
  match v with
  | VInt n => n
  | VTuple dims => product dims
  end.

(** The arguments that [split_dataset] accepts for a dataset of [n] items. *)
Definition valid_split (n : Z) (s : pyval) : Prop :=
  match s with
  | PyFloat x => PrimFloat.leb 0 x = true ∧ PrimFloat.leb x 1 = true
  | PyInt z => (0 ≤ z ≤ n)%Z
  | _ => False
  end.

Section states.
Context `{np.Kernel}.

(** The slices that [split_dataset] assigns once [self.split] is set. *)
Definition assign_partitions (a b : np.ndarray) (k : Z) (n : Network.t)
  : Network.t :=
  Network.set_test_labels (np.slice_from b k)
    (Network.set_train_labels (np.slice_to b k)
       (Network.set_test_inputs (np.slice_from a k)
          (Network.set_train_inputs (np.slice_to a k)
             (Network.set_split k n)))).

(** The state that a successful [load_dataset] leaves. *)
Definition loaded (a b : np.ndarray) (lo hi : np.scalar) (n : Network.t)
  : Network.t :=
  assign_partitions a b (Z.of_nat (np.len a))
    (Network.set_inputs_range (lo, hi)
       (Network.set_dataset_size (Z.of_nat (np.len a))
          (Network.set_labels b (Network.set_inputs a n)))).

(** The inputs that the range checks of [rescale_inputs] look at. *)
Definition converted (new_dtype : option np.dtype) (a : np.ndarray) : np.ndarray :=
  match new_dtype with
  | Some d => np.astype d a
  | None => a
  end.

End states.

(** The dimensions that a shape or vshape argument denotes. *)
Definition dims_of (shape : pyval) : list Z :=
  match shape with
  | PyInt n => [n]
  | PyTuple items => int_items items
  | _ => []
  end.

(** [isinstance(name, str) and len(name) > 0] *)
Definition nonempty_str (v : pyval) : Prop := ∃ s, v = PyStr s ∧ s ≠ "".

(** A layer with one more outgoing, respectively incoming, connection. *)
Definition add_outgoing (ly : Layer.t) (target : loc) : Layer.t :=
  Layer.mk (Layer.name ly) (Layer.params ly) (Layer.shape ly) (Layer.size ly)
    (Layer.vshape ly) (Layer.activation ly) (Layer.dropout ly)
    (Layer.incoming_connections ly) (Layer.outgoing_connections ly ++ [target]).

Definition add_incoming (ly : Layer.t) (source : loc) : Layer.t :=
  Layer.mk (Layer.name ly) (Layer.params ly) (Layer.shape ly) (Layer.size ly)
    (Layer.vshape ly) (Layer.activation ly) (Layer.dropout ly)
    (Layer.incoming_connections ly ++ [source]) (Layer.outgoing_connections ly).

(** What a call of [connect] that found the layers [from_layer] and
    [to_layer] makes of the layer at [x]; one layer can be both. *)
Definition connected (from_layer to_layer : loc) (x : loc) (ly : Layer.t)
  : Layer.t :=
  let ly := if decide (x = from_layer) then add_outgoing ly to_layer else ly in
  if decide (x = to_layer) then add_incoming ly from_layer else ly.

(** How often [a] lists [b] among its outgoing connections, and how often
    [b] lists [a] among its incoming ones. *)
Definition out_links (h : gmap loc Layer.t) (a b : loc) : nat :=
  match h !! a with
  | Some ly => length (filter (λ x, x = b) (Layer.outgoing_connections ly))
  | None => 0
  end.

Definition in_links (h : gmap loc Layer.t) (a b : loc) : nat :=
  match h !! b with
  | Some ly => length (filter (λ x, x = a) (Layer.incoming_connections ly))
  | None => 0
  end.

(** Every connection is recorded at both of its ends. *)
Definition paired (h : gmap loc Layer.t) : Prop :=
  ∀ a b, out_links h a b = in_links h a b.

(** The layers that [compile] walks over: the layers of the chains of the
    'input' layers among [layers]. *)
Definition on_input_chain (h : gmap loc Layer.t) (layers : list loc) (x : loc)
  : Prop :=
  ∃ l ly fuel p, l ∈ layers ∧ h !! l = Some ly ∧ Layer.kind ly = "input"
                 ∧ Layer.chain fuel h l = Some p ∧ x ∈ p.

Section sessions.
Context `{np.Kernel} `{keras.Backend}.

(** From [s] to [s'] only models were assigned, to layers in [P] at most,
    and none was removed. *)
Definition assigns_within (P : loc → Prop) (s s' : Network.session) : Prop :=
  Network.objects s' = Network.objects s
  ∧ Network.network_model s' = Network.network_model s
  ∧ (∀ x, ¬ P x → Network.layer_model s' !! x = Network.layer_model s !! x)
  ∧ (∀ x, is_Some (Network.layer_model s !! x) →
          is_Some (Network.layer_model s' !! x)).

(** The outcome is not an exception of this module. *)
Definition keras_only {A} (r : Network.failure + A) : Prop :=
  ∀ e, r = inl e → ∃ ke, e = Network.Keras ke.

End sessions.

(** ** A numpy kernel with the element types int64 and float64

    Used to run the methods on concrete arrays. *)

Module np64.

Inductive dtype := int64 | float64.

Definition to_float (x : number) : float :=
  match x with
  | NInt z => SF2Prim (binary_normalize prec emax z 0 false)
  | NFloat f => f
  end.

(** two's complement wrap-around of int64 arithmetic *)
Definition wrap (z : Z) : Z := ((z + 2 ^ 63) mod 2 ^ 64 - 2 ^ 63)%Z.

Definition cast (from to : dtype) (x : number) : number :=
  match to, x with
  | float64, _ => NFloat (to_float x)
  | int64, NInt z => NInt (wrap z)
  | int64, NFloat f =>
      match int_of_float f with
      | inr z => if ((- 2 ^ 63 <=? z) && (z <? 2 ^ 63))%Z then NInt z
                 else NInt (- 2 ^ 63)
      | inl _ => NInt (- 2 ^ 63)
      end
  end.

Definition minimum (x y : number) : number :=
  match x, y with
  | NInt a, NInt b => NInt (Z.min a b)
  | _, _ =>
      let a := to_float x in
      let b := to_float y in
      if PrimFloat.is_nan a then NFloat a
      else if PrimFloat.is_nan b then NFloat b
      else if PrimFloat.ltb b a then NFloat b else NFloat a
  end.

Definition maximum (x y : number) : number :=
  match x, y with
  | NInt a, NInt b => NInt (Z.max a b)
  | _, _ =>
      let a := to_float x in
      let b := to_float y in
      if PrimFloat.is_nan a then NFloat a
      else if PrimFloat.is_nan b then NFloat b
      else if PrimFloat.ltb a b then NFloat b else NFloat a
  end.

Definition less (x y : number) : bool :=
  match x, y with
  | NInt a, NInt b => (a <? b)%Z
  | _, _ => PrimFloat.ltb (to_float x) (to_float y)
  end.

Definition less_equal (x y : number) : bool :=
  match x, y with
  | NInt a, NInt b => (a <=? b)%Z
  | _, _ => PrimFloat.leb (to_float x) (to_float y)
  end.

Definition arith (op : binop) (d : dtype) (x y : number) : number :=
  match op, x, y with
  | Add, NInt a, NInt b => NInt (wrap (a + b))
  | Sub, NInt a, NInt b => NInt (wrap (a - b))
  | Mul, NInt a, NInt b => NInt (wrap (a * b))
  | Add, _, _ => NFloat (PrimFloat.add (to_float x) (to_float y))
  | Sub, _, _ => NFloat (PrimFloat.sub (to_float x) (to_float y))
  | Mul, _, _ => NFloat (PrimFloat.mul (to_float x) (to_float y))
  | TrueDiv, _, _ => NFloat (PrimFloat.div (to_float x) (to_float y))
  end.

Definition result_type (op : binop) (d : dtype) (y : number) : dtype :=
  match op, d, y with
  | TrueDiv, _, _ => float64
  | _, int64, NInt _ => int64
  | _, _, _ => float64
  end.

Definition py_sub (x y : number) : number :=
  match x, y with
  | NInt a, NInt b => NInt (a - b)
  | _, _ => NFloat (PrimFloat.sub (to_float x) (to_float y))
  end.

#[global] Instance kernel : np.Kernel := {|
  np.scalar := number;
  np.dtype := dtype;
  np.cast := cast;
  np.minimum := minimum;
  np.maximum := maximum;
  np.less := less;
  np.less_equal := less_equal;
  np.arith := arith;
  np.result_type := result_type;
  np.py_sub := py_sub
|}.

End np64.

(** ** Concrete networks and datasets *)

(** ** A Keras that builds terms

    Used to run [compile] on concrete networks: tensors are the terms of the
    calls that made them, every object is numbered in the order of its
    construction, and no call raises. *)

Module symbolic.

Inductive tensor :=
  | Placeholder (id : nat) (shape : list Z)
  | Apply (layer : nat * keras_layer) (x : tensor).

Record model := mk_model {
  model_inputs : tensors tensor;
  model_outputs : tensors tensor
}.

Definition fresh {A} (f : nat → A) : nat → (Empty_set + A) * nat :=
  λ n, (inr (f n), S n).

Definition pure {A} (a : A) : nat → (Empty_set + A) * nat := λ n, (inr a, n).

#[global] Instance backend : keras.Backend := {|
  keras.state := nat;
  keras.layer := nat * keras_layer;
  keras.tensor := tensor;
  keras.model := model;
  keras.error := Empty_set;
  keras.kwargs := unit;
  keras.sample := list number;
  keras.prediction := model * list number;
  keras.Input := λ shape, fresh (λ n, Placeholder n shape);
  keras.make := λ k, fresh (λ n, (n, k));
  keras.call := λ k x, pure (Apply k x);
  keras.Model := λ ins outs, pure (mk_model ins outs);
  keras.compile := λ _ _, pure tt;
  keras.predict := λ m x, pure (m, x)
|}.

End symbolic.

Module example.

(** The layer objects built by a list of constructor calls, at the
    locations 0, 1, ... in the order of the calls. *)
Definition heap_of (calls : list (exn + Layer.t)) : gmap loc Layer.t :=
  list_to_map
    (omap (λ p : nat * (exn + Layer.t),
             match p.2 with
             | inr ly => Some (p.1, ly)
             | inl _ => None
             end)
          (imap pair calls)).

Definition network (h : gmap loc Layer.t) (layers : list loc)
    (disk : gmap string (gmap string np.ndarray)) : Network.world :=
  Network.mk_world h (Network.__init__ h layers) disk.

(** The state after a method call. *)
Definition after {A} (m : Network.M A) (w : Network.world) : Network.world :=
  (m w).2.

(** The dataset of the module: the four inputs of XOR and their targets. *)
Definition XOR_inputs : np.ndarray :=
  np.array np64.float64
    [[NFloat 0; NFloat 0]; [NFloat 0; NFloat 1];
     [NFloat 1; NFloat 0]; [NFloat 1; NFloat 1]].
Definition XOR_targets : np.ndarray :=
  np.array np64.float64 [[NFloat 0]; [NFloat 1]; [NFloat 1]; [NFloat 0]].

Definition xor_disk : gmap string (gmap string np.ndarray) :=
  {[ "xor.npz" := {[ "data" := XOR_inputs; "labels" := XOR_targets ]} ]}.

(** The network of the module, lines 291-298. *)
Definition net_layers : gmap loc Layer.t :=
  heap_of
    [Layer.__init__ (PyStr "input1") (PyInt 2) ∅;
     Layer.__init__ (PyStr "hidden") (PyInt 2)
       {[ "activation" := PyStr "sigmoid" ]};
     Layer.__init__ (PyStr "output1") (PyInt 1)
       {[ "activation" := PyStr "sigmoid" ]}].

Definition net0 : Network.world := network net_layers [0; 1; 2] xor_disk.

Definition net : Network.world :=
  after (Network.connect "hidden" "output1")
    (after (Network.connect "input1" "hidden") net0).

(** The second input layer of the network that the module leaves commented
    out, and its first one with a display shape of 8 by 8. *)
Definition input2 : exn + Layer.t :=
  Layer.__init__ (PyStr "input2") (PyTuple [PyInt 2; PyInt 2; PyInt 2])
    {[ "activation" := PyStr "relu" ]}.
Definition input1_8x8 : exn + Layer.t :=
  Layer.__init__ (PyStr "input1") (PyInt 64)
    {[ "vshape" := PyTuple [PyInt 8; PyInt 8] ]}.

Definition input2_layer : Layer.t :=
  Layer.mk "input2" {[ "activation" := PyStr "relu" ]} [2; 2; 2]%Z 8
    (VTuple [8%Z]) (ActName "relu") (NInt 0) [] [].
Definition input1_8x8_layer : Layer.t :=
  Layer.mk "input1" {[ "vshape" := PyTuple [PyInt 8; PyInt 8] ]} [64%Z] 64
    (VTuple [8; 8]%Z) (ActName "linear") (NInt 0) [] [].

(** An input layer with a dropout rate. *)
Definition dropout_net : Network.world :=
  after (Network.connect "input1" "output1")
    (network
       (heap_of
          [Layer.__init__ (PyStr "input1") (PyInt 2)
             {[ "dropout" := PyFloat 0.5 ]};
           Layer.__init__ (PyStr "output1") (PyInt 1) ∅])
       [0; 1] ∅).

(** A layer with two outgoing connections. *)
Definition fork_net : Network.world :=
  after (Network.connect "a" "c")
    (after (Network.connect "a" "b")
       (network
          (heap_of
             [Layer.__init__ (PyStr "a") (PyInt 1) ∅;
              Layer.__init__ (PyStr "b") (PyInt 1) ∅;
              Layer.__init__ (PyStr "c") (PyInt 1) ∅])
          [0; 1; 2] ∅)).

Definition fork_a : Layer.t :=
  Layer.mk "a" ∅ [1%Z] 1 (VTuple [1%Z]) (ActName "linear") (NInt 0) [] [1; 2].

(** A layer connected to itself. *)
Definition loop0 : Network.world :=
  network (heap_of [Layer.__init__ (PyStr "a") (PyInt 1) ∅]) [0] ∅.
Definition loop_net : Network.world :=
  after (Network.connect "a" "a") loop0.

(** The three layers before and after the first connection of [fork_net]. *)
Definition fork0 : Network.world :=
  network
    (heap_of
       [Layer.__init__ (PyStr "a") (PyInt 1) ∅;
        Layer.__init__ (PyStr "b") (PyInt 1) ∅;
        Layer.__init__ (PyStr "c") (PyInt 1) ∅])
    [0; 1; 2] ∅.
Definition fork1 : Network.world := after (Network.connect "a" "b") fork0.

(** The network of the module after its first connection. *)
Definition net1 : Network.world :=
  after (Network.connect "input1" "hidden") net0.

(** The network of the module with the XOR dataset loaded. *)
Definition xor_net : Network.world :=
  after (Network.load_dataset "xor.npz" true) net.

(** The network of the module over an archive that holds data only. *)
Definition data_only_net : Network.world :=
  network net_layers [0; 1; 2] {[ "half.npz" := {[ "data" := XOR_inputs ]} ]}.

(** A network holding the integer inputs 0 and 255. *)
Definition bytes_net : Network.world :=
  after (Network.setattr Network.set_inputs
           (np.array np64.int64 [[NInt 0; NInt 255]]))
    (after (Network.setattr Network.set_inputs_range (NInt 0, NInt 255))
       net0).

(** Sessions in which nothing has been compiled. *)
Definition session_of (w : Network.world) : Network.session :=
  Network.mk_session w 0 ∅ None.

Definition compiled (fuel : nat) (w : Network.world) : Network.session :=
  match Network.compile fuel tt (session_of w) with
  | Some (_, s) => s
  | None => session_of w
  end.

End example.

(** * Properties *)

(** ** Layer construction *)

Lemma bind_exn_inr {A B} (m : exn + A) (k : A → exn + B) b :
  bind_exn m k = inr b → ∃ a, m = inr a ∧ k a = inr b.
Proof. destruct m as [e|a]; simpl; [discriminate | eauto]. Qed.

Lemma foldl_mul_product (x : Z) (xs : list Z) :
  foldl Z.mul x xs = (x * product xs)%Z.
Proof.
  revert x. induction xs as [|y ys IH]; intros x; simpl.
  - lia.
  - rewrite IH. unfold product. simpl. lia.
Qed.

Lemma reduce_mul_product (x : Z) (xs : list Z) :
  reduce Z.mul (x :: xs) = Some (product (x :: xs)).
Proof. simpl. by rewrite foldl_mul_product. Qed.

(** The items of a tuple of positive ints are exactly its integers. *)
Lemma positive_int_items (items : list pyval) :
  all is_positive_int items = true →
  PyInt <$> int_items items = items ∧ Forall (λ n, 0 < n)%Z (int_items items).
Proof.
  unfold all, int_items. induction items as [|v vs IH]; simpl.
  - by split; [|constructor].
  - intros [Hv Hvs]%andb_prop. destruct (IH Hvs) as [IH1 IH2].
    destruct v as [|z| | | | |]; try discriminate. csimpl in *.
    apply Z.ltb_lt in Hv.
    split; [by f_equal | by constructor].
Qed.

Lemma valid_shape_items (items : list pyval) :
  valid_shape (PyTuple items) = true →
  PyInt <$> int_items items = items
  ∧ Forall (λ n, 0 < n)%Z (int_items items)
  ∧ 2 ≤ length items.
Proof.
  simpl. intros [Hlen Hall]%andb_prop.
  destruct (positive_int_items _ Hall) as [? ?].
  apply Nat.ltb_lt in Hlen. repeat split; [done | done | lia].
Qed.

(** What a successful construction went through. *)
Lemma init_inv name shape params ly :
  Layer.__init__ name shape params = inr ly →
  ∃ s sh vs act dr,
    name = PyStr s ∧ s ≠ "" ∧ valid_shape shape = true
    ∧ Layer.init_shape shape = inr sh
    ∧ Layer.init_vshape params sh.1 sh.2 = inr vs
    ∧ Layer.init_activation params = inr act
    ∧ Layer.init_dropout params = inr dr
    ∧ ly = Layer.mk s params sh.1 sh.2 vs act dr [] [].
Proof.
  unfold Layer.__init__. destruct name as [| | |s| | |]; try discriminate.
  destruct (0 <? String.length s)%nat eqn:Hs; simpl; [|discriminate].
  destruct (valid_shape shape) eqn:Hv; simpl; [|discriminate].
  intros (sh & Hsh & H)%bind_exn_inr.
  apply bind_exn_inr in H as (vs & Hvs & H).
  apply bind_exn_inr in H as (act & Hact & H).
  apply bind_exn_inr in H as (dr & Hdr & H).
  exists s, sh, vs, act, dr. repeat split; try done.
  - intros ->. discriminate.
  - congruence.
Qed.

Lemma init_shape_spec shape sh :
  valid_shape shape = true → Layer.init_shape shape = inr sh →
  sh.2 = product sh.1
  ∧ Forall (λ n, 0 < n)%Z sh.1
  ∧ match shape with
    | PyInt n => sh = ([n], n)
    | PyTuple items => PyInt <$> sh.1 = items ∧ 2 ≤ length items
    | _ => False
    end.
Proof.
  destruct shape as [|n| | |items| |]; try discriminate.
  - simpl. intros Hn [= <-]. simpl. apply Z.ltb_lt in Hn.
    repeat split; [lia | by repeat constructor].
  - intros Hv. destruct (valid_shape_items _ Hv) as (Hitems & Hpos & Hlen).
    unfold Layer.init_shape.
    destruct (int_items items) as [|x xs] eqn:Hints.
    + simpl. discriminate.
    + rewrite reduce_mul_product. intros [= <-]. simpl. by repeat split.
Qed.

Lemma init_vshape_spec params sh sz vs :
  sz = product sh → Layer.init_vshape params sh sz = inr vs →
  vshape_product vs = sz
  ∧ match params !! "vshape" with
    | Some (PyInt n) => vs = VInt n
    | Some (PyTuple items) =>
        ∃ a b, items = [PyInt a; PyInt b] ∧ vs = VTuple [a; b]
    | Some _ => False
    | None => vs = if (2 <? length sh)%nat then VTuple [sz] else VTuple sh
    end.
Proof.
  intros Hsz. unfold Layer.init_vshape.
  destruct (params !! "vshape") as [arg|].
  - destruct (valid_vshape arg) eqn:Hv; simpl; [|discriminate].
    apply andb_prop in Hv as [Hshape Hdim].
    destruct arg as [|n| | |items| |]; try discriminate.
    + destruct (n =? sz)%Z eqn:Hn; simpl; [|discriminate].
      intros [= <-]. apply Z.eqb_eq in Hn. by split.
    + destruct (valid_shape_items _ Hshape) as (Hitems & _ & _).
      apply Nat.eqb_eq in Hdim.
      destruct (int_items items) as [|a [|b [|c rest]]] eqn:Hints;
        rewrite <- Hitems in Hdim; try discriminate.
      destruct (a * b =? sz)%Z eqn:Hab; simpl; [|discriminate].
      intros [= <-]. apply Z.eqb_eq in Hab. split.
      * simpl. unfold product. simpl. lia.
      * exists a, b. by rewrite <- Hitems.
  - destruct (2 <? length sh)%nat; intros [= <-]; split; try done.
    simpl. unfold product. simpl. lia.
Qed.

(** C6: a constructed layer has [size] equal to the product of the dimensions
    of its [shape], all of them positive; an int shape [n] is stored as the
    one-element shape [(n,)] with size [n], a tuple shape (of two or more
    positive ints) is stored as it is. *)
Theorem layer_size_is_product name shape params ly :
  Layer.__init__ name shape params = inr ly →
  Layer.size ly = product (Layer.shape ly)
  ∧ Forall (λ n, 0 < n)%Z (Layer.shape ly)
  ∧ match shape with
    | PyInt n => Layer.shape ly = [n] ∧ Layer.size ly = n
    | PyTuple items => PyInt <$> Layer.shape ly = items ∧ 2 ≤ length items
    | _ => False
    end.
Proof.
  intros (s & sh & vs & act & dr & _ & _ & Hv & Hsh & _ & _ & _ & ->)%init_inv.
  destruct (init_shape_spec _ _ Hv Hsh) as (Hsize & Hpos & Hcase). simpl.
  repeat split; try done.
  destruct shape; try done. by subst sh.
Qed.

Lemma layer_size_is_product_witness :
  example.input2 = inr example.input2_layer
  ∧ Layer.size example.input2_layer = product (Layer.shape example.input2_layer)
  ∧ PyInt <$> Layer.shape example.input2_layer = [PyInt 2; PyInt 2; PyInt 2].
Proof.
  assert (H : example.input2 = inr example.input2_layer)
    by (vm_compute; reflexivity).
  destruct (layer_size_is_product _ _ _ _ H) as (Hsize & _ & Hshape & _).
  by repeat split.
Defined.

(** C9: the product of the dimensions of the display shape of a constructed
    layer equals its [size], whichever way [vshape] was set: an int argument,
    a pair argument, by default the shape itself when it has at most two
    dimensions, and [(size,)] when it has more. *)
Theorem layer_vshape_product name shape params ly :
  Layer.__init__ name shape params = inr ly →
  vshape_product (Layer.vshape ly) = Layer.size ly
  ∧ match params !! "vshape" with
    | Some (PyInt n) => Layer.vshape ly = VInt n
    | Some (PyTuple items) =>
        ∃ a b, items = [PyInt a; PyInt b] ∧ Layer.vshape ly = VTuple [a; b]
    | Some _ => False
    | None =>
        Layer.vshape ly =
          if (2 <? length (Layer.shape ly))%nat then VTuple [Layer.size ly]
          else VTuple (Layer.shape ly)
    end.
Proof.
  intros (s & sh & vs & act & dr & _ & _ & Hv & Hsh & Hvs & _ & _ & ->)%init_inv.
  destruct (init_shape_spec _ _ Hv Hsh) as (Hsize & _ & _). simpl.
  by apply init_vshape_spec.
Qed.

Lemma layer_vshape_product_witness :
  example.input1_8x8 = inr example.input1_8x8_layer
  ∧ vshape_product (Layer.vshape example.input1_8x8_layer)
    = Layer.size example.input1_8x8_layer.
Proof.
  assert (H : example.input1_8x8 = inr example.input1_8x8_layer)
    by (vm_compute; reflexivity).
  split; [exact H|]. exact (proj1 (layer_vshape_product _ _ _ _ H)).
Defined.

(** The constructor on the arguments of the failure scenarios, and on a
    one-element tuple, which [valid_shape] rejects. *)
Example shape_zero_rejected :
  Layer.__init__ (PyStr "a") (PyInt 0) ∅ = inl (BadShape (PyInt 0)).
Proof. reflexivity. Qed.

Example dropout_above_one_rejected :
  Layer.__init__ (PyStr "a") (PyInt 2) {[ "dropout" := PyFloat 1.5 ]}
  = inl (BadDropout (PyFloat 1.5)).
Proof. vm_compute. reflexivity. Qed.

Example one_element_tuple_rejected :
  Layer.__init__ (PyStr "a") (PyTuple [PyInt 5]) ∅
  = inl (BadShape (PyTuple [PyInt 5])).
Proof. reflexivity. Qed.

Example empty_name_rejected :
  Layer.__init__ (PyStr "") (PyInt 2) ∅ = inl (BadLayerName (PyStr "")).
Proof. reflexivity. Qed.

(** The kinds and the chain of the network of the module. *)
Example kinds_of_net :
  (Layer.kind <$> Network.heap example.net !! 0,
   Layer.kind <$> Network.heap example.net !! 1,
   Layer.kind <$> Network.heap example.net !! 2)
  = (Some "input", Some "hidden", Some "output").
Proof. vm_compute. reflexivity. Qed.

Example chain_of_net :
  Layer.chain 3 (Network.heap example.net) 0 = Some [0; 1; 2].
Proof. vm_compute. reflexivity. Qed.

(** ** Keras layers of a layer *)

(** C3, as the code has it: no dense layer for a layer of kind 'input', one
    dense layer of [size] units with the layer's activation for any other
    kind; in both cases followed by a dropout layer exactly when the
    dropout rate is greater than 0. *)
Theorem make_keras_layers_descriptors (ly : Layer.t) :
  Layer.make_keras_layers ly =
    (if String.eqb (Layer.kind ly) "input" then []
     else [Dense (Layer.size ly) (Layer.activation ly)])
    ++ (if Layer.positive (Layer.dropout ly) then [Dropout (Layer.dropout ly)]
        else []).
Proof.
  unfold Layer.make_keras_layers.
  destruct (Layer.positive (Layer.dropout ly)); [done|].
  by rewrite app_nil_r.
Qed.

(** An input layer with dropout 0.5 yields a dropout layer, not the empty
    list. *)
Lemma input_layer_with_dropout :
  ∃ ly, Network.heap example.dropout_net !! 0 = Some ly
        ∧ Layer.kind ly = "input"
        ∧ Layer.make_keras_layers ly = [Dropout (NFloat 0.5)]
        ∧ Layer.make_keras_layers ly ≠ [].
Proof.
  eexists. split; [vm_compute; reflexivity|].
  split; [vm_compute; reflexivity|].
  split; [vm_compute; reflexivity|].
  discriminate.
Qed.

(** ** chain *)

Lemma chain_follow fuel h l p :
  Layer.chain fuel h l = Some p → ∀ i, p !! i = follow h l i.
Proof.
  revert l p. induction fuel as [|fuel IH]; intros l p; [discriminate|].
  simpl. destruct (h !! l) as [ly|] eqn:Hl; simpl; [|discriminate].
  destruct (Layer.outgoing_connections ly) as [|next rest] eqn:Hout.
  - intros [= <-] [|i]; simpl; [done|].
    unfold first_outgoing. rewrite Hl. simpl. by rewrite Hout.
  - destruct (Layer.chain fuel h next) as [p'|] eqn:Hp'; simpl; [|discriminate].
    intros [= <-] [|i]; simpl; [done|].
    unfold first_outgoing. rewrite Hl. simpl. rewrite Hout. simpl.
    by apply IH.
Qed.

Lemma chain_length fuel h l p :
  Layer.chain fuel h l = Some p → 0 < length p ≤ fuel.
Proof.
  revert l p. induction fuel as [|fuel IH]; intros l p; [discriminate|].
  simpl. destruct (h !! l) as [ly|]; simpl; [|discriminate].
  destruct (Layer.outgoing_connections ly) as [|next rest].
  - intros [= <-]. simpl. lia.
  - destruct (Layer.chain fuel h next) as [p'|] eqn:Hp'; simpl; [|discriminate].
    intros [= <-]. simpl. specialize (IH _ _ Hp'). lia.
Qed.

(** A deeper recursion limit does not change the list. *)
Lemma chain_mono fuel fuel' h l p :
  Layer.chain fuel h l = Some p → fuel ≤ fuel' → Layer.chain fuel' h l = Some p.
Proof.
  revert fuel' l p. induction fuel as [|fuel IH]; intros fuel' l p; [discriminate|].
  intros Hp Hle. destruct fuel' as [|fuel']; [lia|].
  simpl in *. destruct (h !! l) as [ly|]; simpl in *; [|discriminate].
  destruct (Layer.outgoing_connections ly) as [|next rest]; [done|].
  destruct (Layer.chain fuel h next) as [p'|] eqn:Hp'; simpl in *; [|discriminate].
  rewrite (IH fuel' next p'); [done | done | lia].
Qed.

(** The recursion is as deep as the list is long. *)
Lemma chain_exact fuel h l p :
  Layer.chain fuel h l = Some p → Layer.chain (length p) h l = Some p.
Proof.
  revert l p. induction fuel as [|fuel IH]; intros l p; [discriminate|].
  simpl. destruct (h !! l) as [ly|] eqn:Hl; simpl; [|discriminate].
  destruct (Layer.outgoing_connections ly) as [|next rest] eqn:Hout.
  - intros [= <-]. simpl. rewrite Hl. simpl. by rewrite Hout.
  - destruct (Layer.chain fuel h next) as [p'|] eqn:Hp'; simpl; [|discriminate].
    intros [= <-]. simpl. rewrite Hl. simpl. rewrite Hout.
    by rewrite (IH _ _ Hp').
Qed.

Lemma chain_below fuel fuel' h l p :
  Layer.chain fuel h l = Some p → fuel' < length p →
  Layer.chain fuel' h l = None.
Proof.
  intros Hp Hlt. destruct (Layer.chain fuel' h l) as [p'|] eqn:Hp'; [|done].
  pose proof (chain_mono _ (fuel `max` fuel') _ _ _ Hp ltac:(lia)) as H1.
  pose proof (chain_mono _ (fuel `max` fuel') _ _ _ Hp' ltac:(lia)) as H2.
  rewrite H1 in H2. injection H2 as ->.
  apply chain_length in Hp'. lia.
Qed.

Lemma follow_add h l i k :
  follow h l (i + k) = x ← follow h l i; follow h x k.
Proof.
  revert l. induction i as [|i IH]; intros l; simpl; [done|].
  destruct (first_outgoing h l) as [next|]; simpl; [apply IH | done].
Qed.

(** The list returned by [chain] ends where the path ends. *)
Lemma chain_path_ends fuel h l p :
  Layer.chain fuel h l = Some p → ∀ i, length p ≤ i → follow h l i = None.
Proof.
  intros Hp i Hi. rewrite <- (chain_follow _ _ _ _ Hp).
  by apply lookup_ge_None.
Qed.

(** [chain] only looks at the first element of each list of outgoing
    connections. *)
Lemma chain_first_only fuel h h' l :
  (∀ x, is_Some (h !! x) ↔ is_Some (h' !! x)) →
  (∀ x, first_outgoing h x = first_outgoing h' x) →
  Layer.chain fuel h l = Layer.chain fuel h' l.
Proof.
  intros Hdom Hfirst. revert l. induction fuel as [|fuel IH]; intros l; [done|].
  simpl. specialize (Hfirst l). specialize (Hdom l). unfold first_outgoing in Hfirst.
  destruct (h !! l) as [ly|], (h' !! l) as [ly'|]; simpl in *.
  - destruct (Layer.outgoing_connections ly), (Layer.outgoing_connections ly');
      simpl in *; try done.
    injection Hfirst as ->. by rewrite IH.
  - destruct Hdom as [Hdom _]. by destruct Hdom.
  - destruct Hdom as [_ Hdom]. by destruct Hdom.
  - done.
Qed.

Lemma chain_terminates_within k h l (V : gset loc) :
  closed h → is_Some (h !! l) →
  size (dom h ∖ V) ≤ k →
  (∀ i x, follow h l i = Some x → x ∉ V) →
  never_revisits h l →
  ∃ p, Layer.chain k h l = Some p.
Proof.
  intros Hclosed. revert l V.
  induction k as [|k IH]; intros l V Hl Hsize Hfresh Hpath.
  - assert (l ∈ dom h ∖ V) as Hin.
    { apply elem_of_difference. split; [by apply elem_of_dom|].
      by apply (Hfresh 0). }
    assert (size (dom h ∖ V) = 0) as Hzero%size_empty_iff by lia.
    set_solver.
  - destruct Hl as [ly Hl]. simpl. rewrite Hl. simpl.
    destruct (Layer.outgoing_connections ly) as [|next rest] eqn:Hout; [eauto|].
    assert (first_outgoing h l = Some next) as Hfirst.
    { unfold first_outgoing. rewrite Hl. simpl. by rewrite Hout. }
    destruct (IH next (V ∪ {[l]})) as [p Hp].
    + pose proof (Hclosed l ly Hl) as Hrefs. simpl in Hrefs.
      rewrite Hout in Hrefs.
      apply Forall_app in Hrefs as [_ Hrefs].
      by apply Forall_cons in Hrefs as [? _].
    + assert (l ∈ dom h ∖ V) as Hin.
      { apply elem_of_difference. split; [apply elem_of_dom; eauto|].
        by apply (Hfresh 0). }
      assert (dom h ∖ (V ∪ {[l]}) = (dom h ∖ V) ∖ {[l]}) as -> by set_solver.
      rewrite size_difference by set_solver. rewrite size_singleton. lia.
    + intros i x Hx.
      assert (follow h l (S i) = Some x) as Hx' by (simpl; by rewrite Hfirst).
      apply not_elem_of_union. split; [by eapply Hfresh|].
      intros ->%elem_of_singleton.
      by apply (Hpath 0 (S i) l); [lia | |].
    + intros i j x Hij Hi Hj.
      apply (Hpath (S i) (S j) x); [lia | |]; simpl; by rewrite Hfirst.
    + rewrite Hp. simpl. eauto.
Qed.

(** On a path that comes back to a layer, [chain] returns at no depth. *)
Lemma chain_diverges_on_cycle fuel h l :
  ¬ never_revisits h l → Layer.chain fuel h l = None.
Proof.
  intros Hcyc. destruct (Layer.chain fuel h l) as [p|] eqn:Hp; [|done].
  exfalso. apply Hcyc. intros i j x Hij Hi Hj.
  pose proof (chain_length _ _ _ _ Hp) as Hlen.
  assert (i < length p) as Hip.
  { destruct (decide (i < length p)); [done|].
    rewrite (chain_path_ends _ _ _ _ Hp i) in Hi; [done | lia]. }
  (* both positions reach the same layers from here on *)
  set (k := length p - 1 - i).
  pose proof (follow_add h l i k) as Ei. rewrite Hi in Ei. simpl in Ei.
  pose proof (follow_add h l j k) as Ej. rewrite Hj in Ej. simpl in Ej.
  rewrite <- Ei in Ej.
  rewrite (chain_path_ends _ _ _ _ Hp (j + k)) in Ej by (unfold k; lia).
  rewrite <- (chain_follow _ _ _ _ Hp) in Ej.
  symmetry in Ej. apply lookup_ge_None in Ej. unfold k in Ej. lia.
Qed.

Lemma chain_returns_acyclic fuel h l p :
  Layer.chain fuel h l = Some p → never_revisits h l.
Proof.
  intros Hp i j x Hij Hi Hj.
  assert (¬ never_revisits h l) as Hcyc by (intros Hnr; by eapply Hnr).
  apply (chain_diverges_on_cycle fuel) in Hcyc. congruence.
Qed.

(** C8: [chain] returns [[self]] for a layer without outgoing connections and
    [[self]] followed by the chain of [outgoing_connections[0]] otherwise; the
    layers of the result are those met along first outgoing connections, and
    the result is the same in any heap that agrees on the first outgoing
    connection of every layer, whatever the later ones are. *)
Theorem chain_first_branch fuel h l ly :
  h !! l = Some ly →
  (Layer.outgoing_connections ly = [] → Layer.chain (S fuel) h l = Some [l])
  ∧ (∀ next rest, Layer.outgoing_connections ly = next :: rest →
       Layer.chain (S fuel) h l = (l ::.) <$> Layer.chain fuel h next)
  ∧ (∀ p, Layer.chain (S fuel) h l = Some p → ∀ i, p !! i = follow h l i)
  ∧ (∀ h', (∀ x, is_Some (h !! x) ↔ is_Some (h' !! x)) →
           (∀ x, first_outgoing h x = first_outgoing h' x) →
           Layer.chain (S fuel) h l = Layer.chain (S fuel) h' l).
Proof.
  intros Hl. repeat split.
  - intros Hout. simpl. rewrite Hl. simpl. by rewrite Hout.
  - intros next rest Hout. simpl. rewrite Hl. simpl. by rewrite Hout.
  - intros p. apply chain_follow.
  - intros h'. apply chain_first_only.
Qed.

Lemma chain_first_branch_witness :
  Network.heap example.fork_net !! 0 = Some example.fork_a
  ∧ Layer.chain 3 (Network.heap example.fork_net) 0
    = (0 ::.) <$> Layer.chain 2 (Network.heap example.fork_net) 1
  ∧ Layer.chain 3 (Network.heap example.fork_net) 0 = Some [0; 1].
Proof.
  assert (H : Network.heap example.fork_net !! 0 = Some example.fork_a)
    by (vm_compute; reflexivity).
  destruct (chain_first_branch 2 _ _ _ H) as (_ & Hcons & _).
  split; [exact H|]. split; [exact (Hcons 1 [2] eq_refl)|].
  vm_compute. reflexivity.
Defined.

(** C10: in a heap whose references all point to layers (which construction
    and [connect] maintain), [chain] returns exactly when the path along first
    outgoing connections never comes back to a layer.  It then returns the
    layers of that path, in order, at every recursion depth from the length
    of the path on, and that length is at most the number of layers.  On a path that revisits a layer it returns at
    no depth; [connect] builds such a path when asked to connect a layer to
    itself. *)
Theorem chain_returns_iff_acyclic :
  (∀ h l, closed h → is_Some (h !! l) →
     (never_revisits h l →
        ∃ p, (∀ fuel, length p ≤ fuel → Layer.chain fuel h l = Some p)
             ∧ (∀ fuel, fuel < length p → Layer.chain fuel h l = None)
             ∧ (∀ i, p !! i = follow h l i)
             ∧ length p ≤ size (dom h))
     ∧ (¬ never_revisits h l → ∀ fuel, Layer.chain fuel h l = None))
  ∧ (∃ w, Network.connect "a" "a" example.loop0 = (inr tt, w)
          ∧ closed (Network.heap w)
          ∧ is_Some (Network.heap w !! 0)
          ∧ ¬ never_revisits (Network.heap w) 0).
Proof.
  split.
  - intros h l Hclosed Hl. split.
    + intros Hpath.
      destruct (chain_terminates_within (size (dom h)) h l ∅) as [p Hp];
        try done.
      { apply subseteq_size. set_solver. }
      exists p. repeat split.
      * intros fuel Hfuel. apply chain_exact in Hp. by eapply chain_mono.
      * intros fuel Hfuel. by eapply chain_below.
      * by eapply chain_follow.
      * by apply chain_length in Hp as [_ ?].
    + intros Hcyc fuel. by apply chain_diverges_on_cycle.
  - exists example.loop_net. split; [reflexivity|].
    split; [apply (bool_decide_unpack _); vm_compute; exact I|].
    split; [vm_compute; eauto|].
    intros Hpath. apply (Hpath 0 1 0); [lia | reflexivity | vm_compute; reflexivity].
Qed.

Lemma chain_returns_iff_acyclic_witness :
  closed (Network.heap example.net)
  ∧ never_revisits (Network.heap example.net) 0
  ∧ ∃ p, Layer.chain 3 (Network.heap example.net) 0 = Some p
         ∧ p !! 2 = follow (Network.heap example.net) 0 2.
Proof.
  assert (closed (Network.heap example.net)) as Hclosed
    by (apply (bool_decide_unpack _); vm_compute; exact I).
  assert (is_Some (Network.heap example.net !! 0)) as Hl
    by (vm_compute; eauto).
  assert (never_revisits (Network.heap example.net) 0) as Hpath
    by (apply (chain_returns_acyclic 3 _ _ [0; 1; 2]); vm_compute; reflexivity).
  destruct (proj1 chain_returns_iff_acyclic _ _ Hclosed Hl) as [Hreturns _].
  destruct (Hreturns Hpath) as (p & Hp & _ & Hfollow & Hsize).
  split; [done|]. split; [done|].
  exists p. split; [|done].
  apply Hp. rewrite size_dom in Hsize. vm_compute in Hsize. exact Hsize.
Defined.

(** ** Looking layers up by name *)

Section lookup.
Context `{np.Kernel}.

Lemma layer_dict_fold_None (h : gmap loc Layer.t) (layers : list loc)
    (d : gmap string loc) (name : string) :
  d !! name = None →
  (∀ l ly, l ∈ layers → h !! l = Some ly → Layer.name ly ≠ name) →
  foldl (λ d l, match h !! l with
                | Some ly => <[Layer.name ly := l]> d
                | None => d
                end) d layers !! name = None.
Proof.
  revert d. induction layers as [|l layers IH]; intros d Hd Hnames; [done|].
  simpl. apply IH.
  - destruct (h !! l) as [ly|] eqn:Hl; [|done].
    rewrite lookup_insert_ne; [done|].
    apply (Hnames l ly); [by left | done].
  - intros l' ly' Hin. apply Hnames. by right.
Qed.

(** The dictionary built by the constructor has no entry for a string that
    is not the name of one of the layers. *)
Lemma init_layer_dict_None (h : gmap loc Layer.t) (layers : list loc) name :
  (∀ l ly, l ∈ layers → h !! l = Some ly → Layer.name ly ≠ name) →
  Network.layer_dict (Network.__init__ h layers) !! name = None.
Proof. intros Hnames. simpl. by apply layer_dict_fold_None. Qed.

(** C4, as the code has it: indexing a network with a string that is not the
    name of one of its layers returns [None]; no exception is raised and
    nothing changes. *)
Theorem getitem_unknown_returns_None h layers (w : Network.world) name :
  Network.layer_dict (Network.self w)
    = Network.layer_dict (Network.__init__ h layers) →
  (∀ l ly, l ∈ layers → h !! l = Some ly → Layer.name ly ≠ name) →
  Network.__getitem__ name w = (inr None, w).
Proof.
  intros Hdict Hnames. unfold Network.__getitem__.
  by rewrite Hdict, init_layer_dict_None.
Qed.

(** C5: [connect] with a name that is not in [layer_dict] raises the
    'unknown layer' exception, for the first of the two names that is
    missing, and leaves the whole state as it was, the connection lists of
    every layer included. *)
Theorem connect_unknown_layer (w : Network.world) from_layer_name to_layer_name :
  Network.layer_dict (Network.self w) !! from_layer_name = None
  ∨ Network.layer_dict (Network.self w) !! to_layer_name = None →
  Network.connect from_layer_name to_layer_name w =
    (inl (UnknownLayer
            (match Network.layer_dict (Network.self w) !! from_layer_name with
             | None => from_layer_name
             | Some _ => to_layer_name
             end)), w).
Proof.
  intros Hmissing. unfold Network.connect.
  destruct (Network.layer_dict (Network.self w) !! from_layer_name); [|done].
  destruct Hmissing as [|Hto]; [done|]. by rewrite Hto.
Qed.

(** *** The heap stays closed

    Freshly constructed layers hold no reference, and [connect] only appends
    layers found in [layer_dict]: the references of the layers of a network
    always point to layers. *)

Lemma init_unconnected name shape params ly :
  Layer.__init__ name shape params = inr ly →
  Layer.incoming_connections ly = [] ∧ Layer.outgoing_connections ly = [].
Proof.
  by intros (? & ? & ? & ? & ? & _ & _ & _ & _ & _ & _ & _ & ->)%init_inv.
Qed.

Lemma alter_is_Some (h : gmap loc Layer.t) f l x :
  is_Some (h !! x) → is_Some (alter f l h !! x).
Proof.
  intros Hx. rewrite lookup_alter. case_decide; [subst|done].
  by apply fmap_is_Some.
Qed.

Lemma closed_alter (h : gmap loc Layer.t) f l :
  closed h →
  (∀ ly, h !! l = Some ly →
     Forall (λ x, is_Some (h !! x))
       (Layer.incoming_connections (f ly) ++ Layer.outgoing_connections (f ly))) →
  closed (alter f l h).
Proof.
  intros Hclosed Hf l' ly'. rewrite lookup_alter. intros Hl'.
  eapply Forall_impl; [|intros x; apply alter_is_Some].
  case_decide as Heq.
  - subst l'. apply fmap_Some in Hl' as (ly & Hl & ->). by apply Hf.
  - by apply (Hclosed l' ly').
Qed.

Lemma connect_closed (w w' : Network.world) from_layer_name to_layer_name r :
  closed (Network.heap w) →
  (∀ name l, Network.layer_dict (Network.self w) !! name = Some l →
             is_Some (Network.heap w !! l)) →
  Network.connect from_layer_name to_layer_name w = (r, w') →
  closed (Network.heap w')
  ∧ Network.self w' = Network.self w
  ∧ ∀ x, is_Some (Network.heap w' !! x) ↔ is_Some (Network.heap w !! x).
Proof.
  intros Hclosed Hdict. unfold Network.connect.
  destruct (Network.layer_dict (Network.self w) !! from_layer_name)
    as [from_layer|] eqn:Hfrom; [|by intros [= <- <-]].
  destruct (Network.layer_dict (Network.self w) !! to_layer_name)
    as [to_layer|] eqn:Hto; [|by intros [= <- <-]].
  pose proof (Hdict _ _ Hfrom) as Hfrom_in.
  pose proof (Hdict _ _ Hto) as Hto_in.
  unfold Network.bind, Network.append_outgoing, Network.append_incoming.
  simpl. intros [= <- <-]. simpl. split; [|split; [done|]].
  - apply closed_alter; [apply closed_alter; [done|]|].
    + intros ly Hly. simpl. rewrite app_assoc.
      apply Forall_app. split; [by apply (Hclosed _ _ Hly)|].
      by repeat constructor.
    + intros ly Hly. simpl. rewrite <- app_assoc. simpl.
      rewrite lookup_alter in Hly.
      assert (closed (alter
                (λ ly, Layer.mk (Layer.name ly) (Layer.params ly)
                         (Layer.shape ly) (Layer.size ly) (Layer.vshape ly)
                         (Layer.activation ly) (Layer.dropout ly)
                         (Layer.incoming_connections ly)
                         (Layer.outgoing_connections ly ++ [to_layer]))
                from_layer (Network.heap w))) as Hclosed1.
      { apply closed_alter; [done|]. intros ly0 Hly0. simpl. rewrite app_assoc.
        apply Forall_app. split; [by apply (Hclosed _ _ Hly0)|].
        by repeat constructor. }
      assert (Forall (λ x, is_Some (alter
                (λ ly, Layer.mk (Layer.name ly) (Layer.params ly)
                         (Layer.shape ly) (Layer.size ly) (Layer.vshape ly)
                         (Layer.activation ly) (Layer.dropout ly)
                         (Layer.incoming_connections ly)
                         (Layer.outgoing_connections ly ++ [to_layer]))
                from_layer (Network.heap w) !! x))
              (Layer.incoming_connections ly ++ Layer.outgoing_connections ly))
        as Hrefs.
      { apply (Hclosed1 to_layer ly). by rewrite lookup_alter. }
      apply Forall_app in Hrefs as [Hin Hout].
      apply Forall_app. split; [done|].
      constructor; [by apply alter_is_Some | done].
  - intros x. rewrite !lookup_alter.
    repeat case_decide; subst; rewrite ?fmap_is_Some; try done.
    all: rewrite ?lookup_alter; repeat case_decide; subst;
      rewrite ?fmap_is_Some; done.
Qed.

End lookup.

(** In the network of the module, [net["missing"]] is [None]. *)
Lemma getitem_missing_is_None :
  Network.layer_dict (Network.self example.net) !! "missing" = None
  ∧ Network.__getitem__ "missing" example.net = (inr None, example.net).
Proof. split; reflexivity. Qed.

Lemma getitem_unknown_returns_None_witness :
  Network.__getitem__ "missing" example.net = (inr None, example.net).
Proof.
  apply (getitem_unknown_returns_None example.net_layers [0; 1; 2]).
  - reflexivity.
  - intros l ly Hl Hly.
    assert (l = 0 ∨ l = 1 ∨ l = 2) as [-> | [-> | ->]] by set_solver;
      vm_compute in Hly; injection Hly as <-; discriminate.
Defined.

(** The scenario of connecting "input1" to a missing layer. *)
Lemma connect_unknown_layer_witness :
  Network.connect "input1" "missing" example.net0
    = (inl (UnknownLayer "missing"), example.net0)
  ∧ Layer.outgoing_connections <$> Network.heap example.net0 !! 0 = Some [].
Proof.
  split; [|reflexivity].
  apply (connect_unknown_layer example.net0 "input1" "missing").
  right. reflexivity.
Defined.

(** ** Python floats: a fraction of a finite float is finite

    [split_dataset] multiplies the dataset size by a float between 0 and 1
    and truncates the product; the product is shown to be finite, so that the
    truncation is defined.  The argument follows the IEEE specification of
    the multiplication: a right shift of the exact product, rounding to
    nearest even, and a test of the resulting exponent. *)

Section floats.
Local Open Scope Z_scope.

Lemma digits2_pos_bounds (m : positive) :
  2 ^ (Z.pos (digits2_pos m) - 1) ≤ Z.pos m < 2 ^ Z.pos (digits2_pos m).
Proof.
  induction m as [m IH|m IH|]; simpl digits2_pos.
  - rewrite Pos2Z.inj_succ.
    replace (Z.succ (Z.pos (digits2_pos m)) - 1) with (Z.succ (Z.pos (digits2_pos m) - 1)) by lia.
    rewrite !Z.pow_succ_r by lia. lia.
  - rewrite Pos2Z.inj_succ.
    replace (Z.succ (Z.pos (digits2_pos m)) - 1) with (Z.succ (Z.pos (digits2_pos m) - 1)) by lia.
    rewrite !Z.pow_succ_r by lia. lia.
  - simpl. lia.
Qed.

Lemma iter_pos_nat {A} (f : A → A) (p : positive) (x : A) :
  SpecFloat.iter_pos f p x = Nat.iter (Pos.to_nat p) f x.
Proof.
  revert x. induction p as [p IH|p IH|]; intros x.
  - change (SpecFloat.iter_pos f p (SpecFloat.iter_pos f p (f x)) = Nat.iter (Pos.to_nat p~1) f x).
    rewrite !IH, Pos2Nat.inj_xI.
    replace (S (2 * Pos.to_nat p))%nat with (Pos.to_nat p + (Pos.to_nat p + 1))%nat by lia.
    rewrite !Nat.iter_add. done.
  - change (SpecFloat.iter_pos f p (SpecFloat.iter_pos f p x) = Nat.iter (Pos.to_nat p~0) f x).
    rewrite !IH, Pos2Nat.inj_xO.
    replace (2 * Pos.to_nat p)%nat with (Pos.to_nat p + Pos.to_nat p)%nat by lia.
    by rewrite Nat.iter_add.
  - done.
Qed.

Lemma shr_1_spec (mrs : shr_record) :
  0 ≤ shr_m mrs →
  shr_m (shr_1 mrs) = shr_m mrs / 2
  ∧ (shr_r (shr_1 mrs) = true → shr_m mrs mod 2 = 1).
Proof.
  destruct mrs as [m r s]. intros Hm.
  destruct m as [|[p|p|]|p]; cbn [shr_1 shr_m shr_r] in *; try lia.
  - done.
  - split; [|intros _].
    + apply (Z.div_unique _ _ _ 1); lia.
    + symmetry. apply (Z.mod_unique _ _ (Z.pos p)); lia.
  - split; [|discriminate].
    apply (Z.div_unique _ _ _ 0); lia.
  - done.
Qed.

Lemma shr_iter_spec (m : Z) (n : nat) :
  0 ≤ m →
  let mrs := Nat.iter n shr_1 (Build_shr_record m false false) in
  shr_m mrs = m / 2 ^ Z.of_nat n
  ∧ (shr_r mrs = true → 2 ^ Z.of_nat n ≤ 2 * (m mod 2 ^ Z.of_nat n)).
Proof.
  intros Hm. induction n as [|n IH]; simpl.
  - split; [by rewrite Z.div_1_r | discriminate].
  - destruct IH as [IHm IHr].
    set (mrs := Nat.iter n shr_1 _) in *.
    assert (0 ≤ shr_m mrs) as Hpos.
    { rewrite IHm. apply Z.div_pos; lia. }
    destruct (shr_1_spec mrs Hpos) as [Hm1 Hr1].
    rewrite Nat2Z.inj_succ, Z.pow_succ_r by lia.
    split.
    + rewrite Hm1, IHm. rewrite Z.div_div by lia. f_equal. lia.
    + intros Hr. specialize (Hr1 Hr). rewrite IHm in Hr1.
      assert (0 < 2 ^ Z.of_nat n) as Hpow by (apply Z.pow_pos_nonneg; lia).
      rewrite (Z.mul_comm 2 (2 ^ Z.of_nat n)).
      rewrite Z.rem_mul_r by lia. rewrite Hr1.
      pose proof (Z.mod_pos_bound m (2 ^ Z.of_nat n) Hpow). lia.
Qed.

Lemma fexp_binary64 (z : Z) : fexp prec emax z = Z.max (z - 53) (-1074).
Proof. reflexivity. Qed.

Lemma shr_spec (m e n : Z) mrs' e' :
  0 ≤ m →
  shr (Build_shr_record m false false) e n = (mrs', e') →
  (n ≤ 0 ∧ mrs' = Build_shr_record m false false ∧ e' = e)
  ∨ (0 < n ∧ e' = e + n ∧ shr_m mrs' = m / 2 ^ n
     ∧ (shr_r mrs' = true → 2 ^ n ≤ 2 * (m mod 2 ^ n))).
Proof.
  intros Hm. destruct n as [|p|p]; simpl; intros [= <- <-].
  - left. repeat split; lia.
  - right. rewrite iter_pos_nat.
    destruct (shr_iter_spec m (Pos.to_nat p) Hm) as [H1 H2].
    rewrite positive_nat_Z in *. repeat split; try done; lia.
  - left. repeat split; lia.
Qed.

Lemma round_nearest_even_spec (mrs : shr_record) :
  let M := round_nearest_even (shr_m mrs) (loc_of_shr_record mrs) in
  M = shr_m mrs ∨ (M = shr_m mrs + 1 ∧ shr_r mrs = true).
Proof.
  destruct mrs as [m [|] [|]]; simpl; auto.
  destruct (Z.even m); auto.
Qed.

Lemma Zdigits2_bound (M k : Z) :
  0 ≤ M → 0 ≤ k → M < 2 ^ k → Zdigits2 M ≤ k.
Proof.
  intros HM Hk Hlt. destruct M as [|p|p]; simpl; [lia | | lia].
  pose proof (digits2_pos_bounds p) as [Hlo _].
  assert (2 ^ (Z.pos (digits2_pos p) - 1) < 2 ^ k) as Hpow by lia.
  apply Z.pow_lt_mono_r_iff in Hpow; lia.
Qed.

(** Rounding a product that does not exceed the largest float stays finite. *)
Lemma binary_round_aux_finite (s : bool) (m : positive) (e : Z) :
  e ≤ 971 →
  Z.pos m ≤ (2 ^ 53 - 1) * 2 ^ (971 - e) →
  match binary_round_aux prec emax s (Z.pos m) e loc_Exact with
  | S754_zero _ | S754_finite _ _ _ => True
  | _ => False
  end.
Proof.
  intros He Hm. unfold binary_round_aux.
  change (2 ^ 53) with 9007199254740992 in Hm.
  set (B := 2 ^ (971 - e)) in *.
  assert (0 < B) as HB by (apply Z.pow_pos_nonneg; lia).
  assert (2 ^ (1024 - e) = 9007199254740992 * B) as Hbig.
  { unfold B. change 9007199254740992 with (2 ^ 53).
    rewrite <- Z.pow_add_r by lia. f_equal. lia. }
  assert (Zdigits2 (Z.pos m) + e ≤ 1024) as Hd.
  { assert (Zdigits2 (Z.pos m) ≤ 1024 - e); [|lia].
    apply Zdigits2_bound; [lia | lia |]. rewrite Hbig. lia. }
  destruct (shr_fexp prec emax (Z.pos m) e loc_Exact) as [mrs' e'] eqn:H1.
  unfold shr_fexp in H1. simpl shr_record_of_loc in H1.
  rewrite fexp_binary64 in H1.
  apply shr_spec in H1; [|lia].
  destruct H1 as [(Hn & -> & ->)|(Hn & -> & Hm' & Hr')].
  - (* no shift: the mantissa is unchanged *)
    simpl round_nearest_even.
    unfold shr_fexp. simpl shr_record_of_loc. rewrite fexp_binary64.
    destruct (shr _ _ _) as [mrs'' e''] eqn:H2.
    apply shr_spec in H2; [|lia].
    destruct H2 as [(_ & -> & ->)|(Hn2 & _)]; [|lia].
    simpl. destruct (e <=? emax - prec) eqn:Hle; [done|].
    apply Z.leb_gt in Hle. unfold emax, prec in Hle. lia.
  - (* one shift, then rounding, then at most one more shift *)
    set (n := Z.max (Zdigits2 (Z.pos m) + e - 53) (-1074) - e) in *.
    set (e1 := e + n) in *.
    assert (e1 ≤ 971) as He1 by (unfold e1, n; lia).
    set (C := 2 ^ (971 - e1)).
    assert (0 < C) as HC by (apply Z.pow_pos_nonneg; lia).
    assert (0 < 2 ^ n) as HN by (apply Z.pow_pos_nonneg; lia).
    assert (B = 2 ^ n * C) as HBC.
    { unfold B, C. rewrite <- Z.pow_add_r by lia. f_equal. unfold e1. lia. }
    set (M := round_nearest_even (shr_m mrs') (loc_of_shr_record mrs')).
    assert (0 ≤ shr_m mrs') as Hpos by (rewrite Hm'; apply Z.div_pos; lia).
    assert (0 ≤ M ∧ M ≤ (9007199254740992 - 1) * C) as [HM0 HM].
    { pose proof (Z.div_mod (Z.pos m) (2 ^ n) ltac:(lia)) as Hdm.
      pose proof (Z.mod_pos_bound (Z.pos m) (2 ^ n) HN) as Hmod.
      destruct (round_nearest_even_spec mrs') as [HMeq|[HMeq Hr]]; fold M in HMeq.
      - split; [lia|]. rewrite HMeq, Hm'. nia.
      - split; [lia|]. specialize (Hr' Hr). rewrite HMeq, Hm'. nia. }
    assert (Zdigits2 M + e1 ≤ 1024) as Hd2.
    { assert (Zdigits2 M ≤ 1024 - e1); [|lia].
      apply Zdigits2_bound; [lia | lia |].
      replace (1024 - e1) with (53 + (971 - e1)) by lia.
      rewrite Z.pow_add_r by lia. fold C.
      change (2 ^ 53) with 9007199254740992. lia. }
    unfold shr_fexp. simpl shr_record_of_loc. rewrite fexp_binary64.
    destruct (shr _ _ _) as [mrs'' e''] eqn:H2.
    apply shr_spec in H2; [|lia].
    destruct H2 as [(_ & -> & ->)|(Hn2 & -> & Hm'' & _)].
    + simpl. destruct M as [|p|p]; [done| |lia].
      destruct (e1 <=? emax - prec) eqn:Hle; [done|].
      apply Z.leb_gt in Hle. unfold emax, prec in Hle. lia.
    + assert (0 ≤ shr_m mrs'') as Hpos''.
      { rewrite Hm''. apply Z.div_pos; [lia|]. apply Z.pow_pos_nonneg; lia. }
      destruct (shr_m mrs'') as [|p|p]; [done| |lia].
      destruct (_ <=? emax - prec) eqn:Hle; [done|].
      apply Z.leb_gt in Hle. unfold emax, prec in Hle. lia.
Qed.

Lemma Prim2SF_zero : Prim2SF 0 = S754_zero false.
Proof. vm_compute. reflexivity. Qed.

Lemma Prim2SF_one : Prim2SF 1 = S754_finite false 4503599627370496 (-52).
Proof. vm_compute. reflexivity. Qed.

Lemma Prim2SF_infinity : Prim2SF infinity = S754_infinity false.
Proof. vm_compute. reflexivity. Qed.

Lemma finite_Prim2SF (f : float) :
  PrimFloat.is_finite f = true →
  match Prim2SF f with
  | S754_zero _ | S754_finite _ _ _ => True
  | _ => False
  end.
Proof.
  unfold PrimFloat.is_finite, PrimFloat.is_nan, PrimFloat.is_infinity.
  rewrite !FloatAxioms.eqb_spec, abs_spec.
  rewrite Prim2SF_infinity.
  destruct (Prim2SF f) as [s|s| |s m e]; try done.
  rewrite orb_true_r. done.
Qed.

Lemma SFleb_unit (sx : spec_float) :
  FloatAxioms.valid_binary sx = true →
  SFleb (S754_zero false) sx = true →
  SFleb sx (S754_finite false 4503599627370496 (-52)) = true →
  match sx with
  | S754_zero _ => True
  | S754_finite s m e => e ≤ -52 ∧ Z.pos m ≤ 2 ^ (- e)
  | _ => False
  end.
Proof.
  destruct sx as [s|[|]| |[|] m e]; try done.
  unfold FloatAxioms.valid_binary, SpecFloat.valid_binary, bounded,
    canonical_mantissa, SFleb, SFcompare.
  intros [Hcanon _]%andb_prop _ Hle.
  apply Z.eqb_eq in Hcanon. rewrite fexp_binary64 in Hcanon.
  pose proof (digits2_pos_bounds m) as [_ Hhi].
  destruct (Z.compare_spec e (-52)) as [He|He|He]; [| |discriminate].
  - split; [lia|]. subst e. change (2 ^ (- (-52))) with 4503599627370496.
    rewrite Pos.compare_cont_spec in Hle. clear Hcanon Hhi.
    destruct (m ?= 4503599627370496)%positive eqn:Hc; [| |discriminate].
    + apply Pos.compare_eq in Hc. rewrite Hc. apply Z.le_refl.
    + apply Pos.compare_lt_iff, Pos2Z.pos_lt_pos in Hc.
      apply Z.lt_le_incl, Hc.
  - split; [lia|].
    assert (2 ^ Z.pos (digits2_pos m) ≤ 2 ^ (- e)); [|lia].
    apply Z.pow_le_mono_r; lia.
Qed.

Lemma unit_Prim2SF (x : float) :
  PrimFloat.leb 0 x = true → PrimFloat.leb x 1 = true →
  match Prim2SF x with
  | S754_zero _ => True
  | S754_finite s m e => e ≤ -52 ∧ Z.pos m ≤ 2 ^ (- e)
  | _ => False
  end.
Proof.
  rewrite !leb_spec, Prim2SF_zero, Prim2SF_one.
  apply SFleb_unit, Prim2SF_valid.
Qed.

Lemma valid_finite_bounds (f : float) s m e :
  Prim2SF f = S754_finite s m e → e ≤ 971 ∧ Z.pos m ≤ 2 ^ 53 - 1.
Proof.
  intros Hf. pose proof (Prim2SF_valid f) as Hvalid. rewrite Hf in Hvalid.
  change (bounded prec emax m e = true) in Hvalid.
  unfold bounded, canonical_mantissa in Hvalid.
  apply andb_prop in Hvalid as [Hcanon He].
  apply Z.eqb_eq in Hcanon. rewrite fexp_binary64 in Hcanon.
  apply Z.leb_le in He. change (emax - prec) with 971 in He.
  split; [done|].
  pose proof (digits2_pos_bounds m) as [_ Hhi].
  assert (2 ^ Z.pos (digits2_pos m) ≤ 2 ^ 53); [|lia].
  apply Z.pow_le_mono_r; lia.
Qed.

(** The product of a finite float and a float between 0 and 1 is finite, so
    [int] applies to it. *)
Lemma mul_unit_finite (f x : float) :
  PrimFloat.is_finite f = true →
  PrimFloat.leb 0 x = true → PrimFloat.leb x 1 = true →
  match Prim2SF (PrimFloat.mul f x) with
  | S754_zero _ | S754_finite _ _ _ => True
  | _ => False
  end.
Proof.
  intros Hf%finite_Prim2SF H0 H1.
  pose proof (unit_Prim2SF x H0 H1) as Hx.
  rewrite mul_spec. unfold SF64mul.
  destruct (Prim2SF f) as [sf|sf| |sf mf ef] eqn:Ef; try done;
    destruct (Prim2SF x) as [sx|sx| |sx mx ex] eqn:Ex; try done.
  destruct Hx as [Hex Hmx].
  destruct (valid_finite_bounds f _ _ _ Ef) as [Hef Hmf].
  unfold SFmul. apply binary_round_aux_finite; [lia|].
  replace (971 - (ef + ex)) with ((971 - ef) + (- ex)) by lia.
  rewrite Z.pow_add_r by lia. rewrite Pos2Z.inj_mul.
  assert (0 < 2 ^ (971 - ef)) by (apply Z.pow_pos_nonneg; lia).
  assert (0 < 2 ^ (- ex)) by (apply Z.pow_pos_nonneg; lia).
  change (2 ^ 53) with 9007199254740992 in *. nia.
Qed.

Lemma int_of_float_returns (f x : float) :
  PrimFloat.is_finite f = true →
  PrimFloat.leb 0 x = true → PrimFloat.leb x 1 = true →
  ∃ k, int_of_float (PrimFloat.mul f x) = inr k.
Proof.
  intros Hf H0 H1. pose proof (mul_unit_finite f x Hf H0 H1) as Hfin.
  unfold int_of_float. destruct (Prim2SF (f * x)); try done; eauto.
Qed.

Lemma Prim2SF_is_finite (f : float) :
  match Prim2SF f with
  | S754_zero _ | S754_finite _ _ _ => True
  | _ => False
  end →
  PrimFloat.is_finite f = true.
Proof.
  unfold PrimFloat.is_finite, PrimFloat.is_nan, PrimFloat.is_infinity.
  rewrite !FloatAxioms.eqb_spec, abs_spec, Prim2SF_infinity.
  destruct (Prim2SF f) as [s|s| |s m e]; try done.
  intros _. unfold SFeqb, SFabs, SFcompare.
  rewrite Z.compare_refl, Pos.compare_cont_refl. by destruct s.
Qed.

Lemma binary_normalize_finite (n : Z) :
  0 ≤ n < 2 ^ 63 →
  match binary_normalize prec emax n 0 false with
  | S754_zero _ | S754_finite _ _ _ => True
  | _ => False
  end.
Proof.
  intros Hn. destruct n as [|m|m]; [done| |lia].
  unfold binary_normalize, binary_round, shl_align.
  rewrite fexp_binary64.
  assert (0 < 2 ^ 908) as Hpow by (by apply Z.pow_pos_nonneg).
  assert (2 ^ 971 = 2 ^ 63 * 2 ^ 908) as H971 by (by rewrite <- Z.pow_add_r).
  change (2 ^ 63) with 9223372036854775808 in *.
  destruct (Z.max (Z.pos (digits2_pos m) + 0 - 53) (-1074) - 0) as [|d|d] eqn:Hd.
  - apply binary_round_aux_finite; [lia|].
    rewrite Z.sub_0_r, H971. change (2 ^ 53) with 9007199254740992. nia.
  - apply binary_round_aux_finite; [lia|].
    rewrite Z.sub_0_r, H971. change (2 ^ 53) with 9007199254740992. nia.
  - fold (shift_pos d m). rewrite Z.sub_0_r in Hd.
    apply binary_round_aux_finite; [lia|].
    rewrite shift_pos_correct, Z.pow_pos_fold, Hd.
    replace (971 - Z.neg d) with (971 + Z.pos d) by lia.
    rewrite Z.pow_add_r, H971 by lia.
    assert (0 < 2 ^ Z.pos d) by (apply Z.pow_pos_nonneg; lia).
    change (2 ^ 53) with 9007199254740992. nia.
Qed.

(** An int below 2^63, as the length of an array is, converts to a float. *)
Lemma float_of_int_returns (n : Z) :
  0 ≤ n < 2 ^ 63 → ∃ f, float_of_int n = inr f ∧ PrimFloat.is_finite f = true.
Proof.
  intros Hn. unfold float_of_int.
  pose proof (of_uint63_spec (Uint63.of_Z n)) as Hspec.
  rewrite Uint63.of_Z_spec, Z.mod_small in Hspec by (change Uint63.wB with (2 ^ 63); lia).
  rewrite <- Hspec, SF2Prim_Prim2SF.
  assert (PrimFloat.is_finite (of_uint63 (Uint63.of_Z n)) = true) as Hfin.
  { apply Prim2SF_is_finite. rewrite Hspec. by apply binary_normalize_finite. }
  rewrite Hfin. eauto.
Qed.
End floats.

(** ** Datasets *)

Section dataset.
Context `{np.Kernel}.

Lemma slices_concatenate (a : np.ndarray) (k : Z) :
  np.concatenate (np.slice_to a k) (np.slice_from a k) = a.
Proof.
  destruct a as [d rs]. unfold np.concatenate, np.slice_to, np.slice_from.
  simpl. by rewrite take_drop.
Qed.

Lemma slice_bound_len (n : nat) : np.slice_bound n (Z.of_nat n) = n.
Proof.
  unfold np.slice_bound. destruct (Z.of_nat n <? 0)%Z eqn:Hneg.
  - apply Z.ltb_lt in Hneg. lia.
  - rewrite Nat2Z.id. lia.
Qed.

Lemma slice_to_len (a : np.ndarray) :
  np.slice_to a (Z.of_nat (np.len a)) = a.
Proof.
  destruct a as [d rs]. unfold np.slice_to, np.len. simpl.
  by rewrite slice_bound_len, firstn_all.
Qed.

Lemma slice_from_len (a : np.ndarray) :
  np.slice_from a (Z.of_nat (np.len a)) = np.array (np.dtype_of a) [].
Proof.
  destruct a as [d rs]. unfold np.slice_from, np.len. simpl.
  by rewrite slice_bound_len, drop_all.
Qed.

Lemma split_dataset_returns (w : Network.world) a b n s verbose :
  Network.inputs (Network.self w) = Some a →
  Network.labels (Network.self w) = Some b →
  Network.dataset_size (Network.self w) = Some n →
  n ≠ 0%Z →
  valid_split n s →
  (∀ x, s = PyFloat x → ∃ f, float_of_int n = inr f) →
  ∃ k, (∀ z, s = PyInt z → k = z)
       ∧ Network.split_dataset s verbose w =
           (inr tt,
            Network.mk_world (Network.heap w)
              (assign_partitions a b k (Network.self w)) (Network.disk w)).
Proof.
  intros Ha Hb Hn Hn0 Hvalid Hfloat.
  unfold Network.split_dataset, Network.bind, Network.getattr.
  rewrite Hn. apply Z.eqb_neq in Hn0. rewrite Hn0.
  destruct s as [|z|x| | | |]; try done.
  - (* an int *)
    simpl in Hvalid. rewrite Hn.
    assert ((0 <=? z)%Z && (z <=? n)%Z = true) as ->.
    { apply andb_true_intro. split; apply Z.leb_le; lia. }
    exists z. split; [by intros ? [= ->]|].
    simpl. by repeat (first [rewrite Ha | rewrite Hb]; simpl).
  - (* a float *)
    destruct Hvalid as [H0 H1]. rewrite H0, H1. simpl. rewrite Hn. simpl.
    destruct (Hfloat x eq_refl) as [f Hf].
    assert (PrimFloat.is_finite f = true) as Hfin.
    { unfold float_of_int in Hf.
      destruct (PrimFloat.is_finite _) eqn:Hfin; [|discriminate].
      by injection Hf as <-. }
    destruct (int_of_float_returns f x Hfin H0 H1) as [k Hk].
    exists k. split; [by intros ? [=]|].
    unfold Network.lift, Network.scaled. rewrite Hf. simpl. rewrite Hk.
    simpl. by repeat (first [rewrite Ha | rewrite Hb]; simpl).
Qed.

(** C7: on a network with a loaded dataset ([dataset_size] positive and, as
    the length of an array, below 2^63), [split_dataset] returns for every
    valid split argument, a float in [0,1] or an int in [0, dataset_size]; it
    leaves [inputs] and [labels] as they are and sets the four partitions so
    that the train partition followed by the test partition is [inputs],
    respectively [labels]; for an int argument the boundary is the
    argument. *)
Theorem split_dataset_round_trip (w : Network.world) a b n s verbose :
  Network.inputs (Network.self w) = Some a →
  Network.labels (Network.self w) = Some b →
  Network.dataset_size (Network.self w) = Some n →
  (0 < n < 2 ^ 63)%Z →
  valid_split n s →
  ∃ w' k train test train_l test_l,
    Network.split_dataset s verbose w = (inr tt, w')
    ∧ Network.inputs (Network.self w') = Some a
    ∧ Network.labels (Network.self w') = Some b
    ∧ Network.split (Network.self w') = Some k
    ∧ (∀ z, s = PyInt z → k = z)
    ∧ Network.train_inputs (Network.self w') = Some train
    ∧ Network.test_inputs (Network.self w') = Some test
    ∧ Network.train_labels (Network.self w') = Some train_l
    ∧ Network.test_labels (Network.self w') = Some test_l
    ∧ train = np.slice_to a k ∧ test = np.slice_from a k
    ∧ train_l = np.slice_to b k ∧ test_l = np.slice_from b k
    ∧ np.concatenate train test = a
    ∧ np.concatenate train_l test_l = b.
Proof.
  intros Ha Hb Hn Hsize Hvalid.
  destruct (split_dataset_returns w a b n s verbose) as (k & Hk & Hrun);
    try done; [lia | |].
  { intros x _. destruct (float_of_int_returns n) as (f & Hf & _); [lia|].
    eauto. }
  eexists _, k, _, _, _, _. split; [exact Hrun|]. simpl.
  repeat split; try done; apply slices_concatenate.
Qed.

Lemma min_max_return (a : np.ndarray) :
  concat (np.rows a) ≠ [] → ∃ lo hi, np.min a = inr lo ∧ np.max a = inr hi.
Proof.
  unfold np.min, np.max. destruct (concat (np.rows a)); [done|].
  simpl. eauto.
Qed.

Lemma load_dataset_returns (w : Network.world) filename verbose f a b lo hi :
  Network.suffix4 filename = ".npz" →
  Network.disk w !! filename = Some f →
  f !! "data" = Some a → f !! "labels" = Some b →
  np.len a = np.len b → np.len a ≠ 0 →
  np.min a = inr lo → np.max a = inr hi →
  Network.load_dataset filename verbose w =
    (inr tt,
     Network.mk_world (Network.heap w) (loaded a b lo hi (Network.self w))
       (Network.disk w)).
Proof.
  intros Hsuffix Hdisk Hdata Hlabels Hlen Hne Hlo Hhi.
  unfold Network.load_dataset. rewrite Hsuffix. simpl negb. cbv iota.
  unfold Network.try_except.
  set (w1 := Network.mk_world (Network.heap w)
               (Network.set_inputs_range (lo, hi)
                  (Network.set_dataset_size (Z.of_nat (np.len a))
                     (Network.set_labels b
                        (Network.set_inputs a (Network.self w)))))
               (Network.disk w)).
  destruct (split_dataset_returns w1 a b (Z.of_nat (np.len a))
              (PyInt (Z.of_nat (np.len a))) false)
    as (k & Hk & Hsplit); try done; [lia | simpl; lia |].
  rewrite (Hk _ eq_refl) in Hsplit.
  unfold Network.bind, Network.np_load, Network.item, Network.getattr,
    Network.setattr, Network.lift, Network.ret, Network.raise.
  apply Nat.eqb_neq in Hne.
  cbn -[Network.split_dataset]. rewrite Hdisk.
  cbn -[Network.split_dataset]. rewrite Hdata.
  cbn -[Network.split_dataset]. rewrite Hlabels.
  cbn -[Network.split_dataset]. rewrite <- Hlen, Nat.eqb_refl.
  cbn -[Network.split_dataset]. rewrite Hne.
  cbn -[Network.split_dataset]. rewrite Hlo.
  cbn -[Network.split_dataset]. rewrite Hhi.
  cbn -[Network.split_dataset].
  fold w1. by rewrite Hsplit.
Qed.

(** C1, as the code has it: a call of [load_dataset] on a path ending in
    '.npz' whose archive holds data and labels of the same non-zero length,
    the data with at least one element, returns; it sets [dataset_size] to
    the number of inputs and [inputs_range] to the minimum and maximum of
    the inputs, and it splits at [dataset_size]: the train partitions are
    the whole of the inputs and of the labels, and the test partitions are
    empty. *)
Theorem load_dataset_sets_attributes (w : Network.world) filename verbose f a b :
  Network.suffix4 filename = ".npz" →
  Network.disk w !! filename = Some f →
  f !! "data" = Some a → f !! "labels" = Some b →
  np.len a = np.len b → np.len a ≠ 0 →
  concat (np.rows a) ≠ [] →
  ∃ w' lo hi,
    Network.load_dataset filename verbose w = (inr tt, w')
    ∧ np.min a = inr lo ∧ np.max a = inr hi
    ∧ Network.inputs (Network.self w') = Some a
    ∧ Network.labels (Network.self w') = Some b
    ∧ Network.dataset_size (Network.self w') = Some (Z.of_nat (np.len a))
    ∧ Network.inputs_range (Network.self w') = Some (lo, hi)
    ∧ Network.split (Network.self w') = Some (Z.of_nat (np.len a))
    ∧ Network.train_inputs (Network.self w') = Some a
    ∧ Network.test_inputs (Network.self w') = Some (np.array (np.dtype_of a) [])
    ∧ Network.train_labels (Network.self w') = Some b
    ∧ Network.test_labels (Network.self w') = Some (np.array (np.dtype_of b) [])
    ∧ Network.heap w' = Network.heap w
    ∧ Network.layers (Network.self w') = Network.layers (Network.self w)
    ∧ Network.layer_dict (Network.self w') = Network.layer_dict (Network.self w).
Proof.
  intros Hsuffix Hdisk Hdata Hlabels Hlen Hne Helems.
  destruct (min_max_return a Helems) as (lo & hi & Hlo & Hhi).
  eexists _, lo, hi. split; [by eapply load_dataset_returns|].
  simpl. rewrite slice_to_len, slice_from_len.
  rewrite Hlen, slice_to_len, slice_from_len.
  by repeat split.
Qed.

(** ** rescale_inputs *)

Lemma array_op_elements op (a : np.ndarray) y :
  length (concat (np.rows (np.array_op op a y))) = length (concat (np.rows a)).
Proof. simpl. by rewrite <- concat_map, length_map. Qed.

Lemma op_array_elements op y (a : np.ndarray) :
  length (concat (np.rows (np.op_array op y a))) = length (concat (np.rows a)).
Proof. simpl. by rewrite <- concat_map, length_map. Qed.

Lemma rescale_elements (a : np.ndarray) old_range new_range :
  length (concat (np.rows (rescale_numpy_array a old_range new_range)))
  = length (concat (np.rows a)).
Proof.
  destruct old_range, new_range. unfold rescale_numpy_array.
  by rewrite op_array_elements, !array_op_elements.
Qed.

Lemma min_returns (a : np.ndarray) :
  0 < length (concat (np.rows a)) → ∃ lo, np.min a = inr lo.
Proof.
  unfold np.min. destruct (concat (np.rows a)); simpl; [lia | eauto].
Qed.

Lemma max_returns (a : np.ndarray) :
  0 < length (concat (np.rows a)) → ∃ hi, np.max a = inr hi.
Proof.
  unfold np.max. destruct (concat (np.rows a)); simpl; [lia | eauto].
Qed.

Lemma min_inr_elements (a : np.ndarray) lo :
  np.min a = inr lo → 0 < length (concat (np.rows a)).
Proof.
  unfold np.min. destruct (concat (np.rows a)); simpl; [discriminate | lia].
Qed.

(** C2, as the code has it: when [rescale_inputs] raises, no value has been
    rescaled and [inputs_range] is what it was, but the conversion to
    [new_dtype] has already been assigned: [inputs] is the former array
    converted to [new_dtype] when one is given, and the former array itself
    only when none is given.  Nothing else changes: the state after the call
    is the state before it with [inputs] replaced by the converted array, so
    that labels, size, split, the four partitions, the layers and the file
    system are exactly what they were.  (The conversion itself is between
    element types of the kernel and returns; the call raises in the range
    checks, or in [np.min] on an array without elements.) *)
Theorem rescale_inputs_failure (w : Network.world) a old_range new_range
    new_dtype e w' :
  Network.inputs (Network.self w) = Some a →
  Network.rescale_inputs old_range new_range new_dtype w = (inl e, w') →
  Network.inputs (Network.self w') = Some (converted new_dtype a)
  ∧ (new_dtype = None → w' = w)
  ∧ Network.inputs_range (Network.self w') = Network.inputs_range (Network.self w)
  ∧ Network.heap w' = Network.heap w
  ∧ Network.disk w' = Network.disk w
  ∧ (e = OldRangeWrong ∨ e = NewRangeWrong ∨ e = ValueError)
  ∧ w' = Network.mk_world (Network.heap w)
           (Network.set_inputs (converted new_dtype a) (Network.self w))
           (Network.disk w)
  ∧ Network.labels (Network.self w') = Network.labels (Network.self w)
  ∧ Network.dataset_size (Network.self w')
    = Network.dataset_size (Network.self w)
  ∧ Network.split (Network.self w') = Network.split (Network.self w)
  ∧ Network.train_inputs (Network.self w')
    = Network.train_inputs (Network.self w)
  ∧ Network.test_inputs (Network.self w')
    = Network.test_inputs (Network.self w)
  ∧ Network.train_labels (Network.self w')
    = Network.train_labels (Network.self w)
  ∧ Network.test_labels (Network.self w')
    = Network.test_labels (Network.self w)
  ∧ Network.layers (Network.self w') = Network.layers (Network.self w)
  ∧ Network.layer_dict (Network.self w')
    = Network.layer_dict (Network.self w).
Proof.
  intros Ha Hrun.
  assert (w = Network.mk_world (Network.heap w)
                (Network.set_inputs a (Network.self w)) (Network.disk w))
    as Hsame.
  { destruct w as [h [] d]. simpl in Ha. by subst. }
  enough (Network.inputs (Network.self w') = Some (converted new_dtype a)
          ∧ (new_dtype = None → w' = w)
          ∧ Network.inputs_range (Network.self w')
            = Network.inputs_range (Network.self w)
          ∧ Network.heap w' = Network.heap w
          ∧ Network.disk w' = Network.disk w
          ∧ (e = OldRangeWrong ∨ e = NewRangeWrong ∨ e = ValueError)
          ∧ w' = Network.mk_world (Network.heap w)
                   (Network.set_inputs (converted new_dtype a) (Network.self w))
                   (Network.disk w))
    as (H1 & H2 & H3 & H4 & H5 & H6 & H7).
  { split; [done|]. split; [done|]. split; [done|]. split; [done|].
    split; [done|]. split; [done|]. split; [done|].
    rewrite H7. simpl. by repeat split. }
  revert Hrun. unfold Network.rescale_inputs.
  destruct old_range as [old_min old_max], new_range as [new_min new_max].
  set (w1 := match new_dtype with
             | Some d => Network.mk_world (Network.heap w)
                           (Network.set_inputs (np.astype d a) (Network.self w))
                           (Network.disk w)
             | None => w
             end).
  assert (Network.inputs (Network.self w1) = Some (converted new_dtype a)
          ∧ (new_dtype = None → w1 = w)
          ∧ Network.inputs_range (Network.self w1)
            = Network.inputs_range (Network.self w)
          ∧ Network.heap w1 = Network.heap w
          ∧ Network.disk w1 = Network.disk w
          ∧ w1 = Network.mk_world (Network.heap w)
                   (Network.set_inputs (converted new_dtype a) (Network.self w))
                   (Network.disk w)) as Hw1.
  { unfold w1. destruct new_dtype; simpl; repeat split; try done. }
  destruct Hw1 as (Ha1 & Hnone & Hrange & Hheap & Hdisk & Hstate).
  unfold Network.bind at 1.
  assert (match new_dtype with
          | Some d =>
              Network.bind (Network.getattr "inputs" Network.inputs)
                (λ a, Network.setattr Network.set_inputs (np.astype d a))
          | None => Network.ret tt
          end w = (inr tt, w1)) as ->.
  { unfold w1. destruct new_dtype; [|done].
    unfold Network.bind, Network.getattr. by rewrite Ha. }
  unfold Network.bind, Network.getattr, Network.lift, Network.ret,
    Network.raise, Network.setattr.
  rewrite Ha1.
  destruct (np.min (converted new_dtype a)) as [e1|lo] eqn:Hlo.
  { intros [= <- <-]. repeat split; try done.
    unfold np.min in Hlo. destruct (reduce _ _); [done|].
    injection Hlo as <-. auto. }
  assert (∀ out_of_range : bool,
            (if out_of_range then Network.raise OldRangeWrong
             else if np.less_equal new_max new_min
                  then Network.raise NewRangeWrong
                  else
                    Network.bind (Network.getattr "inputs" Network.inputs)
                      (λ a, Network.bind
                         (Network.setattr Network.set_inputs
                            (rescale_numpy_array a (old_min, old_max)
                               (new_min, new_max)))
                         (λ _, Network.bind
                            (Network.getattr "inputs" Network.inputs)
                            (λ a, Network.bind (Network.lift (np.min a))
                               (λ lo, Network.bind
                                  (Network.getattr "inputs" Network.inputs)
                                  (λ a, Network.bind (Network.lift (np.max a))
                                     (λ hi, Network.setattr
                                        Network.set_inputs_range (lo, hi))))))))
              w1
            = (inl e, w') →
            w' = w1 ∧ (e = OldRangeWrong ∨ e = NewRangeWrong)) as Htail.
  { intros [|]; [by intros [= <- <-]; auto|].
    destruct (np.less_equal new_max new_min); [by intros [= <- <-]; auto|].
    unfold Network.bind, Network.getattr, Network.lift, Network.setattr.
    rewrite Ha1. cbn -[rescale_numpy_array np.min np.max].
    apply min_inr_elements in Hlo.
    rewrite <- (rescale_elements _ (old_min, old_max) (new_min, new_max)) in Hlo.
    destruct (min_returns _ Hlo) as [lo' ->].
    destruct (max_returns _ Hlo) as [hi' ->].
    discriminate. }
  destruct (np.less lo old_min).
  - intros Hrun. destruct (Htail true Hrun) as [-> He].
    repeat split; try done. tauto.
  - rewrite Ha1.
    destruct (np.max (converted new_dtype a)) as [e2|hi] eqn:Hhi.
    + intros [= <- <-]. repeat split; try done.
      unfold np.max in Hhi. destruct (reduce _ _); [done|].
      injection Hhi as <-. auto.
    + intros Hrun. destruct (Htail (np.less old_max hi) Hrun) as [-> He].
      repeat split; try done. tauto.
Qed.

End dataset.

(** ** The methods on the XOR dataset *)

(** A call is determined by its outcome and the state it leaves. *)
Lemma outcome_after `{np.Kernel} {A} (m : Network.M A) (w : Network.world) r :
  (m w).1 = r → m w = (r, (m w).2).
Proof. destruct (m w). simpl. by intros ->. Qed.

(** [load_dataset] puts all four inputs in the train partition and none in
    the test partition: the split is not 50/50. *)
Lemma load_dataset_keeps_all_for_training :
  ∃ w', Network.load_dataset "xor.npz" true example.net = (inr tt, w')
        ∧ Network.dataset_size (Network.self w') = Some 4%Z
        ∧ Network.split (Network.self w') = Some 4%Z
        ∧ np.len <$> Network.train_inputs (Network.self w') = Some 4
        ∧ np.len <$> Network.test_inputs (Network.self w') = Some 0.
Proof.
  exists (Network.load_dataset "xor.npz" true example.net).2.
  split; [apply outcome_after; reflexivity|].
  repeat split; reflexivity.
Qed.

Lemma load_dataset_sets_attributes_witness :
  ∃ w', Network.load_dataset "xor.npz" true example.net = (inr tt, w')
        ∧ Network.inputs_range (Network.self w') = Some (NFloat 0, NFloat 1)
        ∧ Network.train_inputs (Network.self w') = Some example.XOR_inputs
        ∧ Network.test_inputs (Network.self w')
          = Some (np.array np64.float64 []).
Proof.
  destruct (load_dataset_sets_attributes (H := np64.kernel) example.net
              "xor.npz" true
              {[ "data" := example.XOR_inputs;
                 "labels" := example.XOR_targets ]}
              example.XOR_inputs example.XOR_targets
              eq_refl eq_refl eq_refl eq_refl eq_refl
              ltac:(discriminate) ltac:(discriminate))
    as (w' & lo & hi & Hrun & Hlo & Hhi & _ & _ & _ & Hrange & _ & Htrain
        & Htest & _).
  exists w'. split; [exact Hrun|]. split; [|by split].
  rewrite Hrange.
  assert (inr lo = inr (NFloat 0 : np.scalar)) as [= ->]
    by (rewrite <- Hlo; reflexivity).
  assert (inr hi = inr (NFloat 1 : np.scalar)) as [= ->]
    by (rewrite <- Hhi; reflexivity).
  reflexivity.
Defined.

(** A call of [rescale_inputs] that raises and leaves the inputs converted
    from int64 to float64. *)
Lemma rescale_inputs_failure_converts :
  ∃ w', Network.rescale_inputs (H := np64.kernel)
          (NInt 0, NInt 1) (NInt 0, NInt 255)
          (Some np64.float64) example.bytes_net = (inl OldRangeWrong, w')
        ∧ Network.inputs (Network.self example.bytes_net)
          = Some (np.array np64.int64 [[NInt 0; NInt 255]])
        ∧ Network.inputs (Network.self w')
          = Some (np.array np64.float64 [[NFloat 0; NFloat 255]])
        ∧ Network.inputs (Network.self w')
          ≠ Network.inputs (Network.self example.bytes_net).
Proof.
  eexists. split; [apply outcome_after; reflexivity|].
  split; [reflexivity|]. split; [reflexivity|].
  discriminate.
Qed.

Lemma rescale_inputs_failure_witness :
  ∃ w', Network.rescale_inputs (H := np64.kernel)
          (NInt 0, NInt 1) (NInt 0, NInt 255)
          (Some np64.float64) example.bytes_net = (inl OldRangeWrong, w')
        ∧ Network.inputs (Network.self w')
          = Some (np.astype np64.float64
                    (np.array np64.int64 [[NInt 0; NInt 255]]))
        ∧ Network.inputs_range (Network.self w') = Some (NInt 0, NInt 255).
Proof.
  eexists.
  assert (Network.rescale_inputs (H := np64.kernel)
            (NInt 0, NInt 1) (NInt 0, NInt 255)
            (Some np64.float64) example.bytes_net = (inl OldRangeWrong, _))
    as Hrun by (apply outcome_after; reflexivity).
  split; [exact Hrun|].
  destruct (rescale_inputs_failure (H := np64.kernel) example.bytes_net
              (@np.array np64.kernel np64.int64 [[NInt 0; NInt 255]])
              _ _ _ _ _ eq_refl Hrun)
    as (Hinputs & _ & Hrange & _).
  split; [exact Hinputs | exact Hrange].
Defined.

Lemma split_dataset_round_trip_witness :
  ∃ w' train test,
    Network.split_dataset (PyFloat 0.5) true
      (example.after (Network.load_dataset "xor.npz" true) example.net)
    = (inr tt, w')
    ∧ Network.train_inputs (Network.self w') = Some train
    ∧ Network.test_inputs (Network.self w') = Some test
    ∧ np.concatenate train test = example.XOR_inputs.
Proof.
  destruct (split_dataset_round_trip (H := np64.kernel)
              (example.after (Network.load_dataset "xor.npz" true) example.net)
              example.XOR_inputs example.XOR_targets 4 (PyFloat 0.5) true
              eq_refl eq_refl eq_refl ltac:(lia) (conj eq_refl eq_refl))
    as (w' & k & train & test & train_l & test_l & Hrun & _ & _ & _ & _
        & Htrain & Htest & _ & _ & _ & _ & _ & _ & Hinputs & _).
  exists w', train, test. repeat split; assumption.
Defined.


(** * Further properties *)

(** ** The constructor: what it raises and what it guarantees *)

Lemma init_shape_dims shape sh :
  Layer.init_shape shape = inr sh → sh.1 = dims_of shape.
Proof.
  destruct shape as [|n| | |items| |]; try discriminate; simpl.
  - by intros [= <-].
  - destruct (reduce Z.mul (int_items items)); [|discriminate]. by intros [= <-].
Qed.

(** A valid shape always has a size: [reduce] is not called on an empty
    tuple. *)
Lemma init_shape_returns shape :
  valid_shape shape = true → ∃ sh, Layer.init_shape shape = inr sh.
Proof.
  destruct shape as [|n| | |items| |]; try discriminate; [simpl; eauto|].
  intros Hv. destruct (valid_shape_items _ Hv) as (Hitems & _ & Hlen).
  unfold Layer.init_shape.
  destruct (int_items items) as [|x xs] eqn:Hints.
  - rewrite <- Hitems in Hlen. simpl in Hlen. lia.
  - rewrite reduce_mul_product. eauto.
Qed.

Lemma init_vshape_error params sh sz e :
  sz = product sh → Layer.init_vshape params sh sz = inl e →
  ∃ vs, params !! "vshape" = Some vs
        ∧ ((e = BadVshape vs ∧ valid_vshape vs = false)
           ∨ (e = VshapeIncompatible sz ∧ valid_vshape vs = true
              ∧ product (dims_of vs) ≠ sz)).
Proof.
  intros Hsz. unfold Layer.init_vshape.
  destruct (params !! "vshape") as [vs|]; [|by destruct (_ <? _)].
  intros Hrun. exists vs. split; [done|]. revert Hrun.
  destruct (valid_vshape vs) eqn:Hv; simpl; [|intros [= <-]; by left].
  pose proof Hv as [Hshape Hdim]%andb_prop.
  destruct vs as [|n| | |items| |]; try discriminate.
  - destruct (n =? sz)%Z eqn:Hn; simpl; [discriminate|].
    intros [= <-]. right. apply Z.eqb_neq in Hn.
    split; [done|]. split; [done|]. simpl. unfold product. simpl. lia.
  - destruct (valid_shape_items _ Hshape) as (Hitems & _ & _).
    apply Nat.eqb_eq in Hdim. rewrite <- Hitems in Hdim.
    simpl dims_of.
    destruct (int_items items) as [|a [|b [|c rest]]]; try discriminate.
    destruct (a * b =? sz)%Z eqn:Hab; simpl; [discriminate|].
    intros [= <-]. right. apply Z.eqb_neq in Hab.
    split; [done|]. split; [done|]. unfold product. simpl. lia.
Qed.

Lemma init_activation_error params e :
  Layer.init_activation params = inl e →
  ∃ act, params !! "activation" = Some act ∧ e = UnknownActivation act
         ∧ act ≠ PyNone ∧ (∀ id, act ≠ PyCallable id)
         ∧ (∀ s, act = PyStr s → s ∉ Layer.ACTIVATION_FUNCTIONS).
Proof.
  unfold Layer.init_activation.
  destruct (params !! "activation") as [act|]; [|discriminate].
  intros Hrun. exists act. split; [done|]. revert Hrun.
  destruct act as [| | |s| | |]; simpl; try discriminate;
    try (intros [= <-]; repeat split; try done; by intros ? [=]).
  case_bool_decide as Hs; [discriminate|].
  intros [= <-]. repeat split; try done. by intros ? [= <-].
Qed.

Lemma init_dropout_error params e :
  Layer.init_dropout params = inl e →
  ∃ d, params !! "dropout" = Some d ∧ e = BadDropout d ∧ d ≠ PyNone
       ∧ match d with
         | PyInt z => ¬ (0 ≤ z ≤ 1)%Z
         | PyFloat x => PrimFloat.leb 0 x && PrimFloat.leb x 1 = false
         | _ => True
         end.
Proof.
  unfold Layer.init_dropout.
  destruct (params !! "dropout") as [d|]; [|discriminate].
  intros Hrun. exists d. split; [done|]. revert Hrun.
  destruct d as [|z|x| | | |]; simpl; try discriminate;
    try (intros [= <-]; by repeat split).
  - destruct ((0 <=? z)%Z && (z <=? 1)%Z) eqn:Hz; [discriminate|].
    intros [= <-]. repeat split; try done.
    intros [H0 H1]. apply Z.leb_le in H0, H1. by rewrite H0, H1 in Hz.
  - destruct (PrimFloat.leb 0 x && PrimFloat.leb x 1) eqn:Hx; [discriminate|].
    intros [= <-]. by repeat split.
Qed.

(** X1: the constructor raises only its own six messages, each for the first
    argument that fails in the order name, shape, vshape, activation,
    dropout: 'bad layer name' exactly for a name that is not a non-empty
    string; 'bad shape' for an invalid shape; 'bad vshape' for an invalid
    vshape argument and 'vshape incompatible' for a valid one whose product
    differs from the size; 'unknown activation function' for an argument
    that is not None, callable or one of the four names; 'bad dropout rate'
    for an argument that is not None or a number in [0,1].  It never fails
    in [reduce] or in [vs[0]*vs[1]]. *)
Theorem init_error_cases name shape params e :
  Layer.__init__ name shape params = inl e →
  match e with
  | BadLayerName n => n = name ∧ ¬ nonempty_str name
  | BadShape s => s = shape ∧ nonempty_str name ∧ valid_shape shape = false
  | BadVshape vs =>
      nonempty_str name ∧ valid_shape shape = true
      ∧ params !! "vshape" = Some vs ∧ valid_vshape vs = false
  | VshapeIncompatible sz =>
      nonempty_str name ∧ valid_shape shape = true
      ∧ sz = product (dims_of shape)
      ∧ ∃ vs, params !! "vshape" = Some vs ∧ valid_vshape vs = true
              ∧ product (dims_of vs) ≠ sz
  | UnknownActivation act =>
      nonempty_str name ∧ valid_shape shape = true
      ∧ params !! "activation" = Some act
      ∧ act ≠ PyNone ∧ (∀ id, act ≠ PyCallable id)
      ∧ (∀ s, act = PyStr s → s ∉ Layer.ACTIVATION_FUNCTIONS)
  | BadDropout d =>
      nonempty_str name ∧ valid_shape shape = true
      ∧ params !! "dropout" = Some d ∧ d ≠ PyNone
      ∧ match d with
        | PyInt z => ¬ (0 ≤ z ≤ 1)%Z
        | PyFloat x => PrimFloat.leb 0 x && PrimFloat.leb x 1 = false
        | _ => True
        end
  | _ => False
  end.
Proof.
  unfold Layer.__init__.
  destruct name as [| | |s| | |];
    try (intros [= <-]; split; [done|]; by intros (? & [=] & _)).
  destruct (0 <? String.length s)%nat eqn:Hs; simpl.
  2: { intros [= <-]. split; [done|]. intros (s' & [= <-] & Hne).
       destruct s; [done|discriminate]. }
  assert (nonempty_str (PyStr s)) as Hname.
  { exists s. split; [done|]. intros ->. discriminate. }
  destruct (valid_shape shape) eqn:Hv; simpl; [|by intros [= <-]].
  destruct (init_shape_returns shape Hv) as [sh Hsh]. rewrite Hsh. simpl.
  destruct (init_shape_spec _ _ Hv Hsh) as (Hsize & _ & _).
  pose proof (init_shape_dims _ _ Hsh) as Hdims.
  destruct (Layer.init_vshape params sh.1 sh.2) as [e1|vs] eqn:Hvs; simpl.
  { intros [= <-].
    destruct (init_vshape_error _ _ _ _ Hsize Hvs)
      as (arg & Harg & [[-> Hbad]|(-> & Hgood & Hprod)]).
    - by repeat split.
    - repeat split; try done; [by rewrite Hsize, Hdims|]. eauto. }
  destruct (Layer.init_activation params) as [e2|act] eqn:Hact; simpl.
  { intros [= <-].
    destruct (init_activation_error _ _ Hact) as (arg & Harg & -> & ? & ? & ?).
    by repeat split. }
  destruct (Layer.init_dropout params) as [e3|dr] eqn:Hdr; simpl; [|discriminate].
  intros [= <-].
  destruct (init_dropout_error _ _ Hdr) as (arg & Harg & -> & ? & ?).
  by repeat split.
Qed.

Lemma init_error_cases_witness :
  Layer.__init__ (PyStr "a") (PyInt 64)
    {[ "vshape" := PyTuple [PyInt 8; PyInt 7] ]}
  = inl (VshapeIncompatible 64)
  ∧ 64%Z = product (dims_of (PyInt 64)).
Proof.
  assert (Layer.__init__ (PyStr "a") (PyInt 64)
            {[ "vshape" := PyTuple [PyInt 8; PyInt 7] ]}
          = inl (VshapeIncompatible 64)) as H by (vm_compute; reflexivity).
  split; [exact H|].
  exact (proj1 (proj2 (proj2 (init_error_cases _ _ _ _ H)))).
Defined.

(** X2: a constructed layer has the non-empty name and the parameters it was
    given, an activation that is callable or one of the four names ('linear'
    when the argument is absent or None), a dropout rate in [0,1] (0 when
    absent or None), and no connection: its kind is 'unconnected'. *)
Theorem init_guarantees name shape params ly :
  Layer.__init__ name shape params = inr ly →
  name = PyStr (Layer.name ly) ∧ Layer.name ly ≠ ""
  ∧ Layer.params ly = params
  ∧ match params !! "activation" with
    | None | Some PyNone => Layer.activation ly = ActName "linear"
    | Some (PyStr s) =>
        Layer.activation ly = ActName s ∧ s ∈ Layer.ACTIVATION_FUNCTIONS
    | Some (PyCallable id) => Layer.activation ly = ActCallable id
    | Some _ => False
    end
  ∧ match params !! "dropout" with
    | None | Some PyNone => Layer.dropout ly = NInt 0
    | Some (PyInt z) => Layer.dropout ly = NInt z ∧ (0 ≤ z ≤ 1)%Z
    | Some (PyFloat x) =>
        Layer.dropout ly = NFloat x
        ∧ PrimFloat.leb 0 x = true ∧ PrimFloat.leb x 1 = true
    | Some _ => False
    end
  ∧ Layer.incoming_connections ly = []
  ∧ Layer.outgoing_connections ly = []
  ∧ Layer.kind ly = "unconnected".
Proof.
  intros (s & sh & vs & act & dr & -> & Hs & _ & _ & _ & Hact & Hdr & ->)%init_inv.
  simpl. repeat split; try done.
  - unfold Layer.init_activation in Hact.
    destruct (params !! "activation") as [[| | |a| |id|]|]; simpl in Hact;
      try discriminate; try by injection Hact as <-.
    case_bool_decide; [|discriminate]. by injection Hact as <-.
  - unfold Layer.init_dropout in Hdr.
    destruct (params !! "dropout") as [[|z|x| | | |]|]; simpl in Hdr;
      try discriminate; try by injection Hdr as <-.
    + destruct ((0 <=? z)%Z && (z <=? 1)%Z) eqn:Hz; [|discriminate].
      injection Hdr as <-. apply andb_prop in Hz as [H0 H1].
      apply Z.leb_le in H0, H1. by repeat split.
    + destruct (PrimFloat.leb 0 x && PrimFloat.leb x 1) eqn:Hx; [|discriminate].
      injection Hdr as <-. apply andb_prop in Hx as [H0 H1]. by repeat split.
Qed.

Lemma init_guarantees_witness :
  ∃ ly, Layer.__init__ (PyStr "hidden") (PyInt 16)
          {[ "activation" := PyStr "relu"; "dropout" := PyFloat 0.5 ]} = inr ly
        ∧ Layer.activation ly = ActName "relu"
        ∧ Layer.dropout ly = NFloat 0.5
        ∧ Layer.kind ly = "unconnected".
Proof.
  destruct (Layer.__init__ (PyStr "hidden") (PyInt 16)
              {[ "activation" := PyStr "relu"; "dropout" := PyFloat 0.5 ]})
    as [e|ly] eqn:Hinit; [vm_compute in Hinit; discriminate|].
  exists ly. split; [done|].
  destruct (init_guarantees _ _ _ _ Hinit)
    as (_ & _ & _ & Hact & Hdr & _ & _ & Hkind).
  split; [exact (proj1 Hact)|]. split; [exact (proj1 Hdr) | exact Hkind].
Defined.

(** ** kind *)

(** X3: [kind] returns one of four strings, and each exactly for one
    combination of empty and non-empty connection lists: 'unconnected' for
    none of either, 'input' for outgoing connections only, 'output' for
    incoming connections only, 'hidden' for both. *)
Theorem kind_cases (ly : Layer.t) :
  (Layer.kind ly = "unconnected"
   ↔ Layer.incoming_connections ly = [] ∧ Layer.outgoing_connections ly = [])
  ∧ (Layer.kind ly = "input"
     ↔ Layer.incoming_connections ly = [] ∧ Layer.outgoing_connections ly ≠ [])
  ∧ (Layer.kind ly = "output"
     ↔ Layer.incoming_connections ly ≠ [] ∧ Layer.outgoing_connections ly = [])
  ∧ (Layer.kind ly = "hidden"
     ↔ Layer.incoming_connections ly ≠ [] ∧ Layer.outgoing_connections ly ≠ [])
  ∧ Layer.kind ly ∈ ["unconnected"; "hidden"; "output"; "input"].
Proof.
  unfold Layer.kind.
  destruct (Layer.incoming_connections ly) as [|i ins],
           (Layer.outgoing_connections ly) as [|o outs]; simpl;
    repeat split; try done; try (intros [? ?]; done);
    try (intros [=]); set_solver.
Qed.

(** ** connect: what a successful call changes *)

Section connecting.
Context `{np.Kernel}.

Lemma connect_heap (w : Network.world) from_layer_name to_layer_name
    from_layer to_layer :
  Network.layer_dict (Network.self w) !! from_layer_name = Some from_layer →
  Network.layer_dict (Network.self w) !! to_layer_name = Some to_layer →
  ∃ w', Network.connect from_layer_name to_layer_name w = (inr tt, w')
        ∧ Network.self w' = Network.self w
        ∧ Network.disk w' = Network.disk w
        ∧ ∀ x, Network.heap w' !! x
               = connected from_layer to_layer x <$> Network.heap w !! x.
Proof.
  intros Hfrom Hto. unfold Network.connect. rewrite Hfrom, Hto.
  eexists. split; [reflexivity|]. simpl. split; [done|]. split; [done|].
  intros x. rewrite !lookup_alter. unfold connected, add_outgoing, add_incoming.
  repeat case_decide; subst; try done;
    destruct (Network.heap w !! x) as [ly|]; simpl; try done.
  all: rewrite ?lookup_alter; repeat case_decide; subst; try done.
Qed.

Lemma connect_outcomes (w : Network.world) from_layer_name to_layer_name r w' :
  Network.connect from_layer_name to_layer_name w = (r, w') →
  (∃ name, r = inl (UnknownLayer name) ∧ w' = w)
  ∨ (∃ from_layer to_layer,
       Network.layer_dict (Network.self w) !! from_layer_name = Some from_layer
       ∧ Network.layer_dict (Network.self w) !! to_layer_name = Some to_layer
       ∧ r = inr tt).
Proof.
  destruct (Network.layer_dict (Network.self w) !! from_layer_name)
    as [from_layer|] eqn:Hfrom.
  - destruct (Network.layer_dict (Network.self w) !! to_layer_name)
      as [to_layer|] eqn:Hto.
    + destruct (connect_heap w _ _ _ _ Hfrom Hto) as (w1 & -> & _).
      intros [= <- <-]. right. eauto.
    + unfold Network.connect. rewrite Hfrom, Hto. intros [= <- <-]. eauto.
  - unfold Network.connect. rewrite Hfrom. intros [= <- <-]. eauto.
Qed.

(** X4: a call of [connect] with two names of [layer_dict] returns; it
    appends the target to the outgoing connections of the source and the
    source to the incoming connections of the target (both to the same layer
    when a layer is connected to itself), and changes nothing else: no other
    layer, no other attribute of the two layers, nor the network object. *)
Theorem connect_effect (w : Network.world) from_layer_name to_layer_name
    from_layer to_layer :
  Network.layer_dict (Network.self w) !! from_layer_name = Some from_layer →
  Network.layer_dict (Network.self w) !! to_layer_name = Some to_layer →
  ∃ w', Network.connect from_layer_name to_layer_name w = (inr tt, w')
        ∧ Network.self w' = Network.self w
        ∧ Network.disk w' = Network.disk w
        ∧ (∀ x, x ≠ from_layer → x ≠ to_layer →
                Network.heap w' !! x = Network.heap w !! x)
        ∧ (from_layer ≠ to_layer →
           Network.heap w' !! from_layer
             = (λ ly, add_outgoing ly to_layer) <$> Network.heap w !! from_layer
           ∧ Network.heap w' !! to_layer
             = (λ ly, add_incoming ly from_layer) <$> Network.heap w !! to_layer)
        ∧ (from_layer = to_layer →
           Network.heap w' !! from_layer
             = (λ ly, add_incoming (add_outgoing ly from_layer) from_layer)
                 <$> Network.heap w !! from_layer).
Proof.
  intros Hfrom Hto.
  destruct (connect_heap w _ _ _ _ Hfrom Hto) as (w' & Hrun & Hself & Hdisk & Hheap).
  exists w'. split; [done|]. split; [done|]. split; [done|].
  unfold connected in Hheap. repeat split.
  - intros x Hx1 Hx2. rewrite Hheap. repeat case_decide; try done.
    by destruct (Network.heap w !! x).
  - rewrite Hheap. by repeat case_decide.
  - rewrite Hheap. by repeat case_decide.
  - intros <-. rewrite Hheap. by repeat case_decide.
Qed.

(** X6: after a successful [connect] the source is an 'input' layer when it
    has no incoming connection and a 'hidden' layer otherwise, the target is
    an 'output' layer when it has no outgoing connection and a 'hidden' layer
    otherwise, a layer connected to itself is 'hidden', and every other layer
    is of the kind it was. *)
Theorem connect_kinds (w w' : Network.world) from_layer_name to_layer_name
    from_layer to_layer :
  Network.layer_dict (Network.self w) !! from_layer_name = Some from_layer →
  Network.layer_dict (Network.self w) !! to_layer_name = Some to_layer →
  Network.connect from_layer_name to_layer_name w = (inr tt, w') →
  ∀ x ly, Network.heap w !! x = Some ly →
    ∃ ly', Network.heap w' !! x = Some ly'
      ∧ Layer.kind ly' =
          if decide (x = from_layer)
          then if decide (x = to_layer) then "hidden"
               else match Layer.incoming_connections ly with
                    | [] => "input"
                    | _ => "hidden"
                    end
          else if decide (x = to_layer)
               then match Layer.outgoing_connections ly with
                    | [] => "output"
                    | _ => "hidden"
                    end
               else Layer.kind ly.
Proof.
  intros Hfrom Hto Hrun x ly Hx.
  destruct (connect_heap w _ _ _ _ Hfrom Hto) as (w1 & Hrun1 & _ & _ & Hheap).
  rewrite Hrun in Hrun1. injection Hrun1 as <-.
  rewrite Hheap, Hx. simpl. eexists. split; [done|].
  unfold connected, Layer.kind.
  repeat case_decide; simpl;
    destruct (Layer.incoming_connections ly), (Layer.outgoing_connections ly);
    done.
Qed.

(** X7: [connect] from a layer that already has an outgoing connection
    changes no chain: the new connection is not the first one, and [chain]
    follows first connections only. *)
Theorem connect_keeps_chains (w w' : Network.world) from_layer_name
    to_layer_name from_layer ly r :
  Network.layer_dict (Network.self w) !! from_layer_name = Some from_layer →
  Network.heap w !! from_layer = Some ly →
  Layer.outgoing_connections ly ≠ [] →
  Network.connect from_layer_name to_layer_name w = (r, w') →
  ∀ fuel l, Layer.chain fuel (Network.heap w') l
            = Layer.chain fuel (Network.heap w) l.
Proof.
  intros Hfrom Hly Hout Hrun fuel l.
  destruct (connect_outcomes _ _ _ _ _ Hrun)
    as [(name & _ & ->) | (lf & lt & Hfrom' & Hto & ->)]; [done|].
  rewrite Hfrom in Hfrom'. injection Hfrom' as <-.
  destruct (connect_heap w _ _ _ _ Hfrom Hto) as (w1 & Hrun1 & _ & _ & Hheap).
  rewrite Hrun in Hrun1. injection Hrun1 as <-.
  apply chain_first_only.
  - intros x. rewrite Hheap. by rewrite fmap_is_Some.
  - intros x. unfold first_outgoing. rewrite Hheap.
    destruct (Network.heap w !! x) as [lx|] eqn:Hx; simpl; [|done].
    unfold connected. repeat case_decide; subst; simpl; try done.
    all: rewrite Hly in Hx; injection Hx as <-.
    all: by destruct (Layer.outgoing_connections ly).
Qed.

Lemma chain_agree fuel (h h' : gmap loc Layer.t) l p :
  Layer.chain fuel h l = Some p →
  (∀ x, x ∈ p → ∀ ly, h !! x = Some ly →
     ∃ ly', h' !! x = Some ly'
            ∧ Layer.outgoing_connections ly' = Layer.outgoing_connections ly) →
  Layer.chain fuel h' l = Some p.
Proof.
  revert l p. induction fuel as [|fuel IH]; intros l p; [discriminate|].
  simpl. destruct (h !! l) as [ly|] eqn:Hl; simpl; [|discriminate].
  destruct (Layer.outgoing_connections ly) as [|next rest] eqn:Hout.
  - intros [= <-] Hsame.
    destruct (Hsame l ltac:(set_solver) ly Hl) as (ly' & -> & Hout').
    simpl. by rewrite Hout', Hout.
  - destruct (Layer.chain fuel h next) as [p'|] eqn:Hp'; simpl; [|discriminate].
    intros [= <-] Hsame.
    destruct (Hsame l ltac:(set_solver) ly Hl) as (ly' & -> & Hout').
    simpl. rewrite Hout', Hout.
    rewrite (IH next p'); [done | done |].
    intros x Hx. apply Hsame. set_solver.
Qed.

(** X8: connecting a layer without outgoing connections to a layer whose
    chain does not contain it prepends it to that chain:
    [chain] of the source is then the source followed by the former chain of
    the target. *)
Theorem connect_extends_chain (w w' : Network.world) from_layer_name
    to_layer_name from_layer to_layer ly fuel p :
  Network.layer_dict (Network.self w) !! from_layer_name = Some from_layer →
  Network.layer_dict (Network.self w) !! to_layer_name = Some to_layer →
  Network.heap w !! from_layer = Some ly →
  Layer.outgoing_connections ly = [] →
  Layer.chain fuel (Network.heap w) to_layer = Some p →
  from_layer ∉ p →
  Network.connect from_layer_name to_layer_name w = (inr tt, w') →
  Layer.chain (S fuel) (Network.heap w') from_layer = Some (from_layer :: p)
  ∧ Layer.chain fuel (Network.heap w') to_layer = Some p.
Proof.
  intros Hfrom Hto Hly Hout Hp Hnotin Hrun.
  destruct (connect_heap w _ _ _ _ Hfrom Hto) as (w1 & Hrun1 & _ & _ & Hheap).
  rewrite Hrun in Hrun1. injection Hrun1 as <-.
  assert (Layer.chain fuel (Network.heap w') to_layer = Some p) as Hp'.
  { apply (chain_agree _ _ _ _ _ Hp). intros x Hx lx Hlx.
    rewrite Hheap, Hlx. simpl. eexists. split; [done|].
    unfold connected. destruct (decide (x = from_layer)) as [->|_]; [done|].
    by case_decide. }
  split; [|done].
  assert (from_layer ≠ to_layer) as Hne.
  { intros ->. apply Hnotin.
    destruct fuel as [|fuel]; [discriminate|]. simpl in Hp.
    rewrite Hly in Hp. simpl in Hp. rewrite Hout in Hp.
    injection Hp as <-. set_solver. }
  simpl. rewrite Hheap, Hly. simpl. unfold connected.
  destruct (decide (from_layer = from_layer)) as [_|?]; [|done].
  destruct (decide (from_layer = to_layer)) as [?|_]; [done|].
  simpl. rewrite Hout. simpl. by rewrite Hp'.
Qed.

Lemma out_links_connected (h h' : gmap loc Layer.t) lf lt a b :
  is_Some (h !! lf) →
  (∀ x, h' !! x = connected lf lt x <$> h !! x) →
  out_links h' a b
  = out_links h a b + (if decide (a = lf ∧ b = lt) then 1 else 0).
Proof.
  intros [lyf Hlf] Hheap. unfold out_links. rewrite Hheap.
  destruct (h !! a) as [ly|] eqn:Ha; simpl.
  - assert (Layer.outgoing_connections (connected lf lt a ly)
            = Layer.outgoing_connections ly
              ++ (if decide (a = lf) then [lt] else [])) as ->.
    { unfold connected. repeat case_decide; simpl; by rewrite ?app_nil_r. }
    rewrite filter_app, length_app. f_equal.
    destruct (decide (a = lf)) as [->|Hne].
    + destruct (decide (b = lt)) as [->|Hb].
      * destruct (decide (lf = lf ∧ lt = lt)) as [_|Hn]; [|by destruct Hn].
        by rewrite filter_cons_True.
      * destruct (decide (lf = lf ∧ b = lt)) as [[_ ?]|_]; [done|].
        by rewrite filter_cons_False.
    + by destruct (decide (a = lf ∧ b = lt)) as [[? _]|_].
  - destruct (decide (a = lf ∧ b = lt)) as [[-> _]|_]; [congruence | done].
Qed.

Lemma in_links_connected (h h' : gmap loc Layer.t) lf lt a b :
  is_Some (h !! lt) →
  (∀ x, h' !! x = connected lf lt x <$> h !! x) →
  in_links h' a b
  = in_links h a b + (if decide (a = lf ∧ b = lt) then 1 else 0).
Proof.
  intros [lyt Hlt] Hheap. unfold in_links. rewrite Hheap.
  destruct (h !! b) as [ly|] eqn:Hb; simpl.
  - assert (Layer.incoming_connections (connected lf lt b ly)
            = Layer.incoming_connections ly
              ++ (if decide (b = lt) then [lf] else [])) as ->.
    { unfold connected. repeat case_decide; simpl; by rewrite ?app_nil_r. }
    rewrite filter_app, length_app. f_equal.
    destruct (decide (b = lt)) as [->|Hne].
    + destruct (decide (a = lf)) as [->|Ha].
      * destruct (decide (lf = lf ∧ lt = lt)) as [_|Hn]; [|by destruct Hn].
        by rewrite filter_cons_True.
      * destruct (decide (a = lf ∧ lt = lt)) as [[? _]|_]; [done|].
        by rewrite filter_cons_False.
    + by destruct (decide (a = lf ∧ b = lt)) as [[_ ?]|_].
  - destruct (decide (a = lf ∧ b = lt)) as [[_ ->]|_]; [congruence | done].
Qed.

Lemma connect_keeps_links_paired (w w' : Network.world) from_layer_name
    to_layer_name r :
  (∀ name l, Network.layer_dict (Network.self w) !! name = Some l →
             is_Some (Network.heap w !! l)) →
  closed (Network.heap w) →
  paired (Network.heap w) →
  Network.connect from_layer_name to_layer_name w = (r, w') →
  (∀ name l, Network.layer_dict (Network.self w') !! name = Some l →
             is_Some (Network.heap w' !! l))
  ∧ closed (Network.heap w')
  ∧ paired (Network.heap w')
  ∧ (∀ from_layer to_layer,
       r = inr tt →
       Network.layer_dict (Network.self w) !! from_layer_name = Some from_layer →
       Network.layer_dict (Network.self w) !! to_layer_name = Some to_layer →
       ∀ a b, out_links (Network.heap w') a b
              = out_links (Network.heap w) a b
                + (if decide (a = from_layer ∧ b = to_layer) then 1 else 0)).
Proof.
  intros Hdict Hclosed Hpaired Hrun.
  destruct (connect_closed _ _ _ _ _ Hclosed Hdict Hrun)
    as (Hclosed' & Hself & Hdom).
  split; [|split; [done|]].
  { intros name l. rewrite Hself, Hdom. apply Hdict. }
  destruct (connect_outcomes _ _ _ _ _ Hrun)
    as [(name & -> & ->) | (lf & lt & Hfrom & Hto & ->)].
  { split; [done|]. intros ? ? [=]. }
  destruct (connect_heap w _ _ _ _ Hfrom Hto) as (w1 & Hrun1 & _ & _ & Hheap).
  rewrite Hrun in Hrun1. injection Hrun1 as <-.
  split.
  - intros a b.
    rewrite (out_links_connected _ _ lf lt a b (Hdict _ _ Hfrom) Hheap).
    rewrite (in_links_connected _ _ lf lt a b (Hdict _ _ Hto) Hheap).
    by rewrite Hpaired.
  - intros from_layer to_layer _ Hfrom' Hto'.
    rewrite Hfrom in Hfrom'. rewrite Hto in Hto'.
    injection Hfrom' as <-. injection Hto' as <-.
    intros a b. by apply out_links_connected; [apply (Hdict _ _ Hfrom)|].
Qed.

End connecting.

(** ** Looking up the layers that a network was built from *)

Lemma layer_dict_fold_Some (h : gmap loc Layer.t) (layers : list loc)
    (d : gmap string loc) (name : string) (l : loc) :
  foldl (λ d l, match h !! l with
                | Some ly => <[Layer.name ly := l]> d
                | None => d
                end) d layers !! name = Some l →
  d !! name = Some l
  ∨ (l ∈ layers ∧ ∃ ly, h !! l = Some ly ∧ Layer.name ly = name).
Proof.
  revert d. induction layers as [|l0 layers IH]; intros d; simpl; [by left|].
  intros [Hd | (Hin & ly & Hly & Hname)]%IH.
  - destruct (h !! l0) as [ly0|] eqn:Hl0; [|by left].
    destruct (decide (Layer.name ly0 = name)) as [<-|Hne].
    + rewrite lookup_insert_eq in Hd. injection Hd as <-.
      right. split; [by left | eauto].
    + rewrite lookup_insert_ne in Hd by done. by left.
  - right. split; [by right | eauto].
Qed.

Lemma layer_dict_fold_other (h : gmap loc Layer.t) (layers : list loc)
    (d : gmap string loc) (name : string) :
  (∀ l ly, l ∈ layers → h !! l = Some ly → Layer.name ly ≠ name) →
  foldl (λ d l, match h !! l with
                | Some ly => <[Layer.name ly := l]> d
                | None => d
                end) d layers !! name = d !! name.
Proof.
  revert d. induction layers as [|l layers IH]; intros d Hnames; [done|].
  simpl. rewrite IH by (intros l' ly' Hin; apply Hnames; by right).
  destruct (h !! l) as [ly|] eqn:Hl; [|done].
  rewrite lookup_insert_ne; [done|]. apply (Hnames l ly); [by left | done].
Qed.

Lemma init_dict_in_heap `{np.Kernel} (h : gmap loc Layer.t) layers name l :
  Network.layer_dict (Network.__init__ h layers) !! name = Some l →
  l ∈ layers ∧ ∃ ly, h !! l = Some ly ∧ Layer.name ly = name.
Proof. simpl. by intros [Hd | Hl]%layer_dict_fold_Some. Qed.

(** X9: indexing a network built from [layers] never raises and changes
    nothing.  When it returns a layer, that layer is one of [layers] and
    bears the name asked for; and for the name of a layer of the network it
    returns the last of the layers that bear this name, so the layer itself
    when names are not shared. *)
Theorem getitem_known_layer `{np.Kernel} h layers (w : Network.world) :
  Network.layer_dict (Network.self w)
    = Network.layer_dict (Network.__init__ h layers) →
  (∀ name, ∃ r, Network.__getitem__ name w = (inr r, w)
     ∧ ∀ l, r = Some l →
            l ∈ layers ∧ ∃ ly, h !! l = Some ly ∧ Layer.name ly = name)
  ∧ (∀ before l after ly,
       layers = before ++ l :: after →
       h !! l = Some ly →
       (∀ l' ly', l' ∈ after → h !! l' = Some ly' →
                  Layer.name ly' ≠ Layer.name ly) →
       Network.__getitem__ (Layer.name ly) w = (inr (Some l), w)).
Proof.
  intros Hdict. split.
  - intros name. unfold Network.__getitem__.
    destruct (Network.layer_dict (Network.self w) !! name) as [l|] eqn:Hl.
    + exists (Some l). split; [done|]. intros ? [= <-].
      rewrite Hdict in Hl. by apply init_dict_in_heap in Hl.
    + exists None. split; [done|]. intros ? [=].
  - intros before l after ly -> Hly Hlast. unfold Network.__getitem__.
    rewrite Hdict. simpl. rewrite foldl_app. simpl. rewrite Hly.
    rewrite layer_dict_fold_other by done.
    by rewrite lookup_insert_eq.
Qed.

Lemma getitem_known_layer_witness :
  Network.__getitem__ "hidden" example.net = (inr (Some 1), example.net).
Proof.
  destruct (Network.heap example.net0 !! 1) as [ly|] eqn:Hly;
    [|vm_compute in Hly; discriminate].
  assert (Layer.name ly = "hidden") as Hname
    by (vm_compute in Hly; by injection Hly as <-).
  rewrite <- Hname.
  apply (proj2 (getitem_known_layer (H := np64.kernel)
                  (Network.heap example.net0) [0; 1; 2] example.net eq_refl)
           [0] 1 [2] ly eq_refl Hly).
  intros l' ly' ->%list_elem_of_singleton Hly'. rewrite Hname.
  vm_compute in Hly'. injection Hly' as <-. discriminate.
Defined.

Lemma unconnected_heap_paired (h : gmap loc Layer.t) :
  map_Forall (λ _ ly, Layer.incoming_connections ly = []
                      ∧ Layer.outgoing_connections ly = []) h →
  closed h ∧ paired h.
Proof.
  intros Hfresh. split.
  - intros l ly Hl. destruct (Hfresh l ly Hl) as [-> ->]. constructor.
  - intros a b. unfold out_links, in_links.
    destruct (h !! a) as [la|] eqn:Ha; destruct (h !! b) as [lb|] eqn:Hb;
      try done.
    + destruct (Hfresh a la Ha) as [_ ->]. by destruct (Hfresh b lb Hb) as [-> _].
    + by destruct (Hfresh a la Ha) as [_ ->].
    + by destruct (Hfresh b lb Hb) as [-> _].
Qed.

(** X5: the bookkeeping of connections is consistent and stays so.  In a
    heap of freshly constructed layers, and after any call of [connect] on a
    network whose names denote layers, successful or not: every reference
    held by a layer points to a layer, and a layer lists another among its
    outgoing connections as often as that one lists it among its incoming
    connections.  A successful call adds exactly one connection, from the
    source to the target. *)
Theorem links_paired_invariant `{np.Kernel} :
  (∀ h : gmap loc Layer.t,
     (∀ l ly, h !! l = Some ly →
        ∃ name shape params, Layer.__init__ name shape params = inr ly) →
     closed h ∧ paired h)
  ∧ (∀ (w w' : Network.world) from_layer_name to_layer_name r,
       (∀ name l, Network.layer_dict (Network.self w) !! name = Some l →
                  is_Some (Network.heap w !! l)) →
       closed (Network.heap w) →
       paired (Network.heap w) →
       Network.connect from_layer_name to_layer_name w = (r, w') →
       (∀ name l, Network.layer_dict (Network.self w') !! name = Some l →
                  is_Some (Network.heap w' !! l))
       ∧ closed (Network.heap w')
       ∧ paired (Network.heap w')
       ∧ (∀ from_layer to_layer,
            r = inr tt →
            Network.layer_dict (Network.self w) !! from_layer_name
              = Some from_layer →
            Network.layer_dict (Network.self w) !! to_layer_name
              = Some to_layer →
            ∀ a b, out_links (Network.heap w') a b
                   = out_links (Network.heap w) a b
                     + (if decide (a = from_layer ∧ b = to_layer)
                        then 1 else 0))).
Proof.
  split.
  - intros h Hfresh. apply unconnected_heap_paired. intros l ly Hl.
    destruct (Hfresh l ly Hl) as (name & shape & params & Hinit).
    by apply init_unconnected in Hinit.
  - intros w w' from_layer_name to_layer_name r.
    apply connect_keeps_links_paired.
Qed.

Lemma links_paired_invariant_witness :
  closed (Network.heap example.net1)
  ∧ paired (Network.heap example.net1)
  ∧ out_links (Network.heap example.net1) 0 1 = 1
  ∧ in_links (Network.heap example.net1) 0 1 = 1.
Proof.
  assert (closed (Network.heap example.net0)
          ∧ paired (Network.heap example.net0)) as [Hclosed Hpaired].
  { apply unconnected_heap_paired.
    apply (bool_decide_unpack _). vm_compute. exact I. }
  assert (Hrun : Network.connect "input1" "hidden" example.net0
                 = (inr tt, example.net1)) by reflexivity.
  destruct (proj2 (links_paired_invariant (H := np64.kernel))
              example.net0 example.net1 "input1" "hidden" (inr tt))
    as (_ & Hclosed' & Hpaired' & Hlinks); try assumption.
  { intros name l Hl.
    apply (init_dict_in_heap (H := np64.kernel)) in Hl as (_ & ly & Hly & _).
    by exists ly. }
  split; [exact Hclosed'|]. split; [exact Hpaired'|].
  rewrite <- (Hpaired' 0 1).
  rewrite (Hlinks 0 1 eq_refl eq_refl eq_refl 0 1).
  split; reflexivity.
Defined.

Lemma connect_effect_witness :
  ∃ w', Network.connect "input1" "hidden" example.net0 = (inr tt, w')
        ∧ Layer.outgoing_connections <$> Network.heap w' !! 0 = Some [1]
        ∧ Layer.incoming_connections <$> Network.heap w' !! 1 = Some [0]
        ∧ Network.heap w' !! 2 = Network.heap example.net0 !! 2.
Proof.
  destruct (connect_effect (H := np64.kernel) example.net0 "input1" "hidden"
              0 1 eq_refl eq_refl)
    as (w' & Hrun & _ & _ & Hframe & Hends & _).
  destruct (Hends ltac:(done)) as [Hfrom Hto].
  exists w'. split; [exact Hrun|].
  pose proof (Hframe 2 ltac:(done) ltac:(done)) as Hother.
  unfold loc in *. rewrite Hfrom, Hto, Hother.
  repeat split; reflexivity.
Defined.

Lemma connect_kinds_witness :
  ∃ ly', Network.heap example.net !! 1 = Some ly' ∧ Layer.kind ly' = "hidden".
Proof.
  assert (Hrun : Network.connect "hidden" "output1" example.net1
                 = (inr tt, example.net)) by reflexivity.
  destruct (Network.heap example.net1 !! 1) as [ly|] eqn:Hly;
    [|vm_compute in Hly; discriminate].
  destruct (connect_kinds (H := np64.kernel) example.net1 example.net
              "hidden" "output1" 1 2 eq_refl eq_refl Hrun 1 ly Hly)
    as (ly' & Hly' & Hkind).
  exists ly'. split; [exact Hly'|]. rewrite Hkind.
  vm_compute in Hly. injection Hly as <-. reflexivity.
Defined.

Lemma connect_keeps_chains_witness :
  Layer.chain 3 (Network.heap example.fork_net) 0
  = Layer.chain 3 (Network.heap example.fork1) 0.
Proof.
  assert (Hrun : Network.connect "a" "c" example.fork1
                 = (inr tt, example.fork_net)) by reflexivity.
  destruct (Network.heap example.fork1 !! 0) as [ly|] eqn:Hly;
    [|vm_compute in Hly; discriminate].
  apply (connect_keeps_chains (H := np64.kernel) example.fork1
           example.fork_net "a" "c" 0 ly (inr tt) eq_refl Hly); [|exact Hrun].
  vm_compute in Hly. injection Hly as <-. discriminate.
Defined.

Lemma connect_extends_chain_witness :
  Layer.chain 2 (Network.heap example.net) 1 = Some [1; 2].
Proof.
  assert (Hrun : Network.connect "hidden" "output1" example.net1
                 = (inr tt, example.net)) by reflexivity.
  destruct (Network.heap example.net1 !! 1) as [ly|] eqn:Hly;
    [|vm_compute in Hly; discriminate].
  assert (Layer.outgoing_connections ly = []) as Hout
    by (vm_compute in Hly; by injection Hly as <-).
  assert (Layer.chain 1 (Network.heap example.net1) 2 = Some [2]) as Hp
    by (vm_compute; reflexivity).
  assert (1 ∉ [2]) as Hnotin by (by intros [=]%list_elem_of_singleton).
  exact (proj1 (connect_extends_chain (H := np64.kernel) example.net1
                  example.net "hidden" "output1" 1 2 ly 1 [2]
                  eq_refl eq_refl Hly Hout Hp Hnotin Hrun)).
Defined.

(** ** chain: the shape of the result *)

Lemma chain_head fuel h l p : Layer.chain fuel h l = Some p → head p = Some l.
Proof.
  destruct fuel as [|fuel]; [discriminate|]. simpl.
  destruct (h !! l) as [ly|]; simpl; [|discriminate].
  destruct (Layer.outgoing_connections ly) as [|next rest]; [by intros [= <-]|].
  destruct (Layer.chain fuel h next); simpl; [|discriminate]. by intros [= <-].
Qed.

Lemma chain_last_sink fuel h l p :
  Layer.chain fuel h l = Some p →
  ∃ x ly, last p = Some x ∧ h !! x = Some ly
          ∧ Layer.outgoing_connections ly = [].
Proof.
  revert l p. induction fuel as [|fuel IH]; intros l p; [discriminate|].
  simpl. destruct (h !! l) as [ly|] eqn:Hl; simpl; [|discriminate].
  destruct (Layer.outgoing_connections ly) as [|next rest] eqn:Hout.
  - intros [= <-]. by exists l, ly.
  - destruct (Layer.chain fuel h next) as [p'|] eqn:Hp'; simpl; [|discriminate].
    intros [= <-]. destruct (IH _ _ Hp') as (x & lx & Hlast & Hx & Hsink).
    exists x, lx. split; [|done].
    destruct p' as [|y p']; [done|]. by rewrite last_cons, Hlast.
Qed.

Lemma chain_in_heap fuel h l p :
  Layer.chain fuel h l = Some p → ∀ x, x ∈ p → is_Some (h !! x).
Proof.
  revert l p. induction fuel as [|fuel IH]; intros l p; [discriminate|].
  simpl. destruct (h !! l) as [ly|] eqn:Hl; simpl; [|discriminate].
  destruct (Layer.outgoing_connections ly) as [|next rest] eqn:Hout.
  - intros [= <-] x ->%list_elem_of_singleton. eauto.
  - destruct (Layer.chain fuel h next) as [p'|] eqn:Hp'; simpl; [|discriminate].
    intros [= <-] x [->|Hx]%elem_of_cons; [eauto|]. by eapply IH.
Qed.

(** X10: the list that [chain] returns starts with the layer itself, holds
    layers only, holds no layer twice, and ends with a layer that has no
    outgoing connection. *)
Theorem chain_result_shape fuel h l p :
  Layer.chain fuel h l = Some p →
  head p = Some l
  ∧ NoDup p
  ∧ (∀ x, x ∈ p → is_Some (h !! x))
  ∧ ∃ x ly, last p = Some x ∧ h !! x = Some ly
            ∧ Layer.outgoing_connections ly = [].
Proof.
  intros Hp. split; [by eapply chain_head|]. split.
  - apply NoDup_alt. intros i j x Hi Hj.
    rewrite (chain_follow _ _ _ _ Hp) in Hi, Hj.
    pose proof (chain_returns_acyclic _ _ _ _ Hp) as Hpath.
    destruct (Nat.lt_trichotomy i j) as [Hlt | [-> | Hlt]]; [|done|].
    + by destruct (Hpath i j x Hlt Hi).
    + by destruct (Hpath j i x Hlt Hj).
  - split; [by eapply chain_in_heap | by eapply chain_last_sink].
Qed.

Lemma chain_result_shape_witness :
  NoDup [0; 1; 2]
  ∧ ∃ x ly, last [0; 1; 2] = Some x
            ∧ Network.heap example.net !! x = Some ly
            ∧ Layer.outgoing_connections ly = [].
Proof.
  assert (Layer.chain 3 (Network.heap example.net) 0 = Some [0; 1; 2]) as Hp
    by (vm_compute; reflexivity).
  destruct (chain_result_shape _ _ _ _ Hp) as (_ & Hnodup & _ & Hlast).
  split; [exact Hnodup | exact Hlast].
Defined.

(** ** load_dataset: every outcome *)

Section loading.
Context `{np.Kernel}.

Lemma min_inl_elements (a : np.ndarray) e :
  np.min a = inl e → concat (np.rows a) = [].
Proof.
  unfold np.min. by destruct (concat (np.rows a)).
Qed.

Lemma max_inl_elements (a : np.ndarray) e :
  np.max a = inl e → concat (np.rows a) = [].
Proof.
  unfold np.max. by destruct (concat (np.rows a)).
Qed.

Ltac run_load :=
  unfold Network.load_dataset;
  match goal with Hsuffix : Network.suffix4 _ = _ |- _ => rewrite Hsuffix end;
  simpl negb; cbv iota;
  unfold Network.try_except, Network.bind, Network.np_load, Network.item,
    Network.getattr, Network.setattr, Network.lift, Network.ret, Network.raise;
  repeat (cbn -[Network.split_dataset];
          match goal with
          | Heq : ?x = _ |- context [?x] => rewrite Heq
          end).

(** The outcome of [load_dataset] on a '.npz' path, by what the file system
    holds. *)
Lemma load_dataset_cases (w : Network.world) filename verbose :
  Network.suffix4 filename = ".npz" →
  Network.load_dataset filename verbose w =
    match Network.disk w !! filename with
    | None => (inl (CouldNotLoad filename), w)
    | Some f =>
        match f !! "data" with
        | None => (inl (CouldNotLoad filename), w)
        | Some a =>
            match f !! "labels" with
            | None =>
                (inl (CouldNotLoad filename),
                 Network.mk_world (Network.heap w)
                   (Network.set_inputs a (Network.self w)) (Network.disk w))
            | Some b =>
                if negb (np.len a =? np.len b) || (np.len a =? 0)
                then
                  (inl (CouldNotLoad filename),
                   Network.mk_world (Network.heap w)
                     (Network.set_labels b
                        (Network.set_inputs a (Network.self w)))
                     (Network.disk w))
                else
                  match np.min a, np.max a with
                  | inr lo, inr hi =>
                      (inr tt,
                       Network.mk_world (Network.heap w)
                         (loaded a b lo hi (Network.self w)) (Network.disk w))
                  | _, _ =>
                      (inl (CouldNotLoad filename),
                       Network.mk_world (Network.heap w)
                         (Network.set_dataset_size (Z.of_nat (np.len a))
                            (Network.set_labels b
                               (Network.set_inputs a (Network.self w))))
                         (Network.disk w))
                  end
            end
        end
    end.
Proof.
  intros Hsuffix.
  destruct (Network.disk w !! filename) as [f|] eqn:Hdisk; [|by run_load].
  destruct (f !! "data") as [a|] eqn:Hdata; [|by run_load].
  destruct (f !! "labels") as [b|] eqn:Hlabels; [|by run_load].
  destruct (np.len a =? np.len b) eqn:Hlen; simpl negb; simpl orb;
    [|by run_load].
  destruct (np.len a =? 0) eqn:Hzero; [by run_load|].
  destruct (np.min a) as [e1|lo] eqn:Hlo; [by run_load|].
  destruct (np.max a) as [e2|hi] eqn:Hhi; [by run_load|].
  apply Nat.eqb_eq in Hlen. apply Nat.eqb_neq in Hzero.
  by apply (load_dataset_returns w filename verbose f a b lo hi).
Qed.

Lemma load_dataset_not_npz (w : Network.world) filename verbose :
  Network.suffix4 filename ≠ ".npz" →
  Network.load_dataset filename verbose w = (inl FilenameNotNpz, w).
Proof.
  intros Hsuffix. unfold Network.load_dataset.
  apply String.eqb_neq in Hsuffix. by rewrite Hsuffix.
Qed.

(** X11: [load_dataset] returns only when the path ends in '.npz' and the
    archive at that path holds data and labels of the same non-zero length,
    the data with at least one element; the state is then the former one with
    the dataset attributes assigned from the archive. *)
Theorem load_dataset_returns_only_if (w w' : Network.world) filename verbose :
  Network.load_dataset filename verbose w = (inr tt, w') →
  Network.suffix4 filename = ".npz"
  ∧ ∃ f a b lo hi,
      Network.disk w !! filename = Some f
      ∧ f !! "data" = Some a ∧ f !! "labels" = Some b
      ∧ np.len a = np.len b ∧ np.len a ≠ 0
      ∧ concat (np.rows a) ≠ []
      ∧ np.min a = inr lo ∧ np.max a = inr hi
      ∧ w' = Network.mk_world (Network.heap w)
               (loaded a b lo hi (Network.self w)) (Network.disk w).
Proof.
  destruct (decide (Network.suffix4 filename = ".npz")) as [Hsuffix|Hsuffix].
  2: { by rewrite load_dataset_not_npz. }
  rewrite load_dataset_cases by done. intros Hrun. split; [done|].
  destruct (Network.disk w !! filename) as [f|]; [|discriminate].
  destruct (f !! "data") as [a|] eqn:Hdata; [|discriminate].
  destruct (f !! "labels") as [b|] eqn:Hlabels; [|discriminate].
  destruct (np.len a =? np.len b) eqn:Hlen; [|discriminate].
  destruct (np.len a =? 0) eqn:Hzero; [discriminate|].
  simpl in Hrun.
  destruct (np.min a) as [|lo] eqn:Hlo; [discriminate|].
  destruct (np.max a) as [|hi] eqn:Hhi; [discriminate|].
  injection Hrun as <-.
  exists f, a, b, lo, hi.
  apply Nat.eqb_eq in Hlen. apply Nat.eqb_neq in Hzero.
  repeat split; try done.
  apply min_inr_elements in Hlo. intros Hnil. rewrite Hnil in Hlo.
  simpl in Hlo. lia.
Qed.

(** X12: [load_dataset] raises one of two exceptions: 'filename must end in
    .npz', with the state untouched, or, for every failure behind that check,
    'couldn't load .npz dataset'.  In the second case the assignments made
    before the failure stay: [inputs] is the data of the archive as soon as
    the archive has data, [labels] its labels as soon as it has both, and
    [dataset_size] may be set; the range, the split and the four partitions
    are what they were, as are the layers. *)
Theorem load_dataset_failure (w w' : Network.world) filename verbose e :
  Network.load_dataset filename verbose w = (inl e, w') →
  (e = FilenameNotNpz ∧ Network.suffix4 filename ≠ ".npz" ∧ w' = w)
  ∨ (e = CouldNotLoad filename ∧ Network.suffix4 filename = ".npz"
     ∧ Network.heap w' = Network.heap w
     ∧ Network.disk w' = Network.disk w
     ∧ Network.layers (Network.self w') = Network.layers (Network.self w)
     ∧ Network.layer_dict (Network.self w')
       = Network.layer_dict (Network.self w)
     ∧ Network.inputs_range (Network.self w')
       = Network.inputs_range (Network.self w)
     ∧ Network.split (Network.self w') = Network.split (Network.self w)
     ∧ Network.train_inputs (Network.self w')
       = Network.train_inputs (Network.self w)
     ∧ Network.test_inputs (Network.self w')
       = Network.test_inputs (Network.self w)
     ∧ Network.train_labels (Network.self w')
       = Network.train_labels (Network.self w)
     ∧ Network.test_labels (Network.self w')
       = Network.test_labels (Network.self w)
     ∧ match Network.disk w !! filename ≫= (.!! "data") with
       | None => w' = w
       | Some a =>
           Network.inputs (Network.self w') = Some a
           ∧ match Network.disk w !! filename ≫= (.!! "labels") with
             | None =>
                 Network.labels (Network.self w')
                 = Network.labels (Network.self w)
                 ∧ Network.dataset_size (Network.self w')
                   = Network.dataset_size (Network.self w)
             | Some b =>
                 Network.labels (Network.self w') = Some b
                 ∧ (np.len a ≠ np.len b ∨ np.len a = 0
                    ∨ concat (np.rows a) = [])
                 ∧ (Network.dataset_size (Network.self w')
                    = Network.dataset_size (Network.self w)
                    ∨ Network.dataset_size (Network.self w')
                      = Some (Z.of_nat (np.len a)))
             end
       end).
Proof.
  destruct (decide (Network.suffix4 filename = ".npz")) as [Hsuffix|Hsuffix].
  2: { rewrite load_dataset_not_npz by done. intros [= <- <-]. by left. }
  rewrite load_dataset_cases by done. intros Hrun. right.
  destruct (Network.disk w !! filename) as [f|]; simpl.
  2: { injection Hrun as <- <-. by repeat split. }
  destruct (f !! "data") as [a|] eqn:Hdata; simpl.
  2: { injection Hrun as <- <-. by repeat split. }
  destruct (f !! "labels") as [b|] eqn:Hlabels; simpl.
  2: { injection Hrun as <- <-. by repeat split. }
  destruct (np.len a =? np.len b) eqn:Hlen; simpl in Hrun.
  2: { injection Hrun as <- <-. apply Nat.eqb_neq in Hlen.
       simpl. repeat split; auto. }
  destruct (np.len a =? 0) eqn:Hzero.
  { injection Hrun as <- <-. apply Nat.eqb_eq in Hzero.
    simpl. repeat split; auto. }
  destruct (np.min a) as [e1|lo] eqn:Hlo.
  { injection Hrun as <- <-. apply min_inl_elements in Hlo.
    simpl. repeat split; auto. }
  destruct (np.max a) as [e2|hi] eqn:Hhi; [|discriminate].
  injection Hrun as <- <-. apply max_inl_elements in Hhi.
  simpl. repeat split; auto.
Qed.

End loading.

Lemma load_dataset_returns_only_if_witness :
  ∃ f a b,
    Network.disk example.net !! "xor.npz" = Some f
    ∧ f !! "data" = Some a ∧ f !! "labels" = Some b
    ∧ np.len a = np.len b ∧ np.len a ≠ 0.
Proof.
  assert (Network.load_dataset "xor.npz" true example.net
          = (inr tt, (Network.load_dataset "xor.npz" true example.net).2))
    as Hrun by (apply outcome_after; reflexivity).
  destruct (load_dataset_returns_only_if (H := np64.kernel) _ _ _ _ Hrun)
    as (_ & f & a & b & lo & hi & Hdisk & Hdata & Hlabels & Hlen & Hne & _).
  exists f, a, b.
  split; [exact Hdisk|]. split; [exact Hdata|]. split; [exact Hlabels|].
  split; [exact Hlen | exact Hne].
Defined.

Lemma load_dataset_failure_witness :
  ∃ w', Network.load_dataset "half.npz" true example.data_only_net
        = (inl (CouldNotLoad "half.npz"), w')
        ∧ Network.inputs (Network.self example.data_only_net) = None
        ∧ Network.inputs (Network.self w') = Some example.XOR_inputs
        ∧ Network.labels (Network.self w') = None.
Proof.
  eexists.
  assert (Network.load_dataset "half.npz" true example.data_only_net
          = (inl (CouldNotLoad "half.npz"), _)) as Hrun
    by (apply outcome_after; reflexivity).
  split; [exact Hrun|]. split; [reflexivity|].
  destruct (load_dataset_failure (H := np64.kernel) _ _ _ _ _ Hrun)
    as [(Hno & _) | (_ & _ & _ & _ & _ & _ & _ & _ & _ & _ & _ & _ & Hstate)];
    [discriminate|].
  destruct Hstate as (Hinputs & Hlabels & _).
  split; [exact Hinputs | exact Hlabels].
Defined.

(** ** split_dataset: failures and sizes *)

Section splitting.
Context `{np.Kernel}.




Lemma slice_to_length (a : np.ndarray) (k : Z) :
  (0 ≤ k ≤ Z.of_nat (np.len a))%Z →
  np.len (np.slice_to a k) = Z.to_nat k.
Proof.
  intros Hk. unfold np.slice_to, np.len, np.slice_bound. simpl.
  destruct (k <? 0)%Z eqn:Hneg; [apply Z.ltb_lt in Hneg; lia|].
  rewrite length_take. unfold np.len in Hk. lia.
Qed.

Lemma slice_from_length (a : np.ndarray) (k : Z) :
  (0 ≤ k ≤ Z.of_nat (np.len a))%Z →
  np.len (np.slice_from a k) = np.len a - Z.to_nat k.
Proof.
  intros Hk. unfold np.slice_from, np.len, np.slice_bound. simpl.
  destruct (k <? 0)%Z eqn:Hneg; [apply Z.ltb_lt in Hneg; lia|].
  rewrite length_drop. unfold np.len in Hk. lia.
Qed.

(** X14: on a loaded dataset ([dataset_size] is the number of inputs and of
    labels), a call of [split_dataset] with an int that returns leaves that
    many inputs and labels in the train partitions and the rest in the test
    partitions. *)
Theorem split_dataset_sizes (w w' : Network.world) a b z verbose :
  Network.inputs (Network.self w) = Some a →
  Network.labels (Network.self w) = Some b →
  Network.dataset_size (Network.self w) = Some (Z.of_nat (np.len a)) →
  np.len b = np.len a →
  Network.split_dataset (PyInt z) verbose w = (inr tt, w') →
  (0 ≤ z ≤ Z.of_nat (np.len a))%Z
  ∧ Network.split (Network.self w') = Some z
  ∧ np.len <$> Network.train_inputs (Network.self w') = Some (Z.to_nat z)
  ∧ np.len <$> Network.test_inputs (Network.self w')
    = Some (np.len a - Z.to_nat z)
  ∧ np.len <$> Network.train_labels (Network.self w') = Some (Z.to_nat z)
  ∧ np.len <$> Network.test_labels (Network.self w')
    = Some (np.len a - Z.to_nat z).
Proof.
  intros Ha Hb Hn Hlen.
  unfold Network.split_dataset, Network.bind, Network.getattr.
  rewrite Hn. destruct (Z.of_nat (np.len a) =? 0)%Z; [discriminate|].
  rewrite Hn.
  destruct ((0 <=? z)%Z && (z <=? Z.of_nat (np.len a))%Z) eqn:Hz; simpl;
    [|discriminate].
  apply andb_prop in Hz as [H0 H1]. apply Z.leb_le in H0, H1.
  repeat (first [rewrite Ha | rewrite Hb]; simpl).
  intros [= <-]. simpl.
  rewrite !slice_to_length, !slice_from_length by lia.
  rewrite Hlen. by repeat split.
Qed.

End splitting.


Lemma split_dataset_sizes_witness :
  ∃ w', Network.split_dataset (PyInt 3) true example.xor_net = (inr tt, w')
        ∧ np.len <$> Network.train_inputs (Network.self w') = Some 3
        ∧ np.len <$> Network.test_inputs (Network.self w') = Some 1.
Proof.
  eexists.
  assert (Network.split_dataset (PyInt 3) true example.xor_net
          = (inr tt, (Network.split_dataset (PyInt 3) true example.xor_net).2))
    as Hrun by (apply outcome_after; reflexivity).
  split; [exact Hrun|].
  destruct (split_dataset_sizes (H := np64.kernel) example.xor_net _
              example.XOR_inputs example.XOR_targets 3 true
              eq_refl eq_refl eq_refl eq_refl Hrun)
    as (_ & _ & Htrain & Htest & _).
  split; [exact Htrain | exact Htest].
Defined.

(** ** rescale_inputs: a successful call *)

Section rescaling.
Context `{np.Kernel}.

Lemma rescale_row_lengths (a : np.ndarray) old_range new_range :
  map length (np.rows (rescale_numpy_array a old_range new_range))
  = map length (np.rows a).
Proof.
  destruct old_range, new_range. unfold rescale_numpy_array. simpl.
  rewrite !map_map. apply map_ext. intros row. by rewrite !length_map.
Qed.

Lemma converted_row_lengths new_dtype (a : np.ndarray) :
  map length (np.rows (converted new_dtype a)) = map length (np.rows a).
Proof.
  destruct new_dtype; [|done]. simpl.
  rewrite map_map. apply map_ext. intros row. by rewrite length_map.
Qed.

Lemma row_lengths_len (a b : np.ndarray) :
  map length (np.rows a) = map length (np.rows b) → np.len a = np.len b.
Proof.
  intros Hrows. unfold np.len.
  by rewrite <- (length_map length (np.rows a)), Hrows, length_map.
Qed.

(** X15: [rescale_inputs] returns when the inputs, converted to [new_dtype]
    if one is given, lie within [old_range] and [new_range] is increasing.
    It then replaces [inputs] by the rescaled array, which has the shape of
    the former one, and [inputs_range] by the minimum and maximum of the new
    inputs.  It does not touch the four partitions: [train_inputs] and
    [test_inputs] keep the values from before the rescaling.  Labels, size,
    split and layers are unchanged as well. *)
Theorem rescale_inputs_success (w : Network.world) a old_min old_max
    new_min new_max new_dtype lo hi :
  Network.inputs (Network.self w) = Some a →
  np.min (converted new_dtype a) = inr lo →
  np.max (converted new_dtype a) = inr hi →
  np.less lo old_min = false →
  np.less old_max hi = false →
  np.less_equal new_max new_min = false →
  ∃ w' a' lo' hi',
    Network.rescale_inputs (old_min, old_max) (new_min, new_max) new_dtype w
      = (inr tt, w')
    ∧ a' = rescale_numpy_array (converted new_dtype a)
             (old_min, old_max) (new_min, new_max)
    ∧ Network.inputs (Network.self w') = Some a'
    ∧ np.min a' = inr lo' ∧ np.max a' = inr hi'
    ∧ Network.inputs_range (Network.self w') = Some (lo', hi')
    ∧ np.len a' = np.len a
    ∧ map length (np.rows a') = map length (np.rows a)
    ∧ Network.train_inputs (Network.self w')
      = Network.train_inputs (Network.self w)
    ∧ Network.test_inputs (Network.self w')
      = Network.test_inputs (Network.self w)
    ∧ Network.train_labels (Network.self w')
      = Network.train_labels (Network.self w)
    ∧ Network.test_labels (Network.self w')
      = Network.test_labels (Network.self w)
    ∧ Network.labels (Network.self w') = Network.labels (Network.self w)
    ∧ Network.dataset_size (Network.self w')
      = Network.dataset_size (Network.self w)
    ∧ Network.split (Network.self w') = Network.split (Network.self w)
    ∧ Network.layers (Network.self w') = Network.layers (Network.self w)
    ∧ Network.layer_dict (Network.self w')
      = Network.layer_dict (Network.self w)
    ∧ Network.heap w' = Network.heap w
    ∧ Network.disk w' = Network.disk w.
Proof.
  intros Ha Hlo Hhi Hold_lo Hold_hi Hnew.
  set (a' := rescale_numpy_array (converted new_dtype a)
               (old_min, old_max) (new_min, new_max)).
  assert (0 < length (concat (np.rows a'))) as Helems.
  { unfold a'. rewrite rescale_elements. by eapply min_inr_elements. }
  destruct (min_returns _ Helems) as [lo' Hlo'].
  destruct (max_returns _ Helems) as [hi' Hhi'].
  assert (map length (np.rows a') = map length (np.rows a)) as Hrows.
  { unfold a'. by rewrite rescale_row_lengths, converted_row_lengths. }
  set (w1 := match new_dtype with
             | Some d => Network.mk_world (Network.heap w)
                           (Network.set_inputs (np.astype d a) (Network.self w))
                           (Network.disk w)
             | None => w
             end).
  assert (Network.inputs (Network.self w1) = Some (converted new_dtype a))
    as Ha1 by (unfold w1; by destruct new_dtype).
  exists (Network.mk_world (Network.heap w1)
            (Network.set_inputs_range (lo', hi')
               (Network.set_inputs a' (Network.self w1)))
            (Network.disk w1)), a', lo', hi'.
  split.
  - unfold Network.rescale_inputs. unfold Network.bind at 1.
    assert (match new_dtype with
            | Some d =>
                Network.bind (Network.getattr "inputs" Network.inputs)
                  (λ a, Network.setattr Network.set_inputs (np.astype d a))
            | None => Network.ret tt
            end w = (inr tt, w1)) as ->.
    { unfold w1. destruct new_dtype; [|done].
      unfold Network.bind, Network.getattr. by rewrite Ha. }
    unfold Network.bind, Network.getattr, Network.lift, Network.ret,
      Network.raise, Network.setattr.
    rewrite Ha1, Hlo, Hold_lo, Ha1, Hhi, Hold_hi, Hnew, Ha1.
    cbn -[rescale_numpy_array np.min np.max]. fold a'.
    by rewrite Hlo', Hhi'.
  - split; [done|]. split; [done|]. split; [done|]. split; [done|].
    split; [done|]. split; [by apply row_lengths_len|]. split; [done|].
    unfold w1. destruct new_dtype; by repeat split.
Qed.

End rescaling.

Lemma rescale_inputs_success_witness :
  ∃ w' a',
    Network.rescale_inputs (H := np64.kernel)
      (NInt 0, NInt 255) (NInt 0, NInt 1) (Some np64.float64) example.bytes_net
      = (inr tt, w')
    ∧ Network.inputs (Network.self w') = Some a'
    ∧ np.len a' = 1.
Proof.
  destruct (rescale_inputs_success (H := np64.kernel) example.bytes_net
              (@np.array np64.kernel np64.int64 [[NInt 0; NInt 255]])
              (NInt 0) (NInt 255) (NInt 0) (NInt 1) (Some np64.float64)
              (NFloat 0) (NFloat 255)
              eq_refl eq_refl eq_refl eq_refl eq_refl eq_refl)
    as (w' & a' & lo' & hi' & Hrun & _ & Hinputs & _ & _ & _ & Hlen & _).
  exists w', a'. split; [exact Hrun|]. split; [exact Hinputs | exact Hlen].
Defined.

(** ** reshuffle_dataset *)

Section reshuffling.
Context `{np.Kernel}.

Lemma getitem_indices_in_range (a : np.ndarray) (indices : list nat) :
  Forall (λ i, i < np.len a) indices →
  ∃ a', np.getitem_indices a indices = Some a'
        ∧ np.dtype_of a' = np.dtype_of a
        ∧ Forall2 (λ i r, np.rows a !! i = Some r) indices (np.rows a').
Proof.
  intros Hrange. unfold np.getitem_indices.
  destruct (mapM (λ i, np.rows a !! i) indices) as [rows'|] eqn:Hrows.
  - simpl. eexists. split; [done|]. split; [done|]. simpl.
    by apply mapM_Some in Hrows.
  - exfalso. apply mapM_None in Hrows. apply Exists_exists in Hrows.
    destruct Hrows as (i & Hin & Hnone).
    apply lookup_ge_None in Hnone.
    rewrite Forall_forall in Hrange. specialize (Hrange i Hin).
    unfold np.len in Hrange. lia.
Qed.

Lemma zip_seq_lookup {A B} (l : list A) (k : list B) :
  length l = length k →
  Forall2 (λ i p, l !! i = Some p.1 ∧ k !! i = Some p.2)
    (seq 0 (length l)) (zip l k).
Proof.
  intros Hlen. apply Forall2_same_length_lookup. split.
  - by rewrite length_seq, length_zip_with, <- Hlen, Nat.min_id.
  - intros i j [x y] Hi Hxy. apply lookup_seq in Hi as [-> _]. simpl.
    apply lookup_zip_with_Some in Hxy as (x' & y' & [= <- <-] & Hx & Hy).
    done.
Qed.

Lemma zip_reindexed {A B} (l l' : list A) (k k' : list B) indices :
  length l = length k →
  indices ≡ₚ seq 0 (length l) →
  Forall2 (λ i r, l !! i = Some r) indices l' →
  Forall2 (λ i r, k !! i = Some r) indices k' →
  zip l' k' ≡ₚ zip l k.
Proof.
  intros Hlen Hperm Hl Hk.
  assert (Forall2 (λ i p, l !! i = Some p.1 ∧ k !! i = Some p.2)
            indices (zip l' k')) as Hzip.
  { clear Hperm. revert l' k' Hl Hk.
    induction indices as [|i indices IH]; intros l' k' Hl Hk.
    - apply Forall2_nil_inv_l in Hl as ->. constructor.
    - apply Forall2_cons_inv_l in Hl as (r & l'' & Hr & Hl & ->).
      apply Forall2_cons_inv_l in Hk as (s & k'' & Hs & Hk & ->).
      simpl. constructor; [done|]. by apply IH. }
  pose proof (zip_seq_lookup l k Hlen) as Hall.
  assert (∀ (xs : list nat) (ps qs : list (A * B)),
            Forall2 (λ i p, l !! i = Some p.1 ∧ k !! i = Some p.2) xs ps →
            Forall2 (λ i p, l !! i = Some p.1 ∧ k !! i = Some p.2) xs qs →
            ps = qs) as Hfun.
  { induction xs as [|x xs IH]; intros ps qs Hps Hqs.
    - apply Forall2_nil_inv_l in Hps as ->.
      by apply Forall2_nil_inv_l in Hqs as ->.
    - apply Forall2_cons_inv_l in Hps as ([p1 p2] & ps' & [Hp1 Hp2] & Hps & ->).
      apply Forall2_cons_inv_l in Hqs as ([q1 q2] & qs' & [Hq1 Hq2] & Hqs & ->).
      simpl in *. f_equal; [congruence | by apply IH]. }
  assert (∀ xs ys : list nat, xs ≡ₚ ys →
            ∀ ps, Forall2 (λ i p, l !! i = Some p.1 ∧ k !! i = Some p.2) xs ps →
            ∃ qs, ps ≡ₚ qs
                  ∧ Forall2 (λ i p, l !! i = Some p.1 ∧ k !! i = Some p.2)
                      ys qs) as Hmove.
  { induction 1 as [|x xs ys _ IH|x y xs|xs ys zs _ IH1 _ IH2]; intros ps Hps.
    - apply Forall2_nil_inv_l in Hps as ->. by exists [].
    - apply Forall2_cons_inv_l in Hps as (p & ps' & Hp & Hps & ->).
      destruct (IH _ Hps) as (qs & Hperm' & Hqs).
      exists (p :: qs). split; [by constructor | by constructor].
    - apply Forall2_cons_inv_l in Hps as (p & ps' & Hp & Hps & ->).
      apply Forall2_cons_inv_l in Hps as (q & ps'' & Hq & Hps & ->).
      exists (q :: p :: ps''). split; [apply perm_swap|].
      constructor; [exact Hq|]. constructor; [exact Hp | exact Hps].
    - destruct (IH1 _ Hps) as (qs & Hperm1 & Hqs).
      destruct (IH2 _ Hqs) as (rs & Hperm2 & Hrs).
      exists rs. split; [by etrans | done]. }
  destruct (Hmove _ _ Hperm _ Hzip) as (qs & Hperm' & Hqs).
  by rewrite (Hfun _ _ _ Hall Hqs).
Qed.

(** X16: on a loaded and split dataset, [reshuffle_dataset] returns for
    every permutation that [np.random.permutation] can draw.  It reorders
    inputs and labels by the same permutation, so that every input keeps its
    label; the dataset holds the same pairs as before; the size, the split
    and the range are unchanged; and the four partitions are cut anew at the
    recorded split from the reordered arrays. *)
Theorem reshuffle_dataset_keeps_pairs (w : Network.world) a b k indices
    verbose :
  Network.inputs (Network.self w) = Some a →
  Network.labels (Network.self w) = Some b →
  Network.dataset_size (Network.self w) = Some (Z.of_nat (np.len a)) →
  np.len a ≠ 0 →
  np.len b = np.len a →
  Network.split (Network.self w) = Some k →
  (0 ≤ k ≤ Z.of_nat (np.len a))%Z →
  indices ≡ₚ seq 0 (np.len a) →
  ∃ w' a' b',
    Network.reshuffle_dataset indices verbose w = (inr tt, w')
    ∧ Network.inputs (Network.self w') = Some a'
    ∧ Network.labels (Network.self w') = Some b'
    ∧ np.dtype_of a' = np.dtype_of a ∧ np.dtype_of b' = np.dtype_of b
    ∧ (∀ j i, indices !! j = Some i →
              np.rows a' !! j = np.rows a !! i
              ∧ np.rows b' !! j = np.rows b !! i)
    ∧ zip (np.rows a') (np.rows b') ≡ₚ zip (np.rows a) (np.rows b)
    ∧ Network.dataset_size (Network.self w')
      = Network.dataset_size (Network.self w)
    ∧ Network.split (Network.self w') = Some k
    ∧ Network.inputs_range (Network.self w')
      = Network.inputs_range (Network.self w)
    ∧ Network.train_inputs (Network.self w') = Some (np.slice_to a' k)
    ∧ Network.test_inputs (Network.self w') = Some (np.slice_from a' k)
    ∧ Network.train_labels (Network.self w') = Some (np.slice_to b' k)
    ∧ Network.test_labels (Network.self w') = Some (np.slice_from b' k)
    ∧ Network.heap w' = Network.heap w
    ∧ Network.disk w' = Network.disk w.
Proof.
  intros Ha Hb Hn Hne Hlen Hk Hrange Hperm.
  assert (Forall (λ i, i < np.len a) indices) as Hin.
  { apply Forall_forall. intros i Hi. rewrite Hperm in Hi.
    apply elem_of_seq in Hi. lia. }
  destruct (getitem_indices_in_range a indices Hin) as (a' & Ha' & Hda & Hrows_a).
  rewrite <- Hlen in Hin.
  destruct (getitem_indices_in_range b indices Hin) as (b' & Hb' & Hdb & Hrows_b).
  set (w2 := Network.mk_world (Network.heap w)
               (Network.set_labels b' (Network.set_inputs a' (Network.self w)))
               (Network.disk w)).
  destruct (split_dataset_returns w2 a' b' (Z.of_nat (np.len a)) (PyInt k) false)
    as (k' & Hk' & Hsplit); try done; [lia|].
  rewrite (Hk' _ eq_refl) in Hsplit.
  eexists _, a', b'. split.
  - unfold Network.reshuffle_dataset, Network.bind_raised, Network.call,
      Network.getattr, Network.index, Network.setattr, Network.raise.
    rewrite Hn.
    destruct (Z.of_nat (np.len a) =? 0)%Z eqn:Hz; [apply Z.eqb_eq in Hz; lia|].
    rewrite Hn, Ha, Ha'. cbn -[Network.split_dataset].
    rewrite Hb, Hb'. cbn -[Network.split_dataset].
    rewrite Hk. fold w2. by rewrite Hsplit.
  - simpl. split; [done|]. split; [done|]. split; [done|]. split; [done|].
    split.
    { intros j i Hj. split.
      - by destruct (Forall2_lookup_l _ _ _ _ _ Hrows_a Hj) as (r & -> & ->).
      - by destruct (Forall2_lookup_l _ _ _ _ _ Hrows_b Hj) as (r & -> & ->). }
    split.
    { by apply (zip_reindexed _ _ _ _ indices). }
    by repeat split.
Qed.

End reshuffling.

Lemma reshuffle_dataset_keeps_pairs_witness :
  ∃ w' a' b',
    Network.reshuffle_dataset [2; 0; 3; 1] true example.xor_net = (inr tt, w')
    ∧ Network.inputs (Network.self w') = Some a'
    ∧ Network.labels (Network.self w') = Some b'
    ∧ zip (np.rows a') (np.rows b')
      ≡ₚ zip (np.rows example.XOR_inputs) (np.rows example.XOR_targets).
Proof.
  assert ([2; 0; 3; 1] ≡ₚ seq 0 (np.len example.XOR_inputs)) as Hperm.
  { change (seq 0 (np.len example.XOR_inputs)) with [0; 1; 2; 3].
    etrans; [apply perm_swap|]. apply perm_skip.
    etrans; [apply perm_skip, perm_swap|]. apply perm_swap. }
  assert (0 ≤ 4 ≤ Z.of_nat (np.len example.XOR_inputs))%Z as Hsplit
    by (change (np.len example.XOR_inputs) with 4; lia).
  assert (np.len example.XOR_inputs ≠ 0) as Hne by discriminate.
  destruct (reshuffle_dataset_keeps_pairs (H := np64.kernel) example.xor_net
              example.XOR_inputs example.XOR_targets 4 [2; 0; 3; 1] true
              eq_refl eq_refl eq_refl Hne eq_refl eq_refl Hsplit Hperm)
    as (w' & a' & b' & Hrun & Ha' & Hb' & _ & _ & _ & Hpairs & _).
  exists w', a', b'.
  split; [exact Hrun|]. split; [exact Ha'|]. split; [exact Hb' | exact Hpairs].
Defined.

(** ** compile and propagate_to *)

Section compiling.
Context `{np.Kernel} `{keras.Backend}.

Lemma kbind_inv {A B} (m : Network.K A) (k : A → Network.K B) s r s' :
  Network.kbind m k s = Some (r, s') →
  (∃ e, m s = Some (inl e, s') ∧ r = inl e)
  ∨ (∃ a s1, m s = Some (inr a, s1) ∧ k a s1 = Some (r, s')).
Proof.
  unfold Network.kbind. destruct (m s) as [[[e|a] s1]|]; [| |discriminate].
  - intros [= <- <-]. left. eauto.
  - intros Hk. right. eauto.
Qed.

Lemma assigns_within_refl P (s : Network.session) : assigns_within P s s.
Proof. by repeat split. Qed.

Lemma assigns_within_trans (P : loc → Prop) (s1 s2 s3 : Network.session) :
  assigns_within P s1 s2 → assigns_within P s2 s3 → assigns_within P s1 s3.
Proof.
  intros (Ho1 & Hn1 & Hf1 & Hm1) (Ho2 & Hn2 & Hf2 & Hm2).
  split; [congruence|]. split; [congruence|]. split.
  - intros x Hx. by rewrite Hf2, Hf1.
  - intros x Hx. by apply Hm2, Hm1.
Qed.

Lemma assigns_within_weaken (P Q : loc → Prop) (s s' : Network.session) :
  (∀ x, P x → Q x) → assigns_within P s s' → assigns_within Q s s'.
Proof.
  intros HPQ (Ho & Hn & Hf & Hm). repeat split; try done.
  intros x Hx. apply Hf. intros HP. by apply Hx, HPQ.
Qed.

Lemma keras_call_inv {A} (op : keras.state → (keras.error + A) * keras.state)
    s r s' :
  Network.keras_call op s = Some (r, s') →
  assigns_within (λ _, False) s s' ∧ keras_only r.
Proof.
  unfold Network.keras_call. destruct (op (Network.backend s)) as [[e|a] st].
  - intros [= <- <-]. split; [by repeat split|].
    intros e' [= <-]. eauto.
  - intros [= <- <-]. split; [by repeat split|]. by intros e'.
Qed.

Lemma keras_call_returns {A}
    (op : keras.state → (keras.error + A) * keras.state) s :
  ∃ r s', Network.keras_call op s = Some (r, s').
Proof.
  unfold Network.keras_call. destruct (op (Network.backend s)). eauto.
Qed.

Lemma keras_only_inl {A B} (e : Network.failure) :
  keras_only (A := A) (inl e) → keras_only (A := B) (inl e).
Proof. intros Hr e' [= <-]. by apply (Hr e). Qed.

Lemma make_layers_inv ks s r s' :
  Network.make_layers ks s = Some (r, s') →
  assigns_within (λ _, False) s s' ∧ keras_only r.
Proof.
  revert s r s'. induction ks as [|k ks IH]; intros s r s'; simpl.
  - intros [= <- <-]. split; [apply assigns_within_refl | by intros e].
  - intros [(e & Hm & ->) | (k' & s1 & Hm & Hrest)]%kbind_inv.
    { apply keras_call_inv in Hm as [Hs Hr].
      split; [done | by eapply keras_only_inl]. }
    apply keras_call_inv in Hm as [Hs1 _].
    apply kbind_inv in Hrest as [(e & Hm & ->) | (ks' & s2 & Hm & Hrest)].
    { apply IH in Hm as [Hs2 Hr].
      split; [by eapply assigns_within_trans | by eapply keras_only_inl]. }
    apply IH in Hm as [Hs2 _]. injection Hrest as <- <-.
    split; [by eapply assigns_within_trans | by intros e].
Qed.

Lemma make_layers_returns ks s :
  ∃ r s', Network.make_layers ks s = Some (r, s').
Proof.
  revert s. induction ks as [|k ks IH]; intros s; simpl; [by eexists _, _|].
  unfold Network.kbind at 1.
  destruct (keras_call_returns (keras.make k) s) as ([e|k'] & s1 & ->); [eauto|].
  unfold Network.kbind.
  destruct (IH s1) as ([e|ks'] & s2 & ->); [eauto|]. by eexists _, _.
Qed.

Lemma apply_layers_inv ks f s r s' :
  Network.apply_layers ks f s = Some (r, s') →
  assigns_within (λ _, False) s s' ∧ keras_only r.
Proof.
  revert f s r s'. induction ks as [|k ks IH]; intros f s r s'; simpl.
  - intros [= <- <-]. split; [apply assigns_within_refl | by intros e].
  - intros [(e & Hm & ->) | (f' & s1 & Hm & Hrest)]%kbind_inv.
    { apply keras_call_inv in Hm as [Hs Hr].
      split; [done | by eapply keras_only_inl]. }
    apply keras_call_inv in Hm as [Hs1 _].
    apply IH in Hrest as [Hs2 Hr].
    split; [by eapply assigns_within_trans | done].
Qed.

Lemma apply_layers_returns ks f s :
  ∃ r s', Network.apply_layers ks f s = Some (r, s').
Proof.
  revert f s. induction ks as [|k ks IH]; intros f s; simpl; [by eexists _, _|].
  unfold Network.kbind.
  destruct (keras_call_returns (keras.call k f) s) as ([e|f'] & s1 & ->);
    [eauto|]. apply IH.
Qed.

Lemma along_chain_inv input p f s r s' :
  Network.along_chain input p f s = Some (r, s') →
  assigns_within (λ x, x ∈ p) s s'
  ∧ keras_only r
  ∧ (∀ a, r = inr a → ∀ x, x ∈ p → is_Some (Network.layer_model s' !! x)).
Proof.
  revert f s r s'. induction p as [|c p IH]; intros f s r s'; simpl.
  { intros [= <- <-]. split; [apply assigns_within_refl|].
    split; [by intros e|]. intros _ _ x Hx. by apply elem_of_nil in Hx. }
  intros [(e & Hm & ->) | (ly & s1 & Hm & Hrest)]%kbind_inv.
  { unfold Network.deref in Hm.
    by destruct (Network.heap (Network.objects s) !! c). }
  assert (s1 = s) as ->.
  { unfold Network.deref in Hm.
    destruct (Network.heap (Network.objects s) !! c); [|done].
    by injection Hm as _ <-. }
  clear Hm.
  apply kbind_inv in Hrest as [(e & Hm & ->) | (ks & s2 & Hm & Hrest)].
  { apply make_layers_inv in Hm as [Hs Hr].
    split; [by eapply assigns_within_weaken; [|exact Hs]|].
    split; [by eapply keras_only_inl | done]. }
  apply make_layers_inv in Hm as [Hs2 _].
  apply kbind_inv in Hrest as [(e & Hm & ->) | (f' & s3 & Hm & Hrest)].
  { apply apply_layers_inv in Hm as [Hs Hr].
    split; [|split; [by eapply keras_only_inl | done]].
    eapply assigns_within_weaken; [|by eapply assigns_within_trans]. done. }
  apply apply_layers_inv in Hm as [Hs3 _].
  apply kbind_inv in Hrest as [(e & Hm & ->) | (m & s4 & Hm & Hrest)].
  { apply keras_call_inv in Hm as [Hs Hr].
    split; [|split; [by eapply keras_only_inl | done]].
    eapply assigns_within_weaken;
      [|eapply assigns_within_trans; [|exact Hs];
        by eapply assigns_within_trans]. done. }
  apply keras_call_inv in Hm as [Hs4 _].
  apply kbind_inv in Hrest as [(e & Hm & ->) | ([] & s5 & Hm & Hrest)];
    [discriminate|].
  injection Hm as <-.
  apply IH in Hrest as (Hs6 & Hr & Hall).
  assert (assigns_within (λ _ : loc, False) s s4) as Hs.
  { eapply assigns_within_trans; [|exact Hs4].
    by eapply assigns_within_trans. }
  clear Hs2 Hs3 Hs4. destruct Hs as (Ho & Hn & Hf & Hm).
  destruct Hs6 as (Ho6 & Hn6 & Hf6 & Hm6). simpl in *.
  split; [|split; [done|]].
  - split; [congruence|]. split; [congruence|]. split.
    + intros x Hx. rewrite Hf6 by (intros Hin; apply Hx; by right).
      rewrite lookup_insert_ne by (intros ->; apply Hx; by left).
      apply Hf. tauto.
    + intros x Hx. apply Hm6. destruct (decide (c = x)) as [->|Hne].
      * rewrite lookup_insert_eq. eauto.
      * rewrite lookup_insert_ne by done. by apply Hm.
  - intros a -> x [->|Hx]%elem_of_cons; [|by eapply Hall].
    apply Hm6. rewrite lookup_insert_eq. eauto.
Qed.

Lemma along_chain_returns input p f s :
  (∀ x, x ∈ p → is_Some (Network.heap (Network.objects s) !! x)) →
  ∃ r s', Network.along_chain input p f s = Some (r, s').
Proof.
  revert f s. induction p as [|c p IH]; intros f s Hp; simpl; [by eexists _, _|].
  unfold Network.kbind at 1. unfold Network.deref.
  destruct (Hp c ltac:(by left)) as [ly Hly]. rewrite Hly.
  unfold Network.kbind at 1.
  destruct (make_layers_returns (Layer.make_keras_layers ly) s)
    as ([e|ks] & s2 & Hm); rewrite Hm; [eauto|].
  apply make_layers_inv in Hm as [(Ho2 & _) _].
  unfold Network.kbind at 1.
  destruct (apply_layers_returns ks f s2) as ([e|f'] & s3 & Hm);
    rewrite Hm; [eauto|].
  apply apply_layers_inv in Hm as [(Ho3 & _) _].
  unfold Network.kbind at 1.
  destruct (keras_call_returns (keras.Model (One input) (One f')) s3)
    as ([e|m] & s4 & Hm); rewrite Hm; [eauto|].
  apply keras_call_inv in Hm as [(Ho4 & _) _].
  unfold Network.kbind at 1. simpl. apply IH. simpl.
  intros x Hx. rewrite Ho4, Ho3, Ho2. apply Hp. by right.
Qed.

Lemma chain_unique fuel fuel' (h : gmap loc Layer.t) l p p' :
  Layer.chain fuel h l = Some p → Layer.chain fuel' h l = Some p' → p = p'.
Proof.
  intros Hp Hp'.
  pose proof (chain_mono _ (fuel `max` fuel') _ _ _ Hp ltac:(lia)) as H1.
  pose proof (chain_mono _ (fuel `max` fuel') _ _ _ Hp' ltac:(lia)) as H2.
  congruence.
Qed.

Lemma on_input_chain_cons h l layers x :
  on_input_chain h (l :: layers) x ↔
  (∃ ly fuel p, h !! l = Some ly ∧ Layer.kind ly = "input"
                ∧ Layer.chain fuel h l = Some p ∧ x ∈ p)
  ∨ on_input_chain h layers x.
Proof.
  split.
  - intros (l' & ly & fuel & p & [->|Hin]%elem_of_cons & Hrest).
    + left. by exists ly, fuel, p.
    + right. by exists l', ly, fuel, p.
  - intros [(ly & fuel & p & Hrest) | (l' & ly & fuel & p & Hin & Hrest)].
    + exists l, ly, fuel, p. split; [by left | done].
    + exists l', ly, fuel, p. split; [by right | done].
Qed.

Lemma compile_layers_inv fuel layers ins outs s r s' :
  Network.compile_layers fuel layers ins outs s = Some (r, s') →
  assigns_within
    (on_input_chain (Network.heap (Network.objects s)) layers) s s'
  ∧ keras_only r
  ∧ (∀ a, r = inr a →
       ∀ x, on_input_chain (Network.heap (Network.objects s)) layers x →
            is_Some (Network.layer_model s' !! x)).
Proof.
  revert ins outs s r s'.
  induction layers as [|l layers IH]; intros ins outs s r s'; simpl.
  { intros [= <- <-]. split; [apply assigns_within_refl|].
    split; [by intros e|].
    intros _ _ x (l & ly & fuel' & p & Hin & _). by apply elem_of_nil in Hin. }
  intros [(e & Hm & ->) | (ly & s1 & Hm & Hrest)]%kbind_inv.
  { unfold Network.deref in Hm.
    by destruct (Network.heap (Network.objects s) !! l). }
  assert (s1 = s ∧ Network.heap (Network.objects s) !! l = Some ly) as [-> Hly].
  { unfold Network.deref in Hm.
    destruct (Network.heap (Network.objects s) !! l); [|done].
    by injection Hm as <- <-. }
  clear Hm.
  destruct (String.eqb (Layer.kind ly) "input") eqn:Hkind.
  2: { apply IH in Hrest as (Hs & Hr & Hall).
       apply String.eqb_neq in Hkind.
       split; [|split; [done|]].
       - eapply assigns_within_weaken; [|exact Hs].
         intros x Hx. apply on_input_chain_cons. by right.
       - intros a Ha x [(ly' & fuel' & p & Hly' & Hk & _) | Hx]%on_input_chain_cons.
         + congruence.
         + by eapply Hall. }
  apply String.eqb_eq in Hkind.
  apply kbind_inv in Hrest as [(e & Hm & ->) | (f & s2 & Hm & Hrest)].
  { apply keras_call_inv in Hm as [Hs Hr].
    split; [by eapply assigns_within_weaken; [|exact Hs]|].
    split; [by eapply keras_only_inl | done]. }
  apply keras_call_inv in Hm as [Hs2 _].
  pose proof Hs2 as (Ho2 & _).
  apply kbind_inv in Hrest as [(e & Hm & ->) | (p & s3 & Hm & Hrest)].
  { unfold Network.chain_of in Hm.
    by destruct (Layer.chain fuel (Network.heap (Network.objects s2)) l). }
  assert (s3 = s2 ∧ Layer.chain fuel (Network.heap (Network.objects s)) l
                     = Some p) as [-> Hp].
  { unfold Network.chain_of in Hm. rewrite Ho2 in Hm.
    destruct (Layer.chain fuel (Network.heap (Network.objects s)) l); [|done].
    by injection Hm as <- <-. }
  clear Hm.
  assert (∀ x, x ∈ p →
            on_input_chain (Network.heap (Network.objects s)) (l :: layers) x)
    as Hon.
  { intros x Hx. exists l, ly, fuel, p. split; [by left | done]. }
  apply kbind_inv in Hrest as [(e & Hm & ->) | (f' & s4 & Hm & Hrest)].
  { apply along_chain_inv in Hm as (Hs & Hr & _).
    split; [|split; [by eapply keras_only_inl | done]].
    eapply assigns_within_trans;
      [by eapply assigns_within_weaken; [|exact Hs2]
      |by eapply assigns_within_weaken; [|exact Hs]]. }
  apply along_chain_inv in Hm as (Hs4 & _ & Hall4).
  pose proof Hs4 as (Ho4 & _).
  apply IH in Hrest as (Hs5 & Hr & Hall5).
  rewrite Ho4, Ho2 in Hs5, Hall5.
  split; [|split; [done|]].
  - eapply assigns_within_trans;
      [by eapply assigns_within_weaken; [|exact Hs2]|].
    eapply assigns_within_trans;
      [by eapply assigns_within_weaken; [|exact Hs4]|].
    eapply assigns_within_weaken; [|exact Hs5].
    intros x Hx. apply on_input_chain_cons. by right.
  - intros a Ha x [(ly' & fuel' & p' & Hly' & _ & Hp' & Hx) | Hx]%on_input_chain_cons.
    + rewrite (chain_unique _ _ _ _ _ _ Hp' Hp) in Hx.
      destruct Hs5 as (_ & _ & _ & Hm5). apply Hm5. by eapply Hall4.
    + by eapply Hall5.
Qed.

Lemma compile_layers_returns fuel layers ins outs s :
  (∀ l, l ∈ layers → is_Some (Network.heap (Network.objects s) !! l)) →
  (∀ l ly, l ∈ layers →
     Network.heap (Network.objects s) !! l = Some ly →
     Layer.kind ly = "input" →
     is_Some (Layer.chain fuel (Network.heap (Network.objects s)) l)) →
  ∃ r s', Network.compile_layers fuel layers ins outs s = Some (r, s').
Proof.
  revert ins outs s.
  induction layers as [|l layers IH]; intros ins outs s Hin Hchains; simpl;
    [by eexists _, _|].
  unfold Network.kbind at 1. unfold Network.deref.
  destruct (Hin l ltac:(by left)) as [ly Hly]. rewrite Hly.
  destruct (String.eqb (Layer.kind ly) "input") eqn:Hkind.
  2: { apply IH; intros; [apply Hin | eapply Hchains]; try done; by right. }
  apply String.eqb_eq in Hkind.
  unfold Network.kbind at 1.
  destruct (keras_call_returns (keras.Input (Layer.shape ly)) s)
    as ([e|f] & s2 & Hm); rewrite Hm; [eauto|].
  apply keras_call_inv in Hm as [(Ho2 & _) _].
  unfold Network.kbind at 1. unfold Network.chain_of. rewrite Ho2.
  destruct (Hchains l ly ltac:(by left) Hly Hkind) as [p Hp]. rewrite Hp.
  unfold Network.kbind at 1.
  destruct (along_chain_returns f p f s2) as ([e|f'] & s4 & Hm).
  { intros x Hx. rewrite Ho2. by eapply chain_in_heap. }
  { rewrite Hm. eauto. }
  rewrite Hm. apply along_chain_inv in Hm as ((Ho4 & _) & _).
  apply IH; rewrite Ho4, Ho2.
  - intros l' Hl'. apply Hin. by right.
  - intros l' ly' Hl'. apply Hchains. by right.
Qed.

(** X17: [compile] returns or raises whenever the layers of the network
    exist and the chain of each of its 'input' layers returns, and it raises
    only what Keras raises.  It changes nothing but the attributes [model]:
    the layers, their connections and the dataset are untouched; a layer
    outside the chains of the 'input' layers keeps the model it had or stays
    without one; no model is removed.  When it returns, every layer on the
    chain of an 'input' layer has a model, and so has the network. *)
Theorem compile_assigns_models fuel kwargs (s : Network.session) :
  (∀ l, l ∈ Network.layers (Network.self (Network.objects s)) →
        is_Some (Network.heap (Network.objects s) !! l)) →
  (∀ l ly, l ∈ Network.layers (Network.self (Network.objects s)) →
     Network.heap (Network.objects s) !! l = Some ly →
     Layer.kind ly = "input" →
     is_Some (Layer.chain fuel (Network.heap (Network.objects s)) l)) →
  ∃ r s',
    Network.compile fuel kwargs s = Some (r, s')
    ∧ keras_only r
    ∧ Network.objects s' = Network.objects s
    ∧ (∀ x, ¬ on_input_chain (Network.heap (Network.objects s))
                (Network.layers (Network.self (Network.objects s))) x →
            Network.layer_model s' !! x = Network.layer_model s !! x)
    ∧ (∀ x, is_Some (Network.layer_model s !! x) →
            is_Some (Network.layer_model s' !! x))
    ∧ (r = inr tt →
       is_Some (Network.network_model s')
       ∧ ∀ x, on_input_chain (Network.heap (Network.objects s))
                (Network.layers (Network.self (Network.objects s))) x →
              is_Some (Network.layer_model s' !! x)).
Proof.
  intros Hin Hchains. unfold Network.compile.
  destruct (compile_layers_returns fuel _ [] [] s Hin Hchains)
    as (r1 & s1 & Hloop).
  unfold Network.kbind at 1. rewrite Hloop.
  apply compile_layers_inv in Hloop as ((Ho1 & Hn1 & Hf1 & Hm1) & Hr1 & Hall1).
  destruct r1 as [e|[ins outs]].
  { eexists _, _. split; [done|]. split; [by eapply keras_only_inl|].
    by repeat split. }
  simpl. unfold Network.kbind at 1.
  destruct (keras_call_returns
              (keras.Model (Network.unwrap_single ins)
                 (Network.unwrap_single outs)) s1) as (r2 & s2 & Hmodel).
  rewrite Hmodel.
  apply keras_call_inv in Hmodel as ((Ho2 & Hn2 & Hf2 & Hm2) & Hr2).
  destruct r2 as [e|m].
  { eexists _, _. split; [done|]. split; [by eapply keras_only_inl|].
    split; [congruence|]. split.
    - intros x Hx. rewrite Hf2 by tauto. by apply Hf1.
    - split; [|done]. intros x Hx. by apply Hm2, Hm1. }
  unfold Network.kbind at 1. simpl.
  destruct (keras_call_returns (keras.compile m kwargs)
              (Network.mk_session (Network.objects s2) (Network.backend s2)
                 (Network.layer_model s2) (Some m))) as (r3 & s3 & Hcompile).
  rewrite Hcompile.
  apply keras_call_inv in Hcompile as ((Ho3 & Hn3 & Hf3 & Hm3) & Hr3).
  simpl in *.
  exists r3, s3. split; [done|]. split; [done|].
  split; [congruence|]. split; [|split].
  - intros x Hx. rewrite Hf3 by tauto. rewrite Hf2 by tauto. by apply Hf1.
  - intros x Hx. by apply Hm3, Hm2, Hm1.
  - intros _. split; [rewrite Hn3; eauto|].
    intros x Hx. apply Hm3, Hm2. by eapply Hall1.
Qed.

Lemma compile_inv fuel kwargs (s s' : Network.session) r :
  Network.compile fuel kwargs s = Some (r, s') →
  Network.objects s' = Network.objects s
  ∧ (∀ x, ¬ on_input_chain (Network.heap (Network.objects s))
              (Network.layers (Network.self (Network.objects s))) x →
          Network.layer_model s' !! x = Network.layer_model s !! x)
  ∧ (r = inr tt →
     is_Some (Network.network_model s')
     ∧ ∀ x, on_input_chain (Network.heap (Network.objects s))
              (Network.layers (Network.self (Network.objects s))) x →
            is_Some (Network.layer_model s' !! x)).
Proof.
  unfold Network.compile.
  intros [(e & Hm & ->) | ([ins outs] & s1 & Hloop & Hrest)]%kbind_inv.
  { apply compile_layers_inv in Hm as ((Ho & _ & Hf & _) & _).
    by repeat split. }
  apply compile_layers_inv in Hloop as ((Ho1 & Hn1 & Hf1 & Hm1) & _ & Hall1).
  apply kbind_inv in Hrest as [(e & Hm & ->) | (m & s2 & Hmodel & Hrest)].
  { apply keras_call_inv in Hm as ((Ho2 & _ & Hf2 & _) & _).
    split; [congruence|]. split; [|done].
    intros x Hx. rewrite Hf2 by tauto. by apply Hf1. }
  apply keras_call_inv in Hmodel as ((Ho2 & Hn2 & Hf2 & Hm2) & _).
  apply kbind_inv in Hrest as [(e & Hm & ->) | ([] & s3 & Hset & Hrest)];
    [discriminate|].
  injection Hset as <-.
  apply keras_call_inv in Hrest as ((Ho3 & Hn3 & Hf3 & Hm3) & _).
  simpl in *. split; [congruence|]. split.
  - intros x Hx. rewrite Hf3 by tauto. rewrite Hf2 by tauto. by apply Hf1.
  - intros _. split; [rewrite Hn3; eauto|].
    intros x Hx. apply Hm3, Hm2. by eapply Hall1.
Qed.

(** X18: after a call of [compile] that returned, on a network none of whose
    layers had a model, [propagate] asks the model of the network for its
    prediction, and [propagate_to] raises 'unknown layer' for a name that is
    not in [layer_dict], asks the model of the layer for a layer on the chain
    of an 'input' layer, and raises [AttributeError] for every other layer:
    an unconnected layer, or one reached through connections that are not
    first connections only. *)
Theorem propagate_to_after_compile fuel kwargs (s s' : Network.session)
    layer_name input :
  Network.layer_model s = ∅ →
  Network.compile fuel kwargs s = Some (inr tt, s') →
  (∃ m, Network.network_model s' = Some m
        ∧ Network.propagate input s'
          = Network.keras_call (keras.predict m input) s')
  ∧ match Network.layer_dict (Network.self (Network.objects s)) !! layer_name
    with
    | None =>
        Network.propagate_to layer_name input s'
        = Some (inl (Network.Konx (UnknownLayer layer_name)), s')
    | Some l =>
        (on_input_chain (Network.heap (Network.objects s))
           (Network.layers (Network.self (Network.objects s))) l →
         ∃ m, Network.layer_model s' !! l = Some m
              ∧ Network.propagate_to layer_name input s'
                = Network.keras_call (keras.predict m input) s')
        ∧ (¬ on_input_chain (Network.heap (Network.objects s))
               (Network.layers (Network.self (Network.objects s))) l →
           Network.layer_model s' !! l = None
           ∧ Network.propagate_to layer_name input s'
             = Some (inl (Network.Konx (AttributeError "model")), s'))
    end.
Proof.
  intros Hnone Hrun.
  apply compile_inv in Hrun as (Ho & Hf & Hall).
  destruct (Hall eq_refl) as [[m Hm] Hcovered]. split.
  { exists m. split; [done|]. unfold Network.propagate. by rewrite Hm. }
  unfold Network.propagate_to. rewrite Ho.
  destruct (Network.layer_dict (Network.self (Network.objects s)) !! layer_name)
    as [l|] eqn:Hl; [|done].
  assert (Network.mk_session (Network.objects s) (Network.backend s')
            (Network.layer_model s') (Network.network_model s') = s') as Hs'.
  { destruct s'. simpl in *. by subst. }
  unfold Network.kbind, Network.method, Network.__getitem__, Network._output.
  rewrite Ho, Hl. simpl. rewrite Hs'. split.
  - intros [ml Hml]%Hcovered. exists ml. split; [done|]. by rewrite Hml.
  - intros Hml%Hf. rewrite Hnone, lookup_empty in Hml. by rewrite Hml.
Qed.

End compiling.

(** In the network with the fork, the 'input' layer is "a" and its chain is
    "a", "b": "c" is on no chain. *)
Lemma fork_layers l :
  l ∈ [0; 1; 2] → l = 0 ∨ l = 1 ∨ l = 2.
Proof.
  intros [->|Hl]%elem_of_cons; [tauto|].
  apply elem_of_cons in Hl as [->|Hl]; [tauto|].
  apply list_elem_of_singleton in Hl as ->. tauto.
Qed.

Lemma fork_on_input_chain x :
  on_input_chain (Network.heap example.fork_net) [0; 1; 2] x → x = 0 ∨ x = 1.
Proof.
  intros (l & ly & fuel & p & Hl & Hly & Hkind & Hp & Hx).
  apply fork_layers in Hl as [-> | [-> | ->]].
  - assert (Layer.chain 3 (Network.heap example.fork_net) 0 = Some [0; 1])
      as Hp' by (vm_compute; reflexivity).
    rewrite (chain_unique _ _ _ _ _ _ Hp Hp') in Hx.
    apply elem_of_cons in Hx as [->|Hx]; [by left|].
    apply list_elem_of_singleton in Hx as ->. by right.
  - vm_compute in Hly. injection Hly as <-. discriminate.
  - vm_compute in Hly. injection Hly as <-. discriminate.
Qed.

Lemma compile_assigns_models_witness :
  ∃ r s',
    Network.compile 3 tt (example.session_of example.fork_net) = Some (r, s')
    ∧ Network.objects s' = example.fork_net
    ∧ Network.layer_model s' !! 2 = None.
Proof.
  destruct (compile_assigns_models (H := np64.kernel) (H0 := symbolic.backend)
              3 tt (example.session_of example.fork_net))
    as (r & s' & Hrun & _ & Hobjects & Hframe & _).
  - intros l Hl. change (l ∈ [0; 1; 2]) in Hl.
    apply fork_layers in Hl as [-> | [-> | ->]]; vm_compute; eauto.
  - intros l ly Hl Hly Hkind. change (l ∈ [0; 1; 2]) in Hl.
    apply fork_layers in Hl as [-> | [-> | ->]].
    + vm_compute. eauto.
    + vm_compute in Hly. injection Hly as <-. discriminate.
    + vm_compute in Hly. injection Hly as <-. discriminate.
  - exists r, s'. split; [exact Hrun|]. split; [exact Hobjects|].
    etrans; [apply (Hframe 2)|reflexivity].
    intros [|]%fork_on_input_chain; discriminate.
Defined.

Lemma fork_compiles :
  Network.compile 3 tt (example.session_of example.fork_net)
  = Some (inr tt, example.compiled 3 example.fork_net).
Proof.
  assert ((if Network.compile 3 tt (example.session_of example.fork_net)
           is Some (inr _, _) then true else false) = true) as Hok
    by (vm_compute; reflexivity).
  unfold example.compiled.
  destruct (Network.compile (H0 := symbolic.backend) 3 tt
              (example.session_of example.fork_net))
    as [[[e|[]] s']|]; try discriminate Hok. reflexivity.
Qed.

Lemma propagate_to_after_compile_witness :
  Network.propagate_to "c" [NFloat 1] (example.compiled 3 example.fork_net)
  = Some (inl (Network.Konx (AttributeError "model")),
          example.compiled 3 example.fork_net)
  ∧ ∃ m, Network.layer_model (example.compiled 3 example.fork_net) !! 1
         = Some m.
Proof.
  split.
  - pose proof (propagate_to_after_compile (H := np64.kernel)
                  (H0 := symbolic.backend) 3 tt
                  (example.session_of example.fork_net) _ "c" [NFloat 1]
                  eq_refl fork_compiles) as [_ Hcase].
    lazymatch type of Hcase with
    | match ?d with _ => _ end =>
        assert (d = Some 2) as Hdict by (vm_compute; reflexivity);
        rewrite Hdict in Hcase
    end.
    destruct Hcase as [_ Hnot].
    apply Hnot. intros [|]%fork_on_input_chain; discriminate.
  - pose proof (propagate_to_after_compile (H := np64.kernel)
                  (H0 := symbolic.backend) 3 tt
                  (example.session_of example.fork_net) _ "b" [NFloat 1]
                  eq_refl fork_compiles) as [_ Hcase].
    lazymatch type of Hcase with
    | match ?d with _ => _ end =>
        assert (d = Some 1) as Hdict by (vm_compute; reflexivity);
        rewrite Hdict in Hcase
    end.
    destruct Hcase as [Hon _].
    destruct Hon as (m & Hm & _); [|by exists m].
    exists 0, example.fork_a, 3, [0; 1].
    split; [by left|]. split; [vm_compute; reflexivity|].
    split; [reflexivity|]. split; [vm_compute; reflexivity|].
    right. by left.
Defined.

Section compiling_returns.
Context `{np.Kernel} `{keras.Backend}.

Lemma compile_layers_chains fuel layers ins outs s a s' :
  Network.compile_layers fuel layers ins outs s = Some (inr a, s') →
  ∀ l, l ∈ layers →
    ∃ ly, Network.heap (Network.objects s) !! l = Some ly
          ∧ (Layer.kind ly = "input" →
             is_Some (Layer.chain fuel (Network.heap (Network.objects s)) l)).
Proof.
  revert ins outs s.
  induction layers as [|l0 layers IH]; intros ins outs s; simpl.
  { intros _ l Hl. by apply elem_of_nil in Hl. }
  intros [(e & Hm & [=]) | (ly & s1 & Hm & Hrest)]%kbind_inv.
  assert (s1 = s ∧ Network.heap (Network.objects s) !! l0 = Some ly)
    as [-> Hly].
  { unfold Network.deref in Hm.
    destruct (Network.heap (Network.objects s) !! l0); [|done].
    by injection Hm as <- <-. }
  clear Hm.
  destruct (String.eqb (Layer.kind ly) "input") eqn:Hkind.
  2: { apply String.eqb_neq in Hkind.
       intros l [->|Hl]%elem_of_cons; [by exists ly | by eapply IH]. }
  apply kbind_inv in Hrest as [(e & Hm & [=]) | (f & s2 & Hm & Hrest)].
  apply keras_call_inv in Hm as [(Ho2 & _) _].
  apply kbind_inv in Hrest as [(e & Hm & [=]) | (p & s3 & Hm & Hrest)].
  assert (s3 = s2 ∧ Layer.chain fuel (Network.heap (Network.objects s)) l0
                     = Some p) as [-> Hp].
  { unfold Network.chain_of in Hm. rewrite Ho2 in Hm.
    destruct (Layer.chain fuel (Network.heap (Network.objects s)) l0); [|done].
    by injection Hm as <- <-. }
  clear Hm.
  apply kbind_inv in Hrest as [(e & Hm & [=]) | (f' & s4 & Hm & Hrest)].
  apply along_chain_inv in Hm as ((Ho4 & _) & _).
  intros l [->|Hl]%elem_of_cons.
  - exists ly. split; [done|]. intros _. by rewrite Hp.
  - destruct (IH _ _ _ Hrest l Hl) as (ly' & Hly' & Hchain).
    rewrite Ho4, Ho2 in Hly', Hchain. by exists ly'.
Qed.

(** X20: [compile] returns only if [chain] returns for every 'input' layer
    of the network, hence only if the path along first connections from an
    'input' layer never comes back to a layer: when such a path enters a
    cycle, [compile] does not return at any recursion depth, whatever Keras
    does. *)
Theorem compile_returns_only_acyclic fuel kwargs (s s' : Network.session) l :
  Network.compile fuel kwargs s = Some (inr tt, s') →
  l ∈ Network.layers (Network.self (Network.objects s)) →
  ∃ ly, Network.heap (Network.objects s) !! l = Some ly
        ∧ (Layer.kind ly = "input" →
           never_revisits (Network.heap (Network.objects s)) l
           ∧ ∃ p, Layer.chain fuel (Network.heap (Network.objects s)) l
                  = Some p).
Proof.
  unfold Network.compile.
  intros [(e & Hm & [=]) | ([ins outs] & s1 & Hloop & _)]%kbind_inv Hl.
  destruct (compile_layers_chains _ _ _ _ _ _ _ Hloop l Hl)
    as (ly & Hly & Hchain).
  exists ly. split; [done|]. intros Hkind.
  destruct (Hchain Hkind) as [p Hp].
  split; [by eapply chain_returns_acyclic | by exists p].
Qed.

End compiling_returns.

Lemma compile_returns_only_acyclic_witness :
  ∃ ly, Network.heap example.fork_net !! 0 = Some ly
        ∧ (Layer.kind ly = "input" →
           never_revisits (Network.heap example.fork_net) 0
           ∧ ∃ p, Layer.chain 3 (Network.heap example.fork_net) 0 = Some p).
Proof.
  apply (compile_returns_only_acyclic (H := np64.kernel)
           (H0 := symbolic.backend) 3 tt
           (example.session_of example.fork_net) _ 0 fork_compiles).
  by left.
Defined.

(** ** valid_shape and valid_vshape *)

(** X19: [valid_shape] accepts exactly the positive ints and the tuples of
    two or more positive ints; [valid_vshape] accepts exactly the positive
    ints and the pairs of positive ints, all of which are valid shapes. *)
Theorem valid_shapes_cases (x : pyval) :
  (valid_shape x = true ↔
     (∃ n, x = PyInt n ∧ (0 < n)%Z)
     ∨ (∃ dims, x = PyTuple (PyInt <$> dims) ∧ 2 ≤ length dims
                ∧ Forall (λ n, 0 < n)%Z dims))
  ∧ (valid_vshape x = true ↔
       (∃ n, x = PyInt n ∧ (0 < n)%Z)
       ∨ (∃ r c, x = PyTuple [PyInt r; PyInt c] ∧ (0 < r)%Z ∧ (0 < c)%Z))
  ∧ (valid_vshape x = true → valid_shape x = true).
Proof.
  assert (valid_shape x = true ↔
            (∃ n, x = PyInt n ∧ (0 < n)%Z)
            ∨ (∃ dims, x = PyTuple (PyInt <$> dims) ∧ 2 ≤ length dims
                       ∧ Forall (λ n, 0 < n)%Z dims)) as Hshape.
  { split.
    - destruct x as [|n| | |items| |]; try discriminate.
      + simpl. intros Hn%Z.ltb_lt. left. eauto.
      + intros (Hitems & Hpos & Hlen)%valid_shape_items. right.
        exists (int_items items). rewrite Hitems. split; [done|].
        split; [|done]. by rewrite <- Hitems, length_fmap in Hlen.
    - intros [(n & -> & Hn) | (dims & -> & Hlen & Hpos)]; simpl.
      + by apply Z.ltb_lt.
      + apply andb_true_intro. split.
        * apply Nat.ltb_lt. rewrite length_fmap. lia.
        * unfold all. apply forallb_forall. intros v Hv.
          apply list_elem_of_In, list_elem_of_fmap in Hv as (n & -> & Hn).
          rewrite Forall_forall in Hpos. simpl. apply Z.ltb_lt. by apply Hpos. }
  split; [done|]. split.
  - unfold valid_vshape. split.
    + intros [Hvalid Hform]%andb_prop.
      apply Hshape in Hvalid as [(n & -> & Hn) | (dims & -> & Hlen & Hpos)].
      * left. eauto.
      * right. apply Nat.eqb_eq in Hform. rewrite length_fmap in Hform.
        destruct dims as [|r [|c [|]]]; simpl in Hform; try lia.
        exists r, c. split; [done|].
        apply Forall_cons in Hpos as [Hr Hpos].
        by apply Forall_cons in Hpos as [Hc _].
    + intros [(n & -> & Hn) | (r & c & -> & Hr & Hc)]; simpl.
      * rewrite andb_true_r. by apply Z.ltb_lt.
      * apply Z.ltb_lt in Hr, Hc. by rewrite Hr, Hc.
  - unfold valid_vshape. by intros [? _]%andb_prop.
Qed.

(** ** Python floats: a fraction of an int does not exceed it

    For an int below 2^53 the conversion to float is exact, and rounding
    the product with a float between 0 and 1 cannot step over the int, which
    is itself a float: [int(n * split)] lies between 0 and [n]. *)

Section float_bounds.
Local Open Scope Z_scope.

(** Rounding a value that does not exceed the int [n] yields a float that
    does not exceed [n]; values are compared after scaling by 2^2148. *)
Lemma binary_round_aux_le (s : bool) (M : positive) (e n : Z) :
  0 < n < 2 ^ 53 → -2148 ≤ e →
  Z.pos M * 2 ^ (e + 2148) ≤ n * 2 ^ 2148 →
  match binary_round_aux prec emax s (Z.pos M) e loc_Exact with
  | S754_finite s' m2 e2 =>
      s' = s ∧ -2148 ≤ e2 ∧ Z.pos m2 * 2 ^ (e2 + 2148) ≤ n * 2 ^ 2148
  | _ => True
  end.
Proof.
  intros Hn He HM. unfold binary_round_aux.
  destruct (shr_fexp prec emax (Z.pos M) e loc_Exact) as [mrs' e'] eqn:H1.
  unfold shr_fexp in H1. simpl shr_record_of_loc in H1.
  rewrite fexp_binary64 in H1.
  apply shr_spec in H1; [|lia].
  destruct H1 as [(Hs & -> & ->)|(Hs & -> & Hm' & Hr')].
  - simpl round_nearest_even.
    unfold shr_fexp. simpl shr_record_of_loc. rewrite fexp_binary64.
    destruct (shr _ _ _) as [mrs'' e''] eqn:H2.
    apply shr_spec in H2; [|lia].
    destruct H2 as [(_ & -> & ->)|(Hn2 & _)]; [|lia].
    simpl. by destruct (e <=? emax - prec).
  - set (n1 := Z.max (Zdigits2 (Z.pos M) + e - 53) (-1074) - e) in *.
    set (e1 := e + n1) in *.
    assert (-1074 ≤ e1) as He1lo by (unfold e1, n1; lia).
    assert (e1 ≤ 0) as He1.
    { assert (Zdigits2 (Z.pos M) + e - 53 ≤ 0); [|unfold e1, n1; lia].
      simpl Zdigits2. pose proof (digits2_pos_bounds M) as [Hlo _].
      assert (0 < 2 ^ (e + 2148)) as Hp by (apply Z.pow_pos_nonneg; lia).
      assert (2 ^ (Z.pos (digits2_pos M) - 1 + (e + 2148)) < 2 ^ (53 + 2148))
        as Hpow.
      { rewrite !Z.pow_add_r by lia.
        assert (0 < 2 ^ 2148) by (by apply Z.pow_pos_nonneg).
        nia. }
      apply Z.pow_lt_mono_r_iff in Hpow; lia. }
    assert (0 < 2 ^ n1) as HN by (apply Z.pow_pos_nonneg; lia).
    set (A := 2 ^ (e1 + 2148)).
    set (B := 2 ^ (- e1)).
    assert (0 < A) as HA by (apply Z.pow_pos_nonneg; lia).
    assert (0 < B) as HB by (apply Z.pow_pos_nonneg; lia).
    assert (2 ^ 2148 = A * B) as HK.
    { unfold A, B. rewrite <- Z.pow_add_r by lia. f_equal. lia. }
    assert (Z.pos M ≤ n * B * 2 ^ n1) as HMG.
    { assert (0 < 2 ^ (e + 2148)) as Hp by (apply Z.pow_pos_nonneg; lia).
      assert (2 ^ 2148 = 2 ^ (e + 2148) * (B * 2 ^ n1)) as HK'.
      { unfold B. rewrite <- !Z.pow_add_r by lia. f_equal. unfold e1. lia. }
      rewrite HK' in HM. nia. }
    set (M1 := round_nearest_even (shr_m mrs') (loc_of_shr_record mrs')).
    assert (0 ≤ shr_m mrs') as Hpos by (rewrite Hm'; apply Z.div_pos; lia).
    assert (0 ≤ M1 ∧ M1 ≤ n * B) as [HM0 HM1].
    { pose proof (Z.div_mod (Z.pos M) (2 ^ n1) ltac:(lia)) as Hdm.
      pose proof (Z.mod_pos_bound (Z.pos M) (2 ^ n1) HN) as Hmod.
      destruct (round_nearest_even_spec mrs') as [HMeq|[HMeq Hr]];
        fold M1 in HMeq.
      - split; [lia|]. rewrite HMeq, Hm'. nia.
      - split; [lia|]. specialize (Hr' Hr). rewrite HMeq, Hm'. nia. }
    unfold shr_fexp. simpl shr_record_of_loc. rewrite fexp_binary64.
    destruct (shr _ _ _) as [mrs'' e''] eqn:H2.
    apply shr_spec in H2; [|lia].
    destruct H2 as [(_ & -> & ->)|(Hn2 & -> & Hm'' & _)].
    + simpl. destruct M1 as [|p|p]; [done| |done].
      destruct (e1 <=? emax - prec); [|done].
      split; [done|]. split; [lia|]. fold A. rewrite HK. nia.
    + set (n2 := Z.max (Zdigits2 M1 + e1 - 53) (-1074) - e1) in *.
      assert (0 < 2 ^ n2) as HN2 by (apply Z.pow_pos_nonneg; lia).
      pose proof (Z.div_mod M1 (2 ^ n2) ltac:(lia)) as Hdm.
      pose proof (Z.mod_pos_bound M1 (2 ^ n2) HN2) as Hmod.
      destruct (shr_m mrs'') as [|p|p] eqn:Hp; [done| |done].
      destruct (_ <=? emax - prec); [|done].
      split; [done|]. split; [lia|].
      replace (e1 + n2 + 2148) with (n2 + (e1 + 2148)) by lia.
      rewrite Z.pow_add_r by lia. fold A. rewrite HK. nia.
Qed.

Lemma valid_finite_exp (f : float) s m e :
  Prim2SF f = S754_finite s m e → -1074 ≤ e.
Proof.
  intros Hf. pose proof (Prim2SF_valid f) as Hvalid. rewrite Hf in Hvalid.
  change (bounded prec emax m e = true) in Hvalid.
  unfold bounded, canonical_mantissa in Hvalid.
  apply andb_prop in Hvalid as [Hcanon _].
  apply Z.eqb_eq in Hcanon. rewrite fexp_binary64 in Hcanon. lia.
Qed.

Lemma nonnegative_sign (x : float) s m e :
  PrimFloat.leb 0 x = true → Prim2SF x = S754_finite s m e → s = false.
Proof.
  rewrite leb_spec, Prim2SF_zero. intros Hle Hx. rewrite Hx in Hle.
  by destruct s.
Qed.

Lemma binary_normalize_le (n : Z) :
  0 < n < 2 ^ 53 →
  match binary_normalize prec emax n 0 false with
  | S754_finite s m e =>
      s = false ∧ -2148 ≤ e ∧ Z.pos m * 2 ^ (e + 2148) ≤ n * 2 ^ 2148
  | _ => True
  end.
Proof.
  intros Hn. destruct n as [|m|m]; [lia| |lia].
  unfold binary_normalize, binary_round, shl_align.
  rewrite fexp_binary64.
  destruct (Z.max (Z.pos (digits2_pos m) + 0 - 53) (-1074) - 0) as [|d|d] eqn:Hd.
  - apply binary_round_aux_le; [done | lia | done].
  - apply binary_round_aux_le; [done | lia | done].
  - fold (shift_pos d m).
    apply binary_round_aux_le; [done | lia |].
    rewrite shift_pos_correct, Z.pow_pos_fold.
    assert (2 ^ 2148 = 2 ^ Z.pos d * 2 ^ (Z.neg d + 2148)) as ->.
    { rewrite <- Z.pow_add_r by lia. f_equal. lia. }
    replace ((Z.pos (digits2_pos m) + 0 - 53) `max` (-1074) + 2148)
      with (Z.neg d + 2148) by lia.
    lia.
Qed.

(** The float of an int below 2^53 does not exceed the int. *)
Lemma float_of_int_le (n : Z) :
  0 < n < 2 ^ 53 →
  ∃ f, float_of_int n = inr f
       ∧ match Prim2SF f with
         | S754_zero _ => True
         | S754_finite s m e =>
             s = false ∧ Z.pos m * 2 ^ (e + 2148) ≤ n * 2 ^ 2148
         | _ => False
         end.
Proof.
  intros Hn.
  assert (0 ≤ n < 2 ^ 63) as Hn63.
  { change (2 ^ 53) with 9007199254740992 in Hn.
    change (2 ^ 63) with 9223372036854775808. lia. }
  destruct (float_of_int_returns n Hn63) as (f & Hf & Hfin).
  exists f. split; [done|].
  apply finite_Prim2SF in Hfin.
  unfold float_of_int in Hf.
  destruct (PrimFloat.is_finite _); [|discriminate]. injection Hf as <-.
  pose proof (of_uint63_spec (Uint63.of_Z n)) as Hspec.
  rewrite Uint63.of_Z_spec, Z.mod_small in Hspec
    by (change Uint63.wB with (2 ^ 63); lia).
  rewrite <- Hspec, SF2Prim_Prim2SF in Hfin |- *. rewrite Hspec in Hfin |- *.
  pose proof (binary_normalize_le n Hn) as Hle.
  destruct (binary_normalize prec emax n 0 false) as [| | |s m e]; try done.
  by destruct Hle as (-> & _ & Hle).
Qed.

(** [int(n * split)] for an int below 2^53 and a float between 0 and 1 *)
Lemma scaled_within (n : Z) (x : float) :
  0 < n < 2 ^ 53 →
  PrimFloat.leb 0 x = true → PrimFloat.leb x 1 = true →
  ∃ k, Network.scaled n x = inr k ∧ 0 ≤ k ≤ n.
Proof.
  intros Hn H0 H1. unfold Network.scaled.
  destruct (float_of_int_le n Hn) as (f & -> & Hf). simpl.
  pose proof (unit_Prim2SF x H0 H1) as Hx.
  unfold int_of_float. rewrite mul_spec. unfold SF64mul.
  destruct (Prim2SF f) as [sf|sf| |sf mf ef] eqn:Ef; try done;
    destruct (Prim2SF x) as [sx|sx| |sx mx ex] eqn:Ex; try done;
    try (exists 0; split; [done | lia]).
  destruct Hf as [-> Hf]. destruct Hx as [Hex Hmx].
  pose proof (nonnegative_sign x _ _ _ H0 Ex) as ->.
  pose proof (valid_finite_exp f _ _ _ Ef) as Hef.
  pose proof (valid_finite_exp x _ _ _ Ex) as Hex'.
  unfold SFmul. simpl xorb.
  pose proof (binary_round_aux_le false (mf * mx) (ef + ex) n Hn ltac:(lia))
    as Hround.
  destruct (binary_round_aux prec emax false (Z.pos (mf * mx)) (ef + ex)
              loc_Exact) as [s|s| |s m e] eqn:Hr.
  - exists 0. split; [done | lia].
  - pose proof (binary_round_aux_finite false (mf * mx) (ef + ex)) as Hfin.
    rewrite Hr in Hfin. destruct Hfin.
    + destruct (valid_finite_bounds f _ _ _ Ef). lia.
    + destruct (valid_finite_bounds f _ _ _ Ef) as [Hef' Hmf].
      replace (971 - (ef + ex)) with ((971 - ef) + (- ex)) by lia.
      rewrite Z.pow_add_r by lia. rewrite Pos2Z.inj_mul.
      assert (0 < 2 ^ (971 - ef)) by (apply Z.pow_pos_nonneg; lia).
      assert (0 < 2 ^ (- ex)) by (apply Z.pow_pos_nonneg; lia).
      change (2 ^ 53) with 9007199254740992 in *. nia.
  - pose proof (binary_round_aux_finite false (mf * mx) (ef + ex)) as Hfin.
    rewrite Hr in Hfin. destruct Hfin.
    + destruct (valid_finite_bounds f _ _ _ Ef). lia.
    + destruct (valid_finite_bounds f _ _ _ Ef) as [Hef' Hmf].
      replace (971 - (ef + ex)) with ((971 - ef) + (- ex)) by lia.
      rewrite Z.pow_add_r by lia. rewrite Pos2Z.inj_mul.
      assert (0 < 2 ^ (971 - ef)) by (apply Z.pow_pos_nonneg; lia).
      assert (0 < 2 ^ (- ex)) by (apply Z.pow_pos_nonneg; lia).
      change (2 ^ 53) with 9007199254740992 in *. nia.
  - destruct Hround as (-> & He & Hle).
    { rewrite Pos2Z.inj_mul.
      assert (0 < 2 ^ (ef + ex + 2148)) by (apply Z.pow_pos_nonneg; lia).
      assert (0 < 2 ^ (- ex)) by (apply Z.pow_pos_nonneg; lia).
      assert (2 ^ (ef + 2148) = 2 ^ (- ex) * 2 ^ (ef + ex + 2148)) as Hsplit.
      { rewrite <- Z.pow_add_r by lia. f_equal. lia. }
      rewrite Hsplit in Hf. nia. }
    eexists. split; [done|].
    assert (0 < 2 ^ 2148) as HK by (by apply Z.pow_pos_nonneg).
    destruct (Z.le_gt_cases 0 e) as [Hpos|Hneg].
    + rewrite Z.shiftl_mul_pow2 by done.
      assert (0 < 2 ^ e) by (by apply Z.pow_pos_nonneg).
      rewrite Z.pow_add_r in Hle by lia. split; [lia | nia].
    + rewrite Z.shiftl_div_pow2 by lia.
      assert (0 < 2 ^ (- e)) as Hp by (apply Z.pow_pos_nonneg; lia).
      assert (2 ^ 2148 = 2 ^ (- e) * 2 ^ (e + 2148)) as Hsplit.
      { rewrite <- Z.pow_add_r by lia. f_equal. lia. }
      assert (0 < 2 ^ (e + 2148)) by (apply Z.pow_pos_nonneg; lia).
      split; [apply Z.div_pos; lia|].
      apply Z.div_le_upper_bound; [done|]. rewrite Hsplit in Hle. nia.
Qed.

End float_bounds.

Section splitting_fractions.
Context `{np.Kernel}.

(** X21: on a dataset of fewer than 2^53 items, [split_dataset] with a float
    between 0 and 1 returns and sets [split] to an int between 0 and
    [dataset_size]: rounding the product never yields more than the size.
    The partitions are the inputs and labels before and from that index, so
    that, when [dataset_size] is the number of inputs, [split] inputs are
    for training and the rest for testing. *)
Theorem split_dataset_float_within (w : Network.world) a b n x verbose :
  Network.inputs (Network.self w) = Some a →
  Network.labels (Network.self w) = Some b →
  Network.dataset_size (Network.self w) = Some n →
  (0 < n < 2 ^ 53)%Z →
  PrimFloat.leb 0 x = true → PrimFloat.leb x 1 = true →
  ∃ w' k,
    Network.split_dataset (PyFloat x) verbose w = (inr tt, w')
    ∧ Network.scaled n x = inr k
    ∧ (0 ≤ k ≤ n)%Z
    ∧ Network.split (Network.self w') = Some k
    ∧ Network.train_inputs (Network.self w') = Some (np.slice_to a k)
    ∧ Network.test_inputs (Network.self w') = Some (np.slice_from a k)
    ∧ Network.train_labels (Network.self w') = Some (np.slice_to b k)
    ∧ Network.test_labels (Network.self w') = Some (np.slice_from b k)
    ∧ (n = Z.of_nat (np.len a) →
       np.len (np.slice_to a k) = Z.to_nat k
       ∧ np.len (np.slice_from a k) = np.len a - Z.to_nat k).
Proof.
  intros Ha Hb Hn Hsize H0 H1.
  destruct (scaled_within n x Hsize H0 H1) as (k & Hk & Hrange).
  eexists _, k. split.
  - unfold Network.split_dataset, Network.bind, Network.getattr.
    rewrite Hn. destruct (n =? 0)%Z eqn:Hz; [apply Z.eqb_eq in Hz; lia|].
    rewrite H0, H1. simpl. rewrite Hn. simpl.
    unfold Network.lift. rewrite Hk. simpl.
    by repeat (first [rewrite Ha | rewrite Hb]; simpl).
  - simpl. split; [done|]. split; [done|]. split; [done|]. split; [done|].
    split; [done|]. split; [done|]. split; [done|]. intros ->.
    by rewrite slice_to_length, slice_from_length.
Qed.

End splitting_fractions.

Lemma split_dataset_float_within_witness :
  ∃ w' k,
    Network.split_dataset (PyFloat 0.5) true example.xor_net = (inr tt, w')
    ∧ Network.split (Network.self w') = Some k
    ∧ (0 ≤ k ≤ 4)%Z.
Proof.
  destruct (split_dataset_float_within (H := np64.kernel) example.xor_net
              example.XOR_inputs example.XOR_targets 4 0.5 true
              eq_refl eq_refl eq_refl ltac:(done) eq_refl eq_refl)
    as (w' & k & Hrun & _ & Hrange & Hsplit & _).
  exists w', k. split; [exact Hrun|]. split; [exact Hsplit | exact Hrange].
Defined.

(** ** The kinds of the layers along a chain *)

Lemma follow_step h l i x :
  follow h l i = Some x → follow h l (S i) = first_outgoing h x.
Proof.
  intros Hx. replace (S i) with (i + 1)%nat by lia.
  rewrite follow_add, Hx. simpl.
  by destruct (first_outgoing h x).
Qed.

Lemma out_links_first h x ly y :
  h !! x = Some ly → first_outgoing h x = Some y → (0 < out_links h x y)%nat.
Proof.
  intros Hx. unfold first_outgoing, out_links. rewrite Hx. simpl.
  destruct (Layer.outgoing_connections ly) as [|z rest]; [done|].
  intros [= ->]. rewrite filter_cons_True by done. simpl. lia.
Qed.

Lemma in_links_incoming h x y ly :
  h !! y = Some ly → (0 < in_links h x y)%nat →
  Layer.incoming_connections ly ≠ [].
Proof.
  intros Hy. unfold in_links. rewrite Hy. intros Hlinks Hnil.
  rewrite Hnil in Hlinks. simpl in Hlinks. lia.
Qed.

(** X22: in a network whose connections are recorded at both ends, as
    [connect] keeps them, the layers behind the first one on a list returned
    by [chain] are 'hidden' layers, up to the last one, which is an 'output'
    layer; each of them yields a dense layer of its size and activation as its
    first Keras layer.  The first layer of the list, when it has no incoming
    connection, is an 'input' layer if the list goes on, and 'unconnected'
    if it is alone. *)
Theorem chain_kinds fuel (h : gmap loc Layer.t) l p i x ly :
  paired h →
  Layer.chain fuel h l = Some p →
  p !! i = Some x →
  h !! x = Some ly →
  (0 < i → i + 1 < length p → Layer.kind ly = "hidden")
  ∧ (0 < i → i + 1 = length p → Layer.kind ly = "output")
  ∧ (0 < i → ∃ rest, Layer.make_keras_layers ly
                     = Dense (Layer.size ly) (Layer.activation ly) :: rest)
  ∧ (i = 0 → Layer.incoming_connections ly = [] →
     Layer.kind ly = if decide (1 < length p) then "input" else "unconnected").
Proof.
  intros Hpaired Hp Hi Hx.
  pose proof (chain_follow _ _ _ _ Hp) as Hfollow.
  assert (i + 1 < length p → Layer.outgoing_connections ly ≠ []) as Hinner.
  { intros Hlt. destruct (lookup_lt_is_Some_2 p (S i) ltac:(lia)) as [z Hz].
    rewrite Hfollow in Hi, Hz. rewrite (follow_step _ _ _ _ Hi) in Hz.
    unfold first_outgoing in Hz. rewrite Hx in Hz. simpl in Hz.
    intros Hnil. by rewrite Hnil in Hz. }
  assert (i + 1 = length p → Layer.outgoing_connections ly = []) as Hlast.
  { intros Heq.
    pose proof (chain_path_ends _ _ _ _ Hp (S i) ltac:(lia)) as Hend.
    rewrite Hfollow in Hi. rewrite (follow_step _ _ _ _ Hi) in Hend.
    unfold first_outgoing in Hend. rewrite Hx in Hend. simpl in Hend.
    by destruct (Layer.outgoing_connections ly). }
  assert (0 < i → Layer.incoming_connections ly ≠ []) as Hbehind.
  { intros Hpos. destruct i as [|j]; [lia|].
    destruct (lookup_lt_is_Some_2 p j) as [y Hy].
    { apply lookup_lt_Some in Hi. lia. }
    rewrite Hfollow in Hi, Hy. rewrite (follow_step _ _ _ _ Hy) in Hi.
    destruct (h !! y) as [ly'|] eqn:Hly'.
    2: { unfold first_outgoing in Hi. by rewrite Hly' in Hi. }
    apply (in_links_incoming h y x ly Hx). rewrite <- Hpaired.
    by eapply out_links_first. }
  unfold Layer.make_keras_layers, Layer.kind.
  split; [|split; [|split]].
  - intros Hpos Hlt. specialize (Hbehind Hpos). specialize (Hinner Hlt).
    by destruct (Layer.incoming_connections ly),
                (Layer.outgoing_connections ly).
  - intros Hpos Heq. specialize (Hbehind Hpos). rewrite (Hlast Heq).
    by destruct (Layer.incoming_connections ly).
  - intros Hpos. specialize (Hbehind Hpos).
    destruct (Layer.incoming_connections ly) as [|a ins]; [done|].
    destruct (Layer.outgoing_connections ly); simpl;
      destruct (Layer.positive (Layer.dropout ly)); simpl; eauto.
  - intros -> ->. case_decide as Hlen.
    + specialize (Hinner ltac:(lia)).
      by destruct (Layer.outgoing_connections ly).
    + assert (length p = 1) as Hone.
      { apply lookup_lt_Some in Hi. lia. }
      by rewrite (Hlast ltac:(lia)).
Qed.

Lemma chain_kinds_witness :
  ∃ ly, Network.heap example.net !! 1 = Some ly
        ∧ Layer.kind ly = "hidden"
        ∧ ∃ rest, Layer.make_keras_layers ly
                  = Dense (Layer.size ly) (Layer.activation ly) :: rest.
Proof.
  assert (closed (Network.heap example.net0)
          ∧ paired (Network.heap example.net0)) as [Hclosed0 Hpaired0].
  { apply unconnected_heap_paired.
    apply (bool_decide_unpack _). vm_compute. exact I. }
  assert (∀ name l,
            Network.layer_dict (Network.self example.net0) !! name = Some l →
            is_Some (Network.heap example.net0 !! l)) as Hdict0.
  { intros name l Hl.
    apply (init_dict_in_heap (H := np64.kernel)) in Hl as (_ & ly & Hly & _).
    by exists ly. }
  destruct (connect_keeps_links_paired (H := np64.kernel) example.net0
              example.net1 "input1" "hidden" (inr tt) Hdict0 Hclosed0 Hpaired0
              eq_refl) as (Hdict1 & Hclosed1 & Hpaired1 & _).
  destruct (connect_keeps_links_paired (H := np64.kernel) example.net1
              example.net "hidden" "output1" (inr tt) Hdict1 Hclosed1 Hpaired1
              eq_refl) as (_ & _ & Hpaired & _).
  destruct (Network.heap example.net !! 1) as [ly|] eqn:Hly;
    [|vm_compute in Hly; discriminate].
  assert (Layer.chain 3 (Network.heap example.net) 0 = Some [0; 1; 2]) as Hp
    by (vm_compute; reflexivity).
  destruct (chain_kinds 3 _ 0 [0; 1; 2] 1 1 ly Hpaired Hp eq_refl Hly)
    as (Hhidden & _ & Hdense & _).
  exists ly. split; [done|]. split; [apply Hhidden; simpl; lia|].
  apply Hdense. lia.
Defined.
